(** * FATE-Flow model synchronisation: a shallow embedding

    The development follows the two Python sources

      - [python/fate_flow/model/sync_model.py]  ([get_storage], [SyncModel],
        [SyncComponent]);
      - [python/fate_flow/pipelined_model/pipelined_component.py]
        ([PipelinedComponent]).

    Python code that raises is embedded in a state-and-exception monad
    [exec S A]: a computation takes the current state and returns the new
    state together with either a value or the exception that was raised.
    The state survives an exception, as the effects of a Python function do. *)

From Stdlib Require Import ZArith Ascii String List Lia.
From stdpp Require Import base option list strings gmap pretty.

Open Scope string_scope.
Open Scope list_scope.

(** ** Python exceptions and the execution monad *)

Module Py.

  (** A path is the list of its components ([a / b / c]). *)
Abbreviation path := (list string).

Inductive exn : Type :=
  | KeyError (msg : string)
  | AttributeError (msg : string)
  | ValueError (msg : string)
  | DoesNotExist
  | FileNotFoundError (p : path)
  | FileExistsError (p : path)
  | NotADirectoryError (p : path)
  | IsADirectoryError (p : path)
  | BadZipFile
  | TypeError (msg : string)
  | ExternalError (msg : string).

Inductive result (A : Type) : Type :=
  | Ok (a : A)
  | Raise (e : exn).
Arguments Ok {A} a.
Arguments Raise {A} e.

Definition exec (S A : Type) : Type := S -> S * result A.

Definition ret {S A} (a : A) : exec S A := fun s => (s, Ok a).
Definition raise {S A} (e : exn) : exec S A := fun s => (s, Raise e).
Definition bind {S A B} (m : exec S A) (k : A -> exec S B) : exec S B :=
    fun s => match m s with
             | (s', Ok a) => k a s'
             | (s', Raise e) => (s', Raise e)
             end.
Definition get {S} : exec S S := fun s => (s, Ok s).
Definition modify {S} (f : S -> S) : exec S unit := fun s => (f s, Ok tt).
Definition lift {S A} (r : result A) : exec S A := fun s => (s, r).

  (** [try_finally m cleanup]: Python's [with] statement runs the exit
      handler on every way out of the block and lets the exception pass. *)
Definition try_finally {S A} (m : exec S A) (cleanup : exec S unit) : exec S A :=
    fun s => match m s with
             | (s', r) => match cleanup s' with
                          | (s'', Ok _) => (s'', r)
                          | (s'', Raise e) => (s'', Raise e)
                          end
             end.

Definition is_ok {A} (r : result A) : bool :=
    match r with Ok _ => true | Raise _ => false end.

(** [s.split(sep, maxsplit)] for a one-character separator. *)
Fixpoint str_split (sep : Ascii.ascii) (maxsplit : nat) (s : string) : list string :=
  match s with
  | EmptyString => [EmptyString]
  | String c s' =>
      match maxsplit with
      | S n =>
          if Ascii.eqb c sep then EmptyString :: str_split sep n s'
          else match str_split sep maxsplit s' with
               | h :: t => String c h :: t
               | [] => [String c EmptyString]
               end
      | O => match str_split sep O s' with
             | h :: t => String c h :: t
             | [] => [String c EmptyString]
             end
      end
  end.

End Py.
Import Py.

Notation "'let!' x ':=' m 'in' k" := (bind m (fun x => k))
  (at level 10, x pattern, m at level 100, k at level 200,
   format "'[v' 'let!'  x  ':='  m  'in' '/' k ']'").
Notation "'do!' m 'in' k" := (bind m (fun _ => k))
  (at level 10, m at level 100, k at level 200,
   format "'[v' 'do!'  m  'in' '/' k ']'").

(** ** The database models ([fate_flow.db.db_models])

    Modelled from the spec: [db_models.py] is not part of the sources.  The
    fields are those the two source files read and write, with the types of
    spec section 6 ("Metadata record fields"); the two archive columns are
    nullable, as [save_define_meta] inserts rows without them. *)

Module MLModel.
Record t : Type := Build {
    f_role : string;
    f_party_id : string;
    f_model_id : string;
    f_model_version : string;
    f_archive_sha256 : option string;
    f_archive_from_ip : option string;
  }.
#[global] Instance eq_dec : EqDecision t.
Proof. solve_decision. Defined.
End MLModel.

Module PipelineComponentMeta.
Record t : Type := Build {
    id : Z;
    f_model_id : string;
    f_model_version : string;
    f_role : string;
    f_party_id : string;
    f_component_name : string;
    f_component_module_name : string;
    f_model_alias : string;
    f_model_proto_index : gmap string string;
    f_run_parameters : gmap string string;
    f_archive_sha256 : option string;
    f_archive_from_ip : option string;
  }.
#[global] Instance eq_dec : EqDecision t.
Proof. solve_decision. Defined.
End PipelineComponentMeta.

(** ** [fate_flow/model/sync_model.py] *)

Module sync_model.

(** The storage address configuration is a Python dict of scalars (the
    [model_store_address] block of the service configuration). *)
Inductive value : Type :=
| VNone
| VBool (b : bool)
| VInt (n : Z)
| VStr (s : string).

#[global] Instance value_eq_dec : EqDecision value.
Proof. solve_decision. Defined.

(** [str(v)], as the f-string of [get_storage] formats the backend name. *)
Definition str (v : value) : string :=
  match v with
  | VNone => "None"
  | VBool true => "True"
  | VBool false => "False"
  | VInt n => pretty n
  | VStr s => s
  end.

(** Dicts are mutable objects: they live in a store and are passed around by
    address, so that two names can denote the same dict.  An address with no
    object stands for [None]. *)
Abbreviation dict := (gmap string value).
Abbreviation loc := positive.

Inductive storage_class : Type :=
| MysqlModelStorage
| TencentCOSModelStorage
| MysqlComponentStorage
| TencentCOSComponentStorage.

#[global] Instance storage_class_eq_dec : EqDecision storage_class.
Proof. solve_decision. Defined.

Definition model_storage_map : gmap string storage_class :=
  {[ "mysql" := MysqlModelStorage; "tencent_cos" := TencentCOSModelStorage ]}.

Definition component_storage_map : gmap string storage_class :=
  {[ "mysql" := MysqlComponentStorage; "tencent_cos" := TencentCOSComponentStorage ]}.

(** [self.model_storage_parameters] of [SyncModel]. *)
Record model_storage_parameters_t : Type := ModelParams {
  model_id : string;
  model_version : string;
  store_address : loc;
}.

#[global] Instance model_storage_parameters_eq_dec : EqDecision model_storage_parameters_t.
Proof. solve_decision. Defined.

(** [self.component_storage_parameters] of [SyncComponent]: the tuple
    (party_model_id, model_version, component_name). *)
Abbreviation component_storage_parameters_t := (string * string * string)%type.

(** The handle on the local cache.  [pipelined_model.py] is not part of the
    sources; the fields are the attributes [sync_model.py] reads. *)
Record PipelinedModel : Type := {
  party_model_id : string;
  role : string;
  party_id : string;
  _model_id : string;
  pm_model_version : string;
}.

(** The calls made on the collaborators, in order. *)
Inductive call : Type :=
| Construct (cls : storage_class) (kwargs : dict)
| Exists (cls : storage_class) (p : model_storage_parameters_t)
| Store (cls : storage_class) (p : model_storage_parameters_t) (force_update : bool)
| Restore (cls : storage_class) (p : model_storage_parameters_t)
    (force_update : bool) (hash_ : option string)
| ComponentUpload (cls : storage_class) (p : component_storage_parameters_t)
| ComponentDownload (cls : storage_class) (p : component_storage_parameters_t)
    (hash_ : option string)
| Acquire (key : string)
| Release (key : string).

#[global] Instance call_eq_dec : EqDecision call.
Proof. solve_decision. Defined.

(** The state the module runs in: the dict objects, the log of calls, the two
    tables and the state [R] of what lies outside (remote blob store and local
    cache), which only the collaborators read and write. *)
Record world (R : Type) : Type := World {
  objects : gmap loc dict;
  calls : list call;
  models : list MLModel.t;
  component_metas : list PipelineComponentMeta.t;
  outside : R;
}.
Arguments World {R}.
Arguments objects {R}.
Arguments calls {R}.
Arguments models {R}.
Arguments component_metas {R}.
Arguments outside {R}.

Definition set_objects {R} (f : gmap loc dict -> gmap loc dict) (w : world R) : world R :=
  World (f (objects w)) (calls w) (models w) (component_metas w) (outside w).
Definition set_calls {R} (f : list call -> list call) (w : world R) : world R :=
  World (objects w) (f (calls w)) (models w) (component_metas w) (outside w).
Definition set_models {R} (f : list MLModel.t -> list MLModel.t) (w : world R) : world R :=
  World (objects w) (calls w) (f (models w)) (component_metas w) (outside w).
Definition set_component_metas {R}
    (f : list PipelineComponentMeta.t -> list PipelineComponentMeta.t) (w : world R) : world R :=
  World (objects w) (calls w) (models w) (f (component_metas w)) (outside w).
Definition set_outside {R} (r : R) (w : world R) : world R :=
  World (objects w) (calls w) (models w) (component_metas w) r.

(** The contract of the collaborators: the storage backends
    ([model_storage_base.ModelStorageBase] and the component storages) and the
    local cache ([PipelinedModel]).  A backend may fail with any exception. *)
Class Collaborators (R : Type) : Type := {
  storage_init : storage_class -> dict -> result unit;
  storage_exists : storage_class -> model_storage_parameters_t -> R -> bool;
  storage_store :
    storage_class -> model_storage_parameters_t -> bool -> R -> R * result string;
  storage_restore :
    storage_class -> model_storage_parameters_t -> bool -> option string -> R ->
    R * result unit;
  component_upload :
    storage_class -> component_storage_parameters_t -> R -> R * result string;
  component_download :
    storage_class -> component_storage_parameters_t -> option string -> R ->
    R * result unit;
  new_PipelinedModel : string -> string -> result PipelinedModel;
  pipelined_model_exists : PipelinedModel -> R -> bool;
}.

Section common.

Context {R : Type} {C : Collaborators R}.

(** [ServerRegistry.MODEL_STORE_ADDRESS]: the name of the registry's dict. *)
Variable MODEL_STORE_ADDRESS : loc.

Definition log (c : call) : exec (world R) unit :=
  modify (set_calls (fun cs => cs ++ [c])).

(** [deepcopy(x)]: a new dict object with the same items; [None] is its own
    copy. *)
Definition deepcopy (l : loc) : exec (world R) loc :=
  fun w => match objects w !! l with
           | Some d =>
               let l' := fresh (dom (objects w)) in
               (set_objects (fun h => <[l' := d]> h) w, Ok l')
           | None => (w, Ok l)
           end.

(** [d.pop(key)]: removes the key from the object itself. *)
Definition dict_pop (l : loc) (key : string) : exec (world R) value :=
  fun w => match objects w !! l with
           | None => (w, Raise (AttributeError "'NoneType' object has no attribute 'pop'"))
           | Some d =>
               match d !! key with
               | None => (w, Raise (KeyError key))
               | Some v => (set_objects (fun h => <[l := delete key d]> h) w, Ok v)
               end
           end.

(** [store_type in storage_map]: the keys of the map are strings. *)
Definition storage_map_get (storage_map : gmap string storage_class) (store_type : value)
  : option storage_class :=
  match store_type with
  | VStr s => storage_map !! s
  | _ => None
  end.

Definition unsupported (store_type : value) : exn :=
  KeyError ("Model storage '" +:+ str store_type +:+ "' is not supported.").

Definition get_storage (storage_map : gmap string storage_class)
  : exec (world R) (storage_class * loc) :=
  let! store_address := deepcopy MODEL_STORE_ADDRESS in
  let! store_type := dict_pop store_address "storage" in
  match storage_map_get storage_map store_type with
  | None => raise (unsupported store_type)
  | Some cls => ret (cls, store_address)
  end.

(** Calling a backend class with keyword arguments [kwargs]. *)
Definition construct (cls : storage_class) (kwargs : dict) : exec (world R) storage_class :=
  do! log (Construct cls kwargs) in
  do! lift (storage_init cls kwargs) in
  ret cls.

(** [with lock: body]. *)
Definition with_lock {A} (key : string) (body : exec (world R) A) : exec (world R) A :=
  do! log (Acquire key) in
  try_finally body (log (Release key)).

End common.

(** *** [class SyncModel] *)

Module SyncModel.

(** The attributes [__init__] assigns. *)
Record t : Type := {
  pipelined_model : PipelinedModel;
  model_storage : storage_class;
  model_storage_parameters : model_storage_parameters_t;
  lock : string;
}.

Section SyncModel.

Context {R : Type} {C : Collaborators R}.

(** [fate_flow.settings.HOST] and [ServerRegistry.MODEL_STORE_ADDRESS]. *)
Variable HOST : string.
Variable MODEL_STORE_ADDRESS : loc.

Definition __init__ (party_model_id model_version : string)
  : exec (world R) t :=
  let! pm := lift (new_PipelinedModel party_model_id model_version) in
  let! (storage, storage_address) := get_storage MODEL_STORE_ADDRESS model_storage_map in
  let! inst := construct storage ∅ in
  ret {| pipelined_model := pm;
         model_storage := inst;
         model_storage_parameters :=
           ModelParams party_model_id model_version storage_address;
         lock := "sync_model_" +:+ party_model_id +:+ "_" +:+ model_version |}.

Definition local_exits (self : t) : exec (world R) bool :=
  let! w := get in
  ret (pipelined_model_exists (pipelined_model self) (outside w)).

Definition remote_exits (self : t) : exec (world R) bool :=
  do! log (Exists (model_storage self) (model_storage_parameters self)) in
  let! w := get in
  ret (storage_exists (model_storage self) (model_storage_parameters self) (outside w)).

(** [MLModel.get(...)]: the first row with the four identity fields, or
    [DoesNotExist]. *)
Definition is_model (self : t) (m : MLModel.t) : bool :=
  bool_decide (MLModel.f_role m = role (pipelined_model self)) &&
  bool_decide (MLModel.f_party_id m = party_id (pipelined_model self)) &&
  bool_decide (MLModel.f_model_id m = _model_id (pipelined_model self)) &&
  bool_decide (MLModel.f_model_version m = pm_model_version (pipelined_model self)).

Definition get_model (self : t) : exec (world R) MLModel.t :=
  let! w := get in
  match List.find (is_model self) (models w) with
  | Some m => ret m
  | None => raise DoesNotExist
  end.

Definition db_exits (self : t) : exec (world R) bool :=
  fun w => match get_model self w with
           | (w', Ok _) => (w', Ok true)
           | (w', Raise DoesNotExist) => (w', Ok false)
           | (w', Raise e) => (w', Raise e)
           end.

(** [model.save()]: writes the instance back to its row; the row is found by
    the primary key, the model identity (spec section 3: one row per
    identity). *)
Definition same_identity (m r : MLModel.t) : bool :=
  bool_decide (MLModel.f_role r = MLModel.f_role m) &&
  bool_decide (MLModel.f_party_id r = MLModel.f_party_id m) &&
  bool_decide (MLModel.f_model_id r = MLModel.f_model_id m) &&
  bool_decide (MLModel.f_model_version r = MLModel.f_model_version m).

Definition save (m : MLModel.t) : exec (world R) unit :=
  modify (set_models (List.map (fun r => if same_identity m r then m else r))).

Definition store (self : t) (force_update : bool) : exec (world R) string :=
  do! log (Store (model_storage self) (model_storage_parameters self) force_update) in
  fun w =>
    match storage_store (model_storage self) (model_storage_parameters self)
            force_update (outside w) with
    | (r, res) => (set_outside r w, res)
    end.

Definition restore (self : t) (force_update : bool) (hash_ : option string)
  : exec (world R) unit :=
  do! log (Restore (model_storage self) (model_storage_parameters self) force_update hash_) in
  fun w =>
    match storage_restore (model_storage self) (model_storage_parameters self)
            force_update hash_ (outside w) with
    | (r, res) => (set_outside r w, res)
    end.

Definition with_archive (m : MLModel.t) (hash_ : string) : MLModel.t :=
  MLModel.Build (MLModel.f_role m) (MLModel.f_party_id m) (MLModel.f_model_id m)
    (MLModel.f_model_version m) (Some hash_) (Some HOST).

Definition upload (self : t) (force_update : bool)
  : exec (world R) (option MLModel.t) :=
  let! remote := remote_exits self in
  if remote && negb force_update then ret None
  else
    let! model :=
      with_lock (lock self)
        (let! model := get_model self in
         let! hash_ := store self force_update in
         let model := with_archive model hash_ in
         do! save model in
         ret model) in
    ret (Some model).

Definition download (self : t) (force_update : bool)
  : exec (world R) (option MLModel.t) :=
  let! local := local_exits self in
  if local && negb force_update then ret None
  else
    let! model :=
      with_lock (lock self)
        (let! model := get_model self in
         do! (if force_update || negb (bool_decide (MLModel.f_archive_from_ip model = Some HOST))
              then restore self force_update (MLModel.f_archive_sha256 model)
              else ret tt) in
         ret model) in
    ret (Some model).

End SyncModel.

End SyncModel.

(** *** [class SyncComponent] *)

Module SyncComponent.

(** [self.query_args]: the five equalities of the filter, by their right-hand
    sides. *)
Record query_args_t : Type := QueryArgs {
  q_role : string;
  q_party_id : string;
  q_model_id : string;
  q_model_version : string;
  q_component_name : string;
}.

(** An instance while [__init__] runs is its attribute dict; reading an
    attribute that is neither in it nor defined by the class raises
    [AttributeError]. *)
Inductive attr : Type :=
| AStorage (inst : storage_class)
| AParameters (p : component_storage_parameters_t)
| APipelinedModel (pm : PipelinedModel)
| AString (s : string)
| AQueryArgs (q : query_args_t)
| ALock (key : string)
| AMethod (name : string).

Abbreviation instance := (gmap string attr).

Definition class_attributes : list string :=
  ["__init__"; "local_exits"; "remote_exits"; "get_archive_hash";
   "update_archive_hash"; "upload"; "download"].

Definition no_attribute (cls name : string) : exn :=
  AttributeError ("'" +:+ cls +:+ "' object has no attribute '" +:+ name +:+ "'").

Definition getattr (self : instance) (name : string) : result attr :=
  match self !! name with
  | Some a => Ok a
  | None =>
      if bool_decide (name ∈ class_attributes) then Ok (AMethod name)
      else Raise (no_attribute "SyncComponent" name)
  end.

(** [x.party_model_id], [x.model_version], ... on an attribute value: only a
    [PipelinedModel] has these. *)
Definition as_pipelined_model (field : string) (a : attr) : result PipelinedModel :=
  match a with
  | APipelinedModel pm => Ok pm
  | _ => Raise (no_attribute "object" field)
  end.

Definition as_string (a : attr) : result string :=
  match a with
  | AString s => Ok s
  | _ => Raise (ExternalError "not a string")
  end.

Definition as_parameters (a : attr) : result component_storage_parameters_t :=
  match a with
  | AParameters p => Ok p
  | _ => Raise (ExternalError "not a tuple")
  end.

Section SyncComponent.

Context {R : Type} {C : Collaborators R}.
Variable HOST : string.
Variable MODEL_STORE_ADDRESS : loc.

(** The keyword arguments unpacked from [storage_address]: the items of the
    dict. *)
Definition kwargs_of (l : loc) : exec (world R) dict :=
  let! w := get in
  match objects w !! l with
  | Some d => ret d
  | None => raise (ExternalError "argument after ** must be a mapping, not NoneType")
  end.

(** The attribute chain [self.pipelined_model.<field>]. *)
Definition self_pipelined_model (self : instance) (field : string) : result PipelinedModel :=
  match getattr self "pipelined_model" with
  | Ok a => as_pipelined_model field a
  | Raise e => Raise e
  end.

Definition self_component_name (self : instance) : result string :=
  match getattr self "component_name" with
  | Ok a => as_string a
  | Raise e => Raise e
  end.

(** [__init__], statement by statement; the result is the attribute dict of
    the instance when the constructor returns. *)
Definition __init__ (party_model_id_ model_version_ component_name_ : string)
  : exec (world R) instance :=
  let self : instance := ∅ in
  let! (storage, storage_address) := get_storage MODEL_STORE_ADDRESS model_storage_map in
  let! kwargs := kwargs_of storage_address in
  let! component_storage := construct storage kwargs in
  let self := <["component_storage" := AStorage component_storage]> self in
  let! pm1 := lift (self_pipelined_model self "party_model_id") in
  let! pm2 := lift (self_pipelined_model self "model_version") in
  let! cn := lift (self_component_name self) in
  let self :=
    <["component_storage_parameters" :=
        AParameters (party_model_id pm1, pm_model_version pm2, cn)]> self in
  let! pm := lift (new_PipelinedModel party_model_id_ model_version_) in
  let self := <["pipelined_model" := APipelinedModel pm]> self in
  let self := <["component_name" := AString component_name_]> self in
  let! q1 := lift (self_pipelined_model self "role") in
  let! q2 := lift (self_pipelined_model self "party_id") in
  let! q3 := lift (self_pipelined_model self "_model_id") in
  let! q4 := lift (self_pipelined_model self "model_version") in
  let! q5 := lift (self_component_name self) in
  let self :=
    <["query_args" :=
        AQueryArgs (QueryArgs (role q1) (party_id q2) (_model_id q3) (pm_model_version q4) q5)]>
      self in
  let! params := lift (match getattr self "component_storage_parameters" with
                       | Ok a => as_parameters a
                       | Raise e => Raise e
                       end) in
  let '(p1, p2, p3) := params in
  let self :=
    <["lock" := ALock ("sync_component_" +:+ p1 +:+ "_" +:+ p2 +:+ "_" +:+ p3)]> self in
  ret self.

(** The methods read the attributes of a constructed instance. *)
Record t : Type := {
  component_storage : storage_class;
  component_storage_parameters : component_storage_parameters_t;
  pipelined_model : PipelinedModel;
  component_name : string;
  query_args : query_args_t;
  lock : string;
}.

(** The filter [where] of the five [query_args]. *)
Definition where_ (q : query_args_t) (r : PipelineComponentMeta.t) : bool :=
  bool_decide (PipelineComponentMeta.f_role r = q_role q) &&
  bool_decide (PipelineComponentMeta.f_party_id r = q_party_id q) &&
  bool_decide (PipelineComponentMeta.f_model_id r = q_model_id q) &&
  bool_decide (PipelineComponentMeta.f_model_version r = q_model_version q) &&
  bool_decide (PipelineComponentMeta.f_component_name r = q_component_name q).

(** [.group_by(f_archive_sha256, f_archive_from_ip)]: one row for each
    distinct pair of the two columns, [NULL] being a value like any other; the
    row kept is the first of its group. *)
Definition group_key (r : PipelineComponentMeta.t) : option string * option string :=
  (PipelineComponentMeta.f_archive_sha256 r, PipelineComponentMeta.f_archive_from_ip r).

Fixpoint group_by_from (seen : list (option string * option string))
    (rows : list PipelineComponentMeta.t) : list PipelineComponentMeta.t :=
  match rows with
  | [] => []
  | r :: rows' =>
      if bool_decide (group_key r ∈ seen) then group_by_from seen rows'
      else r :: group_by_from (group_key r :: seen) rows'
  end.

Definition group_by (rows : list PipelineComponentMeta.t) : list PipelineComponentMeta.t :=
  group_by_from [] rows.

Definition invalid_define_meta (component_name : string) : exn :=
  ValueError ("The define_meta data of " +:+ component_name +:+ " in database is invalid.").

Definition get_archive_hash (self : t) : exec (world R) (option string) :=
  let! w := get in
  let query := group_by (List.filter (where_ (query_args self)) (component_metas w)) in
  if negb (Nat.eqb (length query) 1) then raise (invalid_define_meta (component_name self))
  else
    match query with
    | row :: _ => ret (PipelineComponentMeta.f_archive_sha256 row)
    | [] => raise (ExternalError "tuple index out of range")
    end.

Definition with_archive (r : PipelineComponentMeta.t) (hash_ : string)
  : PipelineComponentMeta.t :=
  PipelineComponentMeta.Build
    (PipelineComponentMeta.id r) (PipelineComponentMeta.f_model_id r)
    (PipelineComponentMeta.f_model_version r) (PipelineComponentMeta.f_role r)
    (PipelineComponentMeta.f_party_id r) (PipelineComponentMeta.f_component_name r)
    (PipelineComponentMeta.f_component_module_name r) (PipelineComponentMeta.f_model_alias r)
    (PipelineComponentMeta.f_model_proto_index r) (PipelineComponentMeta.f_run_parameters r)
    (Some hash_) (Some HOST).

Definition update_archive_hash (self : t) (hash_ : string) : exec (world R) unit :=
  modify (set_component_metas
            (List.map (fun r => if where_ (query_args self) r then with_archive r hash_ else r))).

Definition upload (self : t) : exec (world R) unit :=
  with_lock (lock self)
    (let! _ := get_archive_hash self in
     do! log (ComponentUpload (component_storage self) (component_storage_parameters self)) in
     let! hash_ :=
       (fun w => match component_upload (component_storage self)
                         (component_storage_parameters self) (outside w) with
                 | (r, res) => (set_outside r w, res)
                 end) in
     update_archive_hash self hash_).

Definition download (self : t) : exec (world R) unit :=
  with_lock (lock self)
    (let! hash_ := get_archive_hash self in
     do! log (ComponentDownload (component_storage self)
                (component_storage_parameters self) hash_) in
     fun w => match component_download (component_storage self)
                      (component_storage_parameters self) hash_ (outside w) with
              | (r, res) => (set_outside r w, res)
              end).

End SyncComponent.

End SyncComponent.

End sync_model.

(** ** A small deployment to run the model on

    The state outside is a pair: is the archive in the remote store, is the
    model in the local cache.  The backends always succeed; [store] returns a
    fixed digest; the local cache handle is made from the party model id as
    [PipelinedComponent.__init__] splits it. *)

Module example.

Import sync_model.

Definition digest : string := "2c26b46b68ffc68ff99b453c1d304134".

Definition unpack_party_model_id (party_model_id model_version : string)
  : result PipelinedModel :=
  match str_split "#"%char 2 party_model_id with
  | [r; p; m] =>
      Ok {| party_model_id := party_model_id; role := r; party_id := p;
            _model_id := m; pm_model_version := model_version |}
  | _ => Raise (ValueError "not enough values to unpack (expected 3)")
  end.

Definition backends : Collaborators (bool * bool) := {|
  storage_init _ _ := Ok tt;
  storage_exists _ _ r := fst r;
  storage_store _ _ _ r := ((true, snd r), Ok digest);
  storage_restore _ _ _ _ r := ((fst r, true), Ok tt);
  component_upload _ _ r := ((true, snd r), Ok digest);
  component_download _ _ _ r := ((fst r, true), Ok tt);
  new_PipelinedModel := unpack_party_model_id;
  pipelined_model_exists _ r := snd r;
|}.

Definition mysql_address : dict :=
  {[ "storage" := VStr "mysql"; "database" := VStr "fate_model"; "port" := VInt 3306 ]}.

Definition registry : loc := 1%positive.

Definition guest_model (sha ip : option string) : MLModel.t :=
  MLModel.Build "guest" "9999" "m1" "v1" sha ip.

(** A world whose registry holds [address], with the given tables and state
    outside, and nothing called yet. *)
Definition world0 (address : dict) (ms : list MLModel.t)
    (cs : list PipelineComponentMeta.t) (r : bool * bool) : world (bool * bool) :=
  World {[ registry := address ]} [] ms cs r.

(** The [SyncModel] of the model guest#9999#m1, version v1, as [__init__]
    builds it on [world0] (the copied address is the object 2). *)
Definition guest_sync : SyncModel.t := {|
  SyncModel.pipelined_model :=
    {| party_model_id := "guest#9999#m1"; role := "guest"; party_id := "9999";
       _model_id := "m1"; pm_model_version := "v1" |};
  SyncModel.model_storage := MysqlModelStorage;
  SyncModel.model_storage_parameters := ModelParams "guest#9999#m1" "v1" 2%positive;
  SyncModel.lock := "sync_model_guest#9999#m1_v1";
|}.

(** A metadata row of the component c of that model. *)
Definition guest_meta (id : Z) (alias : string) (index : gmap string string)
    (sha ip : option string) : PipelineComponentMeta.t :=
  PipelineComponentMeta.Build id "m1" "v1" "guest" "9999" "c" "HeteroLR" alias
    index ∅ sha ip.

(** The [SyncComponent] of that component, had [__init__] returned. *)
Definition guest_component : SyncComponent.t := {|
  SyncComponent.component_storage := MysqlModelStorage;
  SyncComponent.component_storage_parameters := ("guest#9999#m1", "v1", "c");
  SyncComponent.pipelined_model := SyncModel.pipelined_model guest_sync;
  SyncComponent.component_name := "c";
  SyncComponent.query_args := SyncComponent.QueryArgs "guest" "9999" "m1" "v1" "c";
  SyncComponent.lock := "sync_component_guest#9999#m1_v1_c";
|}.

End example.

(** ** The local file system ([pathlib])

    A directory is the list of its entries, in the order [iterdir] yields
    them; the tree is rooted at the model's cache directory
    ([self.model_path]), so a path here is what [relative_to(self.model_path)]
    gives. *)

Module pathlib.

Abbreviation bytes := (list Byte.byte).

#[local] Set Warnings "-register-all".

Inductive node : Type :=
| File (content : bytes)
| Dir (children : list (string * node)).

(** The entry [name] of a directory listing. *)
Fixpoint child (name : string) (cs : list (string * node)) : option node :=
  match cs with
  | [] => None
  | (x, c) :: cs' => if String.eqb x name then Some c else child name cs'
  end.

(** Replaces the entry [name]. *)
Fixpoint set_child (name : string) (c' : node) (cs : list (string * node))
  : list (string * node) :=
  match cs with
  | [] => []
  | (x, c) :: cs' =>
      if String.eqb x name then (x, c') :: cs' else (x, c) :: set_child name c' cs'
  end.

(** The node a path leads to. *)
Fixpoint resolve (p : path) (n : node) : option node :=
  match p with
  | [] => Some n
  | x :: p' =>
      match n with
      | Dir cs => match child x cs with Some c => resolve p' c | None => None end
      | File _ => None
      end
  end.

Definition path_exists (p : path) (n : node) : bool :=
  match resolve p n with Some _ => true | None => false end.

Definition is_file (p : path) (n : node) : bool :=
  match resolve p n with Some (File _) => true | _ => false end.

Definition is_dir (p : path) (n : node) : bool :=
  match resolve p n with Some (Dir _) => true | _ => false end.

(** The content of the file at [p], if [p] is a file. *)
Definition get_file (n : node) (p : path) : option bytes :=
  match resolve p n with Some (File b) => Some b | _ => None end.

Definition read_bytes (p : path) (n : node) : result bytes :=
  match resolve p n with
  | Some (File b) => Ok b
  | Some (Dir _) => Raise (IsADirectoryError p)
  | None => Raise (FileNotFoundError p)
  end.

Definition iterdir (p : path) (n : node) : result (list (string * node)) :=
  match resolve p n with
  | Some (Dir cs) => Ok cs
  | Some (File _) => Raise (NotADirectoryError p)
  | None => Raise (FileNotFoundError p)
  end.

(** A chain of new, empty directories. *)
Fixpoint new_dirs (p : path) : node :=
  match p with
  | [] => Dir []
  | x :: p' => Dir [(x, new_dirs p')]
  end.

(** [p.mkdir(parents=True, exist_ok=True)]; [full] is the whole path, for the
    exception. *)
Fixpoint mkdir_at (full p : path) (n : node) : result node :=
  match p with
  | [] => match n with
          | Dir _ => Ok n
          | File _ => Raise (FileExistsError full)
          end
  | x :: p' =>
      match n with
      | File _ => Raise (NotADirectoryError full)
      | Dir cs =>
          match child x cs with
          | Some c =>
              match mkdir_at full p' c with
              | Ok c' => Ok (Dir (set_child x c' cs))
              | Raise e => Raise e
              end
          | None => Ok (Dir (cs ++ [(x, new_dirs p')]))
          end
      end
  end.

Definition mkdir (p : path) (n : node) : result node := mkdir_at p p n.

(** [p.open('x')] followed by the write of [b]: exclusive creation. *)
Fixpoint create_at (full p : path) (b : bytes) (n : node) : result node :=
  match p with
  | [] => Raise (FileExistsError full)
  | x :: p' =>
      match n with
      | File _ => Raise (NotADirectoryError full)
      | Dir cs =>
          match child x cs with
          | Some c =>
              match create_at full p' b c with
              | Ok c' => Ok (Dir (set_child x c' cs))
              | Raise e => Raise e
              end
          | None =>
              match p' with
              | [] => Ok (Dir (cs ++ [(x, File b)]))
              | _ => Raise (FileNotFoundError full)
              end
          end
      end
  end.

Definition open_x (p : path) (b : bytes) (n : node) : result node := create_at p p b n.

(** A new file below a chain of new directories. *)
Fixpoint new_file (p : path) (b : bytes) : node :=
  match p with
  | [] => File b
  | x :: p' => Dir [(x, new_file p' b)]
  end.

(** The extraction of one archive member: the missing directories are made
    and the file is written, over an existing file if there is one. *)
Fixpoint write_at (full p : path) (b : bytes) (n : node) : result node :=
  match p with
  | [] => match n with
          | File _ => Ok (File b)
          | Dir _ => Raise (IsADirectoryError full)
          end
  | x :: p' =>
      match n with
      | File _ => Raise (NotADirectoryError full)
      | Dir cs =>
          match child x cs with
          | Some c =>
              match write_at full p' b c with
              | Ok c' => Ok (Dir (set_child x c' cs))
              | Raise e => Raise e
              end
          | None => Ok (Dir (cs ++ [(x, new_file p' b)]))
          end
      end
  end.

Definition write_bytes (p : path) (b : bytes) (n : node) : result node := write_at p p b n.

(** The files below a node, with their paths; [rel] is the path of the node. *)
Fixpoint walk (rel : path) (n : node) {struct n} : list (path * bytes) :=
  match n with
  | File b => [(rel, b)]
  | Dir cs => flat_map (fun '(name, c) => walk (rel ++ [name]) c) cs
  end.

(** No two entries of a directory have the same name. *)
Fixpoint wf (n : node) {struct n} : bool :=
  match n with
  | File _ => true
  | Dir cs =>
      bool_decide (NoDup (List.map fst cs)) && forallb (fun '(_, c) => wf c) cs
  end.

(** [PurePath] parsing of a string: a string that starts with a slash is
    absolute; its parts are what lies between the slashes, without the empty
    parts and the parts [.] (a part [..] stays). *)
Definition is_absolute (s : string) : bool :=
  match s with
  | String "/"%char _ => true
  | _ => false
  end.

Definition pure_parts (s : string) : path :=
  List.filter (fun part => negb (String.eqb part "") && negb (String.eqb part "."))
    (str_split "/"%char (String.length s) s).

(** A path as the code builds it with [/]: below the cache directory, or
    absolute. *)
Inductive location : Type :=
| Inside (p : path)
| Absolute (p : path).

(** [base / s]: an absolute [s] replaces the base. *)
Definition joinpath (base : location) (s : string) : location :=
  if is_absolute s then Absolute (pure_parts s)
  else match base with
       | Inside p => Inside (p ++ pure_parts s)
       | Absolute p => Absolute (p ++ pure_parts s)
       end.

(** Where a path from the cache directory leads: [..] goes to the directory
    above, and above the cache directory the path has left the tree. *)
Inductive located : Type :=
| Found (n : node)
| NotFound
| Left (rest : path).

Fixpoint locate (up : list node) (n : node) (p : path) : located :=
  match p with
  | [] => Found n
  | x :: p' =>
      match n with
      | File _ => NotFound
      | Dir cs =>
          if String.eqb x ".."
          then match up with
               | [] => Left p'
               | above :: up' => locate up' above p'
               end
          else match child x cs with
               | Some c => locate (n :: up) c p'
               | None => NotFound
               end
      end
  end.

(** What is outside the cache directory: whether an absolute path, or a
    path from the directory above the cache, is a regular file. *)
Inductive beyond : Type :=
| FromRoot (p : path)
| FromAbove (p : path).

Class Surroundings : Type := { is_file_beyond : beyond -> bool }.

(** [l.is_file()]. *)
Definition is_file_at `{Surroundings} (l : location) (root : node) : bool :=
  match l with
  | Absolute p => is_file_beyond (FromRoot p)
  | Inside p =>
      match locate [] root p with
      | Found (File _) => true
      | Found (Dir _) | NotFound => false
      | Left rest => is_file_beyond (FromAbove rest)
      end
  end.

End pathlib.

(** ** [fate_flow/pipelined_model/pipelined_component.py] *)

Module pipelined_component.

Import pathlib.

(** The define-meta document: [component_define] maps a component to the dict
    with its [module_name]; [model_proto] maps a component to its aliases and
    each alias to its proto index. *)
Record component_define_t : Type := ComponentDefine { module_name : string }.

#[global] Instance component_define_eq_dec : EqDecision component_define_t.
Proof. solve_decision. Defined.

Record define_meta_t : Type := DefineMeta {
  component_define : gmap string component_define_t;
  model_proto : gmap string (gmap string (gmap string string));
}.

#[global] Instance define_meta_eq_dec : EqDecision define_meta_t.
Proof. solve_decision. Defined.

(** The libraries the module calls: [hashlib.sha256(..).hexdigest()], the
    writing and reading of a [ZipFile] (an archive is the list of its members,
    name and content, in order), [yaml.load] and [yaml.dump] on define-meta
    documents, [json_loads] and [json_dumps] on run parameters. *)
Class Libraries : Type := {
  sha256_hexdigest : bytes -> string;
  zip_write : list (path * bytes) -> bytes;
  zip_read : bytes -> result (list (path * bytes));
  yaml_load : bytes -> result define_meta_t;
  yaml_dump : define_meta_t -> bytes;
  json_loads : bytes -> result (gmap string string);
  json_dumps : gmap string string -> bytes;
}.

(** What is read back from an archive is what was written to it. *)
Definition zip_roundtrip `{Libraries} : Prop :=
  forall members, zip_read (zip_write members) = Ok members.

(** The state: the cache directory of the model version, the files of
    [TEMP_DIRECTORY] by name, and the table of [PipelineComponentMeta]. *)
Record state : Type := State {
  model_root : node;
  temp : gmap string bytes;
  component_metas : list PipelineComponentMeta.t;
}.

Definition set_model_root (n : node) (s : state) : state :=
  State n (temp s) (component_metas s).
Definition set_temp (f : gmap string bytes -> gmap string bytes) (s : state) : state :=
  State (model_root s) (f (temp s)) (component_metas s).
Definition set_component_metas
    (f : list PipelineComponentMeta.t -> list PipelineComponentMeta.t) (s : state) : state :=
  State (model_root s) (temp s) (f (component_metas s)).

(** A file operation on the cache directory, as a step of the monad. *)
Definition on_root (op : node -> result node) : exec state unit :=
  fun s => match op (model_root s) with
           | Ok n => (set_model_root n s, Ok tt)
           | Raise e => (s, Raise e)
           end.

Definition read_root {A} (op : node -> result A) : exec state A :=
  fun s => (s, op (model_root s)).

(** *** Rows as dicts

    Modelled from the spec: [to_dict] is a method of the model class, which is
    not part of the sources.  [replicate_define_meta] deletes the key [id]
    from its result and strips the prefix [f_] from the other keys, so the
    dict has [id] and the [f_]-prefixed columns of spec section 6. *)
Inductive field_value : Type :=
| FNull
| FInt (n : Z)
| FStr (s : string)
| FMap (m : gmap string string).

#[global] Instance field_value_eq_dec : EqDecision field_value.
Proof. solve_decision. Defined.

Definition of_nullable (o : option string) : field_value :=
  match o with Some s => FStr s | None => FNull end.

Definition to_dict (r : PipelineComponentMeta.t) : gmap string field_value :=
  {[ "id" := FInt (PipelineComponentMeta.id r);
     "f_model_id" := FStr (PipelineComponentMeta.f_model_id r);
     "f_model_version" := FStr (PipelineComponentMeta.f_model_version r);
     "f_role" := FStr (PipelineComponentMeta.f_role r);
     "f_party_id" := FStr (PipelineComponentMeta.f_party_id r);
     "f_component_name" := FStr (PipelineComponentMeta.f_component_name r);
     "f_component_module_name" := FStr (PipelineComponentMeta.f_component_module_name r);
     "f_model_alias" := FStr (PipelineComponentMeta.f_model_alias r);
     "f_model_proto_index" := FMap (PipelineComponentMeta.f_model_proto_index r);
     "f_run_parameters" := FMap (PipelineComponentMeta.f_run_parameters r);
     "f_archive_sha256" := of_nullable (PipelineComponentMeta.f_archive_sha256 r);
     "f_archive_from_ip" := of_nullable (PipelineComponentMeta.f_archive_from_ip r) ]}.

(** The keys an insert resolves: the insert takes every key of a dict as
    the name of a field of the model, as [save_define_meta_from_file_to_db]
    writes them ([f_model_id], ...); [id] is the primary key. *)
Definition field_names : list string :=
  ["id"; "f_model_id"; "f_model_version"; "f_role"; "f_party_id"; "f_component_name";
   "f_component_module_name"; "f_model_alias"; "f_model_proto_index"; "f_run_parameters";
   "f_archive_sha256"; "f_archive_from_ip"].

(** A key of the dict that names no field, if there is one. *)
Definition unknown_key (d : gmap string field_value) : option string :=
  List.find (fun key => negb (bool_decide (key ∈ field_names)))
    (List.map fst (map_to_list d)).

(** The column [name] in a dict given to an insert: the value under the
    field name [f_<name>]. *)
Definition column (d : gmap string field_value) (name : string) : option field_value :=
  d !! ("f_" +:+ name).

Definition column_str (d : gmap string field_value) (name : string) : result string :=
  match column d name with
  | Some (FStr s) => Ok s
  | _ => Raise (ExternalError ("IntegrityError: " +:+ name))
  end.

Definition column_map (d : gmap string field_value) (name : string)
  : result (gmap string string) :=
  match column d name with
  | Some (FMap m) => Ok m
  | _ => Raise (ExternalError ("IntegrityError: " +:+ name))
  end.

Definition column_nullable (d : gmap string field_value) (name : string)
  : result (option string) :=
  match column d name with
  | Some (FStr s) => Ok (Some s)
  | Some FNull | None => Ok None
  | _ => Raise (ExternalError ("IntegrityError: " +:+ name))
  end.

Definition rbind {A B} (r : result A) (k : A -> result B) : result B :=
  match r with Ok a => k a | Raise e => Raise e end.

(** The row a dict inserts, under the id the table gives it, or the id of
    the dict when it has one.  A key that names no field is an
    [AttributeError] (the key is looked up on the model class). *)
Definition row_of_dict (id : Z) (d : gmap string field_value)
  : result PipelineComponentMeta.t :=
  match unknown_key d with
  | Some key => Raise (AttributeError key)
  | None =>
      rbind (match d !! "id" with
             | None => Ok id
             | Some (FInt n) => Ok n
             | Some _ => Raise (ExternalError "IntegrityError: id")
             end) (fun id =>
      rbind (column_str d "model_id") (fun model_id =>
      rbind (column_str d "model_version") (fun model_version =>
      rbind (column_str d "role") (fun role =>
      rbind (column_str d "party_id") (fun party_id =>
      rbind (column_str d "component_name") (fun component_name =>
      rbind (column_str d "component_module_name") (fun component_module_name =>
      rbind (column_str d "model_alias") (fun model_alias =>
      rbind (column_map d "model_proto_index") (fun model_proto_index =>
      rbind (column_map d "run_parameters") (fun run_parameters =>
      rbind (column_nullable d "archive_sha256") (fun archive_sha256 =>
      rbind (column_nullable d "archive_from_ip") (fun archive_from_ip =>
      Ok (PipelineComponentMeta.Build id model_id model_version role party_id
            component_name component_module_name model_alias model_proto_index
            run_parameters archive_sha256 archive_from_ip)))))))))))))
  end.

(** The next value of the auto-incremented [id]. *)
Definition next_id (table : list PipelineComponentMeta.t) : Z :=
  (1 + fold_right Z.max 0 (List.map PipelineComponentMeta.id table))%Z.

Fixpoint rows_of_dicts (id : Z) (data : list (gmap string field_value))
  : result (list PipelineComponentMeta.t) :=
  match data with
  | [] => Ok []
  | d :: data' =>
      rbind (row_of_dict id d) (fun r =>
      rbind (rows_of_dicts (id + 1) data') (fun rs => Ok (r :: rs)))
  end.

(** Modelled from the spec: [bulk_insert_into_db] ([fate_flow.db.db_utils]) is
    not part of the sources.  Spec section 9 gives the metadata store the
    operation insert([Record]): every dict becomes one new row; the rows
    already in the table are not touched.  When a dict is refused nothing is
    inserted and the exception passes to the caller. *)
Definition bulk_insert_into_db (data : list (gmap string field_value)) : exec state unit :=
  fun s =>
    match rows_of_dicts (next_id (component_metas s)) data with
    | Ok rows => (set_component_metas (fun t => t ++ rows) s, Ok tt)
    | Raise e => (s, Raise e)
    end.

(** *** [class PipelinedComponent] *)

Record t : Type := {
  role : string;
  party_id : string;
  model_id : string;
  party_model_id : string;
  model_version : string;
}.

(** [__init__]: either the three parts of the identity or the party model id
    is given. *)
Definition __init__ (role_ party_id_ model_id_ : string) (party_model_id_ : option string)
    (model_version_ : string) : result t :=
  match party_model_id_ with
  | None =>
      Ok {| role := role_; party_id := party_id_; model_id := model_id_;
            party_model_id := role_ +:+ "#" +:+ party_id_ +:+ "#" +:+ model_id_;
            model_version := model_version_ |}
  | Some pmid =>
      match str_split "#"%char 2 pmid with
      | [r; p; m] =>
          Ok {| role := r; party_id := p; model_id := m; party_model_id := pmid;
                model_version := model_version_ |}
      | _ => Raise (ValueError "not enough values to unpack (expected 3)")
      end
  end.

(** The paths of the cache, below [self.model_path]. *)
Definition define_meta_path : path := ["define"; "define_meta.yaml"].
Definition variables_data_path : path := ["variables"; "data"].
Definition run_parameters_path : path := ["run_parameters"].
Definition checkpoint_path : path := ["checkpoint"].

Definition parent (p : path) : path := removelast p.

(** [self.query_args]. *)
Definition where_ (self : t) (r : PipelineComponentMeta.t) : bool :=
  bool_decide (PipelineComponentMeta.f_model_id r = model_id self) &&
  bool_decide (PipelineComponentMeta.f_model_version r = model_version self) &&
  bool_decide (PipelineComponentMeta.f_role r = role self) &&
  bool_decide (PipelineComponentMeta.f_party_id r = party_id self).

Section PipelinedComponent.

Context {L : Libraries}.

Definition get_define_meta_from_db (self : t) (query_args : PipelineComponentMeta.t -> bool)
  : exec state (list PipelineComponentMeta.t) :=
  let! s := get in
  ret (List.filter (fun r => where_ self r && query_args r) (component_metas s)).

Definition no_filter (r : PipelineComponentMeta.t) : bool := true.

(** [exists].  The three names are joined to the path with [/], which
    splits them at their slashes. *)
Definition exists_ `{Surroundings} (self : t) (component_name : string) : exec state bool :=
  let! query :=
    get_define_meta_from_db self
      (fun r => bool_decide (PipelineComponentMeta.f_component_name r = component_name)) in
  match query with
  | [] => raise (ValueError ("The define_meta data of " +:+ component_name +:+
                             " not found in database."))
  | _ =>
      let! s := get in
      ret (forallb
             (fun row =>
                let variables_data_path :=
                  joinpath (joinpath (Inside variables_data_path)
                              (PipelineComponentMeta.f_component_name row))
                    (PipelineComponentMeta.f_model_alias row) in
                forallb
                  (fun '(model_name, _) =>
                     is_file_at (joinpath variables_data_path model_name) (model_root s))
                  (map_to_list (PipelineComponentMeta.f_model_proto_index row)))
             query)
  end.

Definition get_define_meta_from_file (self : t) : exec state define_meta_t :=
  let! text := read_root (read_bytes define_meta_path) in
  lift (yaml_load text).

(** One step of the loop of [rearrange_define_meta]. *)
Definition rearrange_row (define_meta : define_meta_t) (row : PipelineComponentMeta.t)
  : define_meta_t :=
  let name := PipelineComponentMeta.f_component_name row in
  let component_define' :=
    <[name := ComponentDefine (PipelineComponentMeta.f_component_module_name row)]>
      (component_define define_meta) in
  let model_proto' :=
    match model_proto define_meta !! name with
    | None => <[name := ∅]> (model_proto define_meta)
    | Some _ => model_proto define_meta
    end in
  DefineMeta component_define'
    (alter (fun aliases =>
              <[PipelineComponentMeta.f_model_alias row :=
                  PipelineComponentMeta.f_model_proto_index row]> aliases)
       name model_proto').

Definition rearrange_define_meta (data : list PipelineComponentMeta.t) : define_meta_t :=
  fold_left rearrange_row data (DefineMeta ∅ ∅).

Definition get_define_meta (self : t) : exec state define_meta_t :=
  let! query := get_define_meta_from_db self no_filter in
  match query with
  | [] => get_define_meta_from_file self
  | _ => ret (rearrange_define_meta query)
  end.

Definition save_define_meta (self : t)
    (component_name component_module_name model_alias : string)
    (model_proto_index run_parameters : gmap string string) : exec state unit :=
  modify (set_component_metas (fun table =>
    table ++
    [PipelineComponentMeta.Build (next_id table) (model_id self) (model_version self)
       (role self) (party_id self) component_name component_module_name model_alias
       model_proto_index run_parameters None None])).

Definition get_run_parameters_path (component_name : string) : path :=
  run_parameters_path ++ [component_name; "run_parameters.json"].

(** [row.<name>] for a map-valued attribute.  A row has the fields of the
    model, of which [f_model_proto_index] and [f_run_parameters] hold maps;
    any other name is no attribute of a row. *)
Definition row_getattr (row : PipelineComponentMeta.t) (name : string)
  : result (gmap string string) :=
  if String.eqb name "f_model_proto_index"
  then Ok (PipelineComponentMeta.f_model_proto_index row)
  else if String.eqb name "f_run_parameters"
       then Ok (PipelineComponentMeta.f_run_parameters row)
       else Raise (AttributeError name).

(** The loop of [save_define_meta_from_db_to_file] over the rows.  [open('x')]
    creates the file, empty; what is written to it is [row.run_parameters],
    the attribute the source names (without [f_]). *)
Fixpoint write_run_parameters (query : list PipelineComponentMeta.t) : exec state unit :=
  match query with
  | [] => ret tt
  | row :: query' =>
      let run_parameters_path :=
        get_run_parameters_path (PipelineComponentMeta.f_component_name row) in
      do! on_root (mkdir (parent run_parameters_path)) in
      do! on_root (open_x run_parameters_path []) in
      let! run_parameters := lift (row_getattr row "run_parameters") in
      do! on_root (write_bytes run_parameters_path (json_dumps run_parameters)) in
      write_run_parameters query'
  end.

Definition save_define_meta_from_db_to_file (self : t) : exec state unit :=
  let! query := get_define_meta_from_db self no_filter in
  match query with
  | [] => raise (ValueError "No define_meta data in database.")
  | _ =>
      do! write_run_parameters query in
      do! on_root (mkdir (parent define_meta_path)) in
      on_root (open_x define_meta_path (yaml_dump (rearrange_define_meta query)))
  end.

(** The dict comprehension of [get_run_parameters_from_files] over the
    entries of the run-parameters directory. *)
Fixpoint read_run_parameters (names : list string)
    (acc : gmap string (gmap string string))
  : exec state (gmap string (gmap string string)) :=
  match names with
  | [] => ret acc
  | name :: names' =>
      let! text := read_root (read_bytes (get_run_parameters_path name)) in
      let! value := lift (json_loads text) in
      read_run_parameters names' (<[name := value]> acc)
  end.

Definition get_run_parameters_from_files (self : t)
  : exec state (gmap string (gmap string string)) :=
  let! s := get in
  if negb (is_dir run_parameters_path (model_root s)) then ret ∅
  else
    let! entries := read_root (iterdir run_parameters_path) in
    read_run_parameters (List.map fst entries) ∅.

(** The dict [save_define_meta_from_file_to_db] builds for one alias. *)
Definition row_to_insert (self : t) (component_name : string)
    (component_define_ : component_define_t) (model_alias : string)
    (model_proto_index : gmap string string)
    (run_parameters : gmap string (gmap string string)) : gmap string field_value :=
  {[ "f_model_id" := FStr (model_id self);
     "f_model_version" := FStr (model_version self);
     "f_role" := FStr (role self);
     "f_party_id" := FStr (party_id self);
     "f_component_name" := FStr component_name;
     "f_component_module_name" := FStr (module_name component_define_);
     "f_model_alias" := FStr model_alias;
     "f_model_proto_index" := FMap model_proto_index;
     "f_run_parameters" := FMap (default ∅ (run_parameters !! component_name)) ]}.

(** The two nested loops; [define_meta['model_proto'][component_name]] raises
    [KeyError] for a component without an entry.  The maps of the document
    are unordered here, so the dicts come in the order of the keys, where the
    source follows the order of the document. *)
Fixpoint rows_to_insert (self : t) (define_meta : define_meta_t)
    (run_parameters : gmap string (gmap string string))
    (components : list (string * component_define_t))
  : result (list (gmap string field_value)) :=
  match components with
  | [] => Ok []
  | (component_name, component_define_) :: components' =>
      match model_proto define_meta !! component_name with
      | None => Raise (KeyError component_name)
      | Some aliases =>
          rbind (rows_to_insert self define_meta run_parameters components') (fun more =>
          Ok (List.map (fun '(model_alias, model_proto_index) =>
                          row_to_insert self component_name component_define_
                            model_alias model_proto_index run_parameters)
                (map_to_list aliases) ++ more))
      end
  end.

Definition save_define_meta_from_file_to_db (self : t) : exec state unit :=
  let! s := get in
  let count := length (List.filter (where_ self) (component_metas s)) in
  if Nat.ltb 0 count
  then raise (ValueError "The define_meta data already exists in database.")
  else
    let! define_meta := get_define_meta_from_file self in
    let! run_parameters := get_run_parameters_from_files self in
    let! insert :=
      lift (rows_to_insert self define_meta run_parameters
              (map_to_list (component_define define_meta))) in
    bulk_insert_into_db insert.

(** [key[2:] if key.startswith('f_') else key]. *)
Definition strip_prefix (key : string) : string :=
  match key with
  | String "f"%char (String "_"%char rest) => rest
  | _ => key
  end.

(** The dict comprehension of [replicate_define_meta]. *)
Definition without_prefix (row : gmap string field_value) : gmap string field_value :=
  fold_left (fun acc '(key, value) =>
               if bool_decide (key = "id") then acc else <[strip_prefix key := value]> acc)
    (map_to_list row) ∅.

(** The dict inserted for one row: [update] lets the modification win. *)
Definition replica (modification : gmap string field_value) (row : PipelineComponentMeta.t)
  : gmap string field_value :=
  let row := to_dict row in
  let row := delete "id" row in
  let row := without_prefix row in
  modification ∪ row.

Definition replicate_define_meta (self : t) (modification : gmap string field_value)
    (query_args : option (PipelineComponentMeta.t -> bool)) : exec state unit :=
  match query_args with
  | None => raise (TypeError "argument after * must be an iterable, not NoneType")
  | Some query_args =>
      let! query := get_define_meta_from_db self query_args in
      match query with
      | [] => raise (ValueError "Filtered define_meta data not found.")
      | _ => bulk_insert_into_db (List.map (replica modification) query)
      end
  end.

Definition get_run_parameters (self : t) : exec state (gmap string (gmap string string)) :=
  let! query := get_define_meta_from_db self no_filter in
  match query with
  | [] => get_run_parameters_from_files self
  | _ =>
      ret (fold_left (fun acc row =>
                        <[PipelineComponentMeta.f_component_name row :=
                            PipelineComponentMeta.f_run_parameters row]> acc)
             query ∅)
  end.

(** The name of the archive in [TEMP_DIRECTORY]. *)
Definition get_archive_path (self : t) (component_name : string) : string :=
  party_model_id self +:+ "_" +:+ model_version self +:+ "_" +:+ component_name +:+ ".zip".

(** [walk_component(zip_file, dir_path)]: the members of [zip_file] after the
    walk.  [iterdir] raises when [dir_path] is not a directory; below it every
    file is written under its path relative to the model root. *)
Definition walk_component (zip_file : list (path * bytes)) (dir_path : path) (root : node)
  : result (list (path * bytes)) :=
  match iterdir dir_path root with
  | Ok children => Ok (zip_file ++ walk dir_path (Dir children))
  | Raise e => Raise e
  end.

(** [pack_component].  The archive is created empty when the [ZipFile] is
    opened and holds, when the block is left, the members written so far.
    [self.lock] comes from the base class [Locker], which is not part of the
    sources; taking and releasing it changes nothing of the state here. *)
Definition pack_component (self : t) (component_name : string)
  : exec state (string * string) :=
  let filename := get_archive_path self component_name in
  fun s =>
    let close members := set_temp (fun files => <[filename := zip_write members]> files) s in
    match walk_component [] (variables_data_path ++ [component_name]) (model_root s) with
    | Raise e => (close [], Raise e)
    | Ok zip_file =>
        match walk_component zip_file (checkpoint_path ++ [component_name]) (model_root s) with
        | Raise e => (close zip_file, Raise e)
        | Ok zip_file =>
            match temp (close zip_file) !! filename with
            | Some content => (close zip_file, Ok (filename, sha256_hexdigest content))
            | None => (close zip_file, Raise (FileNotFoundError [filename]))
            end
        end
    end.

Definition hash_mismatch (filename hash_ sha256 : string) : exn :=
  ValueError ("Model archive hash mismatch. path: " +:+ filename +:+
              " expected: " +:+ hash_ +:+ " actual: " +:+ sha256).

Definition read_temp (filename : string) : exec state bytes :=
  let! s := get in
  match temp s !! filename with
  | Some content => ret content
  | None => raise (FileNotFoundError [filename])
  end.

(** [zip_file.extractall(self.model_path)]: the members in order. *)
Fixpoint extractall (members : list (path * bytes)) : exec state unit :=
  match members with
  | [] => ret tt
  | (name, content) :: members' =>
      do! on_root (write_bytes name content) in
      extractall members'
  end.

Definition unpack_component (self : t) (component_name : string) (hash_ : option string)
  : exec state unit :=
  let filename := get_archive_path self component_name in
  do! match hash_ with
      | Some hash_ =>
          let! content := read_temp filename in
          let sha256 := sha256_hexdigest content in
          if bool_decide (hash_ <> sha256)
          then raise (hash_mismatch filename hash_ sha256)
          else ret tt
      | None => ret tt
      end in
  let! content := read_temp filename in
  let! members := lift (zip_read content) in
  extractall members.

End PipelinedComponent.

End pipelined_component.

(** ** Stand-ins for the libraries, to run the model on

    A byte-level archive format in place of zip (a number is written in unary,
    a string and a list with their length in front), a polynomial checksum in
    place of SHA-256, and parsers that read every file as a given document. *)

Module toy.

Import pathlib pipelined_component.

Definition x00 : Byte.byte := Byte.x00.
Definition x01 : Byte.byte := Byte.x01.

Definition enc_nat (n : nat) : bytes := repeat x01 n ++ [x00].
Definition enc_bytes (b : bytes) : bytes := enc_nat (length b) ++ b.
Definition enc_str (s : string) : bytes := enc_bytes (list_byte_of_string s).
Definition enc_list {A} (enc : A -> bytes) (l : list A) : bytes :=
  enc_nat (length l) ++ concat (List.map enc l).
Definition enc_member (m : path * bytes) : bytes :=
  enc_list enc_str (fst m) ++ enc_bytes (snd m).

Fixpoint dec_nat (b : bytes) : option (nat * bytes) :=
  match b with
  | [] => None
  | x :: b' =>
      if Byte.eqb x x00 then Some (0, b')
      else if Byte.eqb x x01
           then match dec_nat b' with
                | Some (n, rest) => Some (S n, rest)
                | None => None
                end
           else None
  end.

Definition dec_bytes (b : bytes) : option (bytes * bytes) :=
  match dec_nat b with
  | Some (n, rest) =>
      if Nat.leb n (length rest) then Some (firstn n rest, skipn n rest) else None
  | None => None
  end.

Definition dec_str (b : bytes) : option (string * bytes) :=
  match dec_bytes b with
  | Some (s, rest) => Some (string_of_list_byte s, rest)
  | None => None
  end.

Fixpoint dec_items {A} (dec : bytes -> option (A * bytes)) (n : nat) (b : bytes)
  : option (list A * bytes) :=
  match n with
  | O => Some ([], b)
  | S n' =>
      match dec b with
      | Some (a, rest) =>
          match dec_items dec n' rest with
          | Some (l, rest') => Some (a :: l, rest')
          | None => None
          end
      | None => None
      end
  end.

Definition dec_list {A} (dec : bytes -> option (A * bytes)) (b : bytes)
  : option (list A * bytes) :=
  match dec_nat b with
  | Some (n, rest) => dec_items dec n rest
  | None => None
  end.

Definition dec_member (b : bytes) : option ((path * bytes) * bytes) :=
  match dec_list dec_str b with
  | Some (p, rest) =>
      match dec_bytes rest with
      | Some (content, rest') => Some ((p, content), rest')
      | None => None
      end
  | None => None
  end.

Definition archive_write (members : list (path * bytes)) : bytes :=
  enc_list enc_member members.

Definition archive_read (b : bytes) : result (list (path * bytes)) :=
  match dec_list dec_member b with
  | Some (members, []) => Ok members
  | _ => Raise BadZipFile
  end.

Definition checksum (b : bytes) : string :=
  pretty (fold_left (fun acc x => ((31 * acc + Byte.to_N x) mod 4294967296)%N) b 7%N).

(** The libraries, with parsers that read the document [doc] and the run
    parameters [params] from every file. *)
Definition libraries (doc : define_meta_t) (params : gmap string string) : Libraries := {|
  sha256_hexdigest := checksum;
  zip_write := archive_write;
  zip_read := archive_read;
  yaml_load _ := Ok doc;
  yaml_dump _ := list_byte_of_string "define_meta";
  json_loads _ := Ok params;
  json_dumps _ := list_byte_of_string "run_parameters";
|}.

Definition no_document : define_meta_t := DefineMeta ∅ ∅.

(** The component of the model guest#9999#m1, version v1. *)
Definition guest : t := {|
  role := "guest"; party_id := "9999"; model_id := "m1";
  party_model_id := "guest#9999#m1"; model_version := "v1";
|}.

Definition text (s : string) : bytes := list_byte_of_string s.

(** A cache with three files under variables/data and one under checkpoint
    for the component feature_engineering (spec section 8, scenario 5). *)
Definition cache : node :=
  Dir [("variables",
        Dir [("data",
              Dir [("feature_engineering",
                    Dir [("a", Dir [("model.pb", File (text "m1")); ("meta.pb", File (text "m2"))] );
                         ("b", Dir [("model.pb", File (text "m3"))])])])]);
       ("checkpoint",
        Dir [("feature_engineering", Dir [("step_1", Dir [("state.pb", File (text "c1"))])])])].

(** A metadata row of that model. *)
Definition meta (id : Z) (component alias : string) (index params : gmap string string)
    (sha ip : option string) : PipelineComponentMeta.t :=
  PipelineComponentMeta.Build id "m1" "v1" "guest" "9999" component "HeteroLR" alias
    index params sha ip.

(** Two documents: in the first the component c has the alias a; the second
    has, besides, a component d without any alias. *)
Definition index_a : gmap string string := {[ "HeteroLRParam" := "HeteroLRParam" ]}.

Definition document : define_meta_t :=
  DefineMeta {[ "c" := ComponentDefine "HeteroLR" ]} {[ "c" := {[ "a" := index_a ]} ]}.

Definition document_without_alias : define_meta_t :=
  DefineMeta {[ "c" := ComponentDefine "HeteroLR"; "d" := ComponentDefine "Evaluation" ]}
             {[ "c" := {[ "a" := index_a ]}; "d" := ∅ ]}.

(** A cache in which the component has no checkpoint directory. *)
Definition cache_without_checkpoint : node :=
  Dir [("variables",
        Dir [("data",
              Dir [("feature_engineering",
                    Dir [("a", Dir [("model.pb", File (text "m1"))])])])])].

(** A cache that holds a define-meta file and nothing else. *)
Definition cache_with_define_meta : node :=
  Dir [("define", Dir [("define_meta.yaml", File (text "old"))])].

End toy.

(** ** The vocabulary of the statements *)

(** The transfers among the calls made so far. *)
Definition is_store (c : sync_model.call) : bool :=
  match c with sync_model.Store _ _ _ => true | _ => false end.


Definition count_calls (p : sync_model.call -> bool) {R} (w : sync_model.world R) : nat :=
  length (List.filter p (sync_model.calls w)).

(** [n'] has every file of [n], with its content, and every directory. *)
Definition extends (n n' : pathlib.node) : Prop :=
  forall q, match pathlib.resolve q n with
            | Some (pathlib.File b) => pathlib.resolve q n' = Some (pathlib.File b)
            | Some (pathlib.Dir _) => pathlib.is_dir q n' = true
            | None => True
            end.

(** The row [save_define_meta_from_file_to_db] inserts for an alias of a
    component. *)
Definition inserted_row (self : pipelined_component.t)
    (run_parameters : gmap string (gmap string string)) (id : Z) (component : string)
    (cd : pipelined_component.component_define_t) (alias : string)
    (index : gmap string string) : PipelineComponentMeta.t :=
  PipelineComponentMeta.Build id
    (pipelined_component.model_id self) (pipelined_component.model_version self)
    (pipelined_component.role self) (pipelined_component.party_id self)
    component (pipelined_component.module_name cd) alias index
    (default ∅ (run_parameters !! component)) None None.

(** A document that lists the same components in both maps and gives each at
    least one alias. *)
Definition every_component_has_an_alias (doc : pipelined_component.define_meta_t) : Prop :=
  dom (pipelined_component.component_define doc) = dom (pipelined_component.model_proto doc) /\
  forall c aliases, pipelined_component.model_proto doc !! c = Some aliases -> aliases <> ∅.

(** The two subtrees of a component, and the paths below them. *)
Definition component_dirs (component_name : string) : list Py.path :=
  [pipelined_component.variables_data_path ++ [component_name];
   pipelined_component.checkpoint_path ++ [component_name]].

Definition of_component (component_name : string) (p : Py.path) : Prop :=
  exists d q, d ∈ component_dirs component_name /\ p = d ++ q.

(** Scenario 5 of the spec on the stand-ins: the archive of
    feature_engineering, packed from [toy.cache], is in the temporary
    directory of a host with an empty model root. *)
Definition packed_files : gmap string pathlib.bytes :=
  pipelined_component.temp
    (fst (pipelined_component.pack_component (L := toy.libraries toy.no_document ∅)
            toy.guest "feature_engineering"
            (pipelined_component.State toy.cache ∅ []))).

Definition packed_archive : pathlib.bytes :=
  default [] (packed_files !! "guest#9999#m1_v1_feature_engineering.zip").

(** ** The vocabulary of the further properties *)

(** A backend on which what has been stored exists. *)
Definition store_then_exists {R} {C : sync_model.Collaborators R} : Prop :=
  forall cls p force_update r r' hash_,
    sync_model.storage_store cls p force_update r = (r', Ok hash_) ->
    sync_model.storage_exists cls p r' = true.

Definition is_component_transfer (c : sync_model.call) : bool :=
  match c with
  | sync_model.ComponentUpload _ _ | sync_model.ComponentDownload _ _ _ => true
  | _ => false
  end.

(** Does the character occur in the string. *)
Fixpoint has_char (c : ascii) (s : string) : bool :=
  match s with
  | EmptyString => false
  | String x s' => Ascii.eqb x c || has_char c s'
  end.


(** The last row of a table that satisfies [p]. *)
Definition last_where (p : PipelineComponentMeta.t -> bool)
    (rows : list PipelineComponentMeta.t) : option PipelineComponentMeta.t :=
  last (List.filter p rows).

(** The content of the last member of an archive that is named [p]. *)
Definition last_member (p : Py.path) (members : list (Py.path * pathlib.bytes))
  : option pathlib.bytes :=
  snd <$> last (List.filter (fun m => bool_decide (fst m = p)) members).

(** A name that [/] keeps below the directory it is joined to: it is not
    absolute and none of its parts is [..]. *)
Definition stays_inside (s : string) : bool :=
  negb (pathlib.is_absolute s) &&
  forallb (fun part => negb (String.eqb part "..")) (pathlib.pure_parts s).

(** * Properties *)

(** ** [get_storage] *)

Section get_storage_properties.

Import sync_model.

Context {R : Type} {C : Collaborators R}.

Lemma deepcopy_fresh (l : loc) (w w' : world R) (l' : loc) (d : dict) :
  objects w !! l = Some d ->
  deepcopy l w = (w', Ok l') ->
  objects w !! l' = None /\ w' = set_objects (fun h => <[l' := d]> h) w.
Proof.
  unfold deepcopy. intros -> [= <- <-]. split; [|done].
  apply not_elem_of_dom, is_fresh.
Qed.

(** The world after [get_storage], whatever its outcome: the objects that
    existed are unchanged and so is everything that is not an object. *)
Lemma get_storage_frame (reg : loc) (sm : gmap string storage_class)
    (w w' : world R) (r : result (storage_class * loc)) :
  get_storage reg sm w = (w', r) ->
  (forall l d, objects w !! l = Some d -> objects w' !! l = Some d) /\
  calls w' = calls w /\ models w' = models w /\
  component_metas w' = component_metas w /\ outside w' = outside w.
Proof.
  unfold get_storage, bind, deepcopy, dict_pop.
  destruct (objects w !! reg) as [d|] eqn:Hreg; simpl.
  - rewrite lookup_insert_eq.
    assert (Hfresh : objects w !! fresh (dom (objects w)) = None)
      by apply not_elem_of_dom, is_fresh.
    destruct (d !! "storage") as [t|] eqn:Ht; simpl.
    + destruct (storage_map_get sm t); intros [= <- <-]; simpl;
        (split; [|done]); intros l d' Hl;
        rewrite !lookup_insert_ne; congruence.
    + intros [= <- <-]; simpl. split; [|done]. intros l d' Hl.
      rewrite lookup_insert_ne; congruence.
  - rewrite Hreg. intros [= <- <-]. done.
Qed.

Lemma get_storage_result (reg : loc) (sm : gmap string storage_class)
    (w : world R) (d : dict) (t : value) :
  objects w !! reg = Some d ->
  d !! "storage" = Some t ->
  let l' := fresh (dom (objects w)) in
  get_storage reg sm w =
    (set_objects (fun h => <[l' := delete "storage" d]> (<[l' := d]> h)) w,
     match storage_map_get sm t with
     | None => Raise (unsupported t)
     | Some cls => Ok (cls, l')
     end).
Proof.
  intros Hreg Ht. unfold get_storage, bind, deepcopy, dict_pop.
  rewrite Hreg. simpl. rewrite lookup_insert_eq, Ht. simpl.
  by destruct (storage_map_get sm t).
Qed.

End get_storage_properties.

(** ** Claim C10: [get_storage] copies the registry and refuses unknown backends *)

Section get_storage_claim.

Import sync_model.

Context {R : Type} {C : Collaborators R}.

Lemma storage_map_get_None (sm : gmap string storage_class) (t : value) :
  (forall name, t = VStr name -> sm !! name = None) -> storage_map_get sm t = None.
Proof. intros Hkeys. destruct t; cbn; eauto. Qed.

Lemma model_storage_map_None (name : string) :
  name <> "mysql" -> name <> "tencent_cos" -> model_storage_map !! name = None.
Proof.
  intros H1 H2. unfold model_storage_map.
  rewrite lookup_insert_ne by done. by rewrite lookup_singleton_ne.
Qed.

(** C10.  Whatever the registry holds, a call of [get_storage] leaves every
    existing dict object, the registry's included, with its items (the
    [storage] key too), and changes nothing else in the world: no backend is
    constructed and no transfer is made by it.  For a registered configuration
    [d] whose backend name is [t]: when [t] is not a string that is a key of
    the storage map, the call raises the [KeyError] "Model storage '...' is
    not supported."; when [t] is a key, the call returns the backend class
    under that key with a fresh dict holding the remaining address fields.
    With a name other than mysql and tencent_cos, the keys of
    [model_storage_map], [SyncModel.__init__] raises before it has called any
    backend. *)
Theorem get_storage_spec (reg : loc) (sm : gmap string storage_class)
    (w w' : world R) (r : result (storage_class * loc)) :
  get_storage reg sm w = (w', r) ->
  (forall l d0, objects w !! l = Some d0 -> objects w' !! l = Some d0) /\
  calls w' = calls w /\ models w' = models w /\
  component_metas w' = component_metas w /\ outside w' = outside w /\
  forall d t,
    objects w !! reg = Some d ->
    d !! "storage" = Some t ->
    objects w' !! reg = Some d /\
    ((forall name, t = VStr name -> sm !! name = None) ->
       r = Raise (KeyError ("Model storage '" +:+ str t +:+ "' is not supported."))) /\
    (forall name cls, t = VStr name -> sm !! name = Some cls ->
       exists l', r = Ok (cls, l') /\ objects w !! l' = None /\
                  objects w' !! l' = Some (delete "storage" d)) /\
    (forall party_model_id model_version,
       (forall name, t = VStr name -> name <> "mysql" /\ name <> "tencent_cos") ->
       let out := SyncModel.__init__ reg party_model_id model_version w in
       is_ok (snd out) = false /\ calls (fst out) = calls w).
Proof.
  intros Hrun.
  destruct (get_storage_frame _ _ _ _ _ Hrun) as (Hobj & Hc & Hm & Hcm & Ho).
  do 5 (split; [done|]).
  intros d t Hreg Ht.
  rewrite (get_storage_result reg sm w d t Hreg Ht) in Hrun.
  injection Hrun as <- <-.
  split; [by apply Hobj|]. split; [|split].
  - intros Hkeys. by rewrite (storage_map_get_None sm t Hkeys).
  - intros name cls -> Hcls. cbn [storage_map_get]. rewrite Hcls.
    eexists. split; [done|]. split.
    + apply not_elem_of_dom, is_fresh.
    + simpl. by rewrite lookup_insert_eq.
  - intros party_model_id model_version Hkeys.
    unfold SyncModel.__init__, bind, lift.
    destruct (new_PipelinedModel _ _); [|done].
    rewrite (get_storage_result reg model_storage_map w d t Hreg Ht).
    rewrite (storage_map_get_None model_storage_map t); [done|].
    intros name Hname. destruct (Hkeys name Hname). by apply model_storage_map_None.
Qed.

End get_storage_claim.

(** The theorem at the toy deployment: a registry that names the [mysql]
    backend, and one that names [hdfs], which no storage map has. *)
Lemma get_storage_spec_witness :
  let hdfs_address : sync_model.dict :=
    {[ "storage" := sync_model.VStr "hdfs"; "name_node" := sync_model.VStr "nn1" ]} in
  let w := example.world0 example.mysql_address [] [] (false, false) in
  let out := sync_model.get_storage example.registry sync_model.model_storage_map w in
  let w2 := example.world0 hdfs_address [] [] (false, false) in
  let out2 := sync_model.get_storage example.registry sync_model.model_storage_map w2 in
  (sync_model.objects (fst out) !! example.registry = Some example.mysql_address /\
   sync_model.calls (fst out) = [] /\
   exists l', snd out = Ok (sync_model.MysqlModelStorage, l')) /\
  (sync_model.objects (fst out2) !! example.registry = Some hdfs_address /\
   snd out2 = Raise (KeyError "Model storage 'hdfs' is not supported.") /\
   is_ok (snd (sync_model.SyncModel.__init__ (C := example.backends) example.registry
                 "guest#9999#m1" "v1" w2)) = false).
Proof.
  intros hdfs_address w out w2 out2. split.
  - destruct (get_storage_spec (C := example.backends) example.registry
                sync_model.model_storage_map w (fst out) (snd out))
      as (_ & Hcalls & _ & _ & _ & Hconf); [apply surjective_pairing|].
    destruct (Hconf example.mysql_address (sync_model.VStr "mysql"))
      as (Hreg & _ & Hok & _); [vm_compute; reflexivity|vm_compute; reflexivity|].
    split; [exact Hreg|]. split; [exact Hcalls|].
    destruct (Hok "mysql" sync_model.MysqlModelStorage) as (l' & Hl' & _);
      [reflexivity|vm_compute; reflexivity|].
    exists l'. exact Hl'.
  - destruct (get_storage_spec (C := example.backends) example.registry
                sync_model.model_storage_map w2 (fst out2) (snd out2))
      as (_ & _ & _ & _ & _ & Hconf); [apply surjective_pairing|].
    destruct (Hconf hdfs_address (sync_model.VStr "hdfs"))
      as (Hreg & Hraise & _ & Hinit); [vm_compute; reflexivity|vm_compute; reflexivity|].
    split; [exact Hreg|]. split.
    + rewrite Hraise; [reflexivity|]. intros name [= <-]. vm_compute. reflexivity.
    + apply (Hinit "guest#9999#m1" "v1"). intros name [= <-]. split; discriminate.
Defined.

(** ** Claims C1 and C2: [SyncModel.upload] and [SyncModel.download] *)

Section SyncModel_properties.

Import sync_model SyncModel.

Context {R : Type} {C : Collaborators R}.
Variable HOST : string.


Lemma same_identity_is_model (self : t) (m : MLModel.t) (h : string) (r : MLModel.t) :
  is_model self m = true ->
  same_identity (with_archive HOST m h) r = is_model self r.
Proof.
  unfold is_model, same_identity. simpl. intros Hm.
  repeat (apply andb_prop in Hm as [Hm ?]).
  repeat match goal with Hb : bool_decide _ = true |- _ =>
    apply bool_decide_eq_true in Hb; rewrite Hb; clear Hb end.
  reflexivity.
Qed.

Lemma find_replace {A} (p : A -> bool) (m' : A) (l : list A) :
  p m' = true ->
  is_Some (List.find p l) ->
  List.find p (List.map (fun r => if p r then m' else r) l) = Some m'.
Proof.
  intros Hm'. induction l as [|a l IH]; simpl.
  - intros [? [=]].
  - destruct (p a) eqn:Ha; simpl.
    + by rewrite Hm'.
    + rewrite Ha. exact IH.
Qed.

Lemma saved_model_found (self : t) (m : MLModel.t) (h : string) (ms : list MLModel.t) :
  List.find (is_model self) ms = Some m ->
  List.find (is_model self)
    (List.map (fun r => if same_identity (with_archive HOST m h) r
                        then with_archive HOST m h else r) ms)
  = Some (with_archive HOST m h).
Proof.
  intros Hfind.
  assert (Hm : is_model self m = true) by (by apply List.find_some in Hfind as [_ ?]).
  rewrite (List.map_ext _ (fun r => if is_model self r then with_archive HOST m h else r)).
  - apply find_replace; [|by rewrite Hfind].
    rewrite <- (same_identity_is_model self m h _ Hm).
    unfold same_identity. simpl. by rewrite !bool_decide_eq_true_2.
  - intros r. by rewrite (same_identity_is_model self m h r Hm).
Qed.



End SyncModel_properties.



(** ** Claim C3: [SyncComponent.get_archive_hash] *)

Section get_archive_hash_properties.

Import sync_model SyncComponent.

Context {R : Type} {C : Collaborators R}.

Lemma group_by_from_keys seen rows k :
  k ∈ List.map group_key (group_by_from seen rows) <->
  k ∈ List.map group_key rows /\ k ∉ seen.
Proof.
  revert seen. induction rows as [|r rows IH]; intros seen; simpl.
  - split; [intros Hk | intros [Hk _]]; by apply elem_of_nil in Hk.
  - case_bool_decide as Hseen; simpl.
    + rewrite IH, elem_of_cons. split.
      * intros [Hk Hn]. split; [by right | done].
      * intros [[->|Hk] Hn]; done.
    + rewrite !elem_of_cons, IH, elem_of_cons.
      destruct (decide (k = group_key r)) as [->|Hne]; [|tauto].
      split; [intros _; split; [by left | done] | intros _; by left].
Qed.

Lemma group_by_from_NoDup seen rows :
  NoDup (List.map group_key (group_by_from seen rows)).
Proof.
  revert seen. induction rows as [|r rows IH]; intros seen; simpl.
  - constructor.
  - case_bool_decide as Hseen; simpl; [apply IH|].
    constructor; [|apply IH].
    rewrite group_by_from_keys, elem_of_cons. intros [_ Hn]. apply Hn. by left.
Qed.

(** Grouping keeps one row for each distinct pair of the rows. *)
Lemma group_by_groups rows :
  NoDup (List.map group_key (group_by rows)) /\
  forall k, k ∈ List.map group_key (group_by rows) <-> k ∈ List.map group_key rows.
Proof.
  split; [apply group_by_from_NoDup|].
  intros k. unfold group_by. rewrite group_by_from_keys.
  split; [by intros [? _] | intros Hk; split; [done | apply not_elem_of_nil]].
Qed.

Lemma group_key_in rows r :
  r ∈ rows -> group_key r ∈ List.map group_key rows.
Proof. intros Hr. by apply list_elem_of_In, List.in_map, list_elem_of_In. Qed.

Lemma group_key_of rows k :
  k ∈ List.map group_key rows -> exists r, r ∈ rows /\ group_key r = k.
Proof.
  intros Hk. apply list_elem_of_In, List.in_map_iff in Hk as (r & Hr & Hin).
  exists r. split; [by apply list_elem_of_In | done].
Qed.

Lemma group_by_single rows k :
  rows <> [] ->
  (forall r, r ∈ rows -> group_key r = k) ->
  exists r, group_by rows = [r] /\ group_key r = k.
Proof.
  intros Hne Hall.
  destruct (group_by_groups rows) as [Hnd Hin].
  assert (Hk : forall r, r ∈ group_by rows -> group_key r = k).
  { intros r Hr. apply group_key_in, Hin, group_key_of in Hr as (r' & Hr' & <-).
    by apply Hall. }
  destruct rows as [|r0 rows]; [done|].
  assert (H0 : k ∈ List.map group_key (group_by (r0 :: rows))).
  { apply Hin. rewrite <- (Hall r0) by apply list_elem_of_here.
    apply group_key_in, list_elem_of_here. }
  destruct (group_by (r0 :: rows)) as [|a [|b l]]; simpl in *.
  - by apply elem_of_nil in H0.
  - exists a. split; [done|]. apply Hk, list_elem_of_here.
  - exfalso. apply NoDup_cons in Hnd as [Hnotin _]. apply Hnotin.
    rewrite (Hk a), <- (Hk b).
    + apply list_elem_of_here.
    + apply list_elem_of_further, list_elem_of_here.
    + apply list_elem_of_here.
Qed.



End get_archive_hash_properties.


(** ** Claim C4: [SyncComponent.__init__] cannot return *)

Section SyncComponent_init.

Import sync_model SyncComponent.

Context {R : Type} {C : Collaborators R}.

(** C4.  For every party model id, version and component name, in every
    state, [SyncComponent.__init__] raises: no instance is ever constructed.
    When the backend is found and its constructor returns, the exception is
    the [AttributeError] of reading [self.pipelined_model], which is assigned
    only later; at that point the single call made is the constructor of the
    backend class taken from [model_storage_map], which is not the class
    [component_storage_map] has under the same name. *)
Theorem SyncComponent_init_raises (reg : loc)
    (party_model_id model_version component_name : string) (w : world R) :
  let out := __init__ reg party_model_id model_version component_name w in
  is_ok (snd out) = false /\
  (forall d name cls,
     objects w !! reg = Some d ->
     d !! "storage" = Some (VStr name) ->
     model_storage_map !! name = Some cls ->
     storage_init cls (delete "storage" d) = Ok tt ->
     snd out = Raise (no_attribute "SyncComponent" "pipelined_model") /\
     calls (fst out) = calls w ++ [Construct cls (delete "storage" d)] /\
     component_storage_map !! name <> Some cls).
Proof.
  intros out. subst out. split.
  - unfold __init__, bind.
    destruct (get_storage reg model_storage_map w) as [w1 [[cls l]|e]]; [|done].
    destruct (kwargs_of l w1) as [w2 [kw|e]]; [|done].
    destruct (construct cls kw w2) as [w3 [inst|e]]; [|done].
    reflexivity.
  - intros d name cls Hreg Ht Hcls Hinit.
    unfold __init__, bind.
    rewrite (get_storage_result reg model_storage_map w d (VStr name) Hreg Ht).
    simpl. rewrite Hcls.
    unfold kwargs_of, construct, log, bind, get, ret, raise, modify, lift. simpl.
    rewrite lookup_insert_eq. simpl. rewrite Hinit. simpl.
    split_and!; try done.
    unfold model_storage_map, component_storage_map in *.
    destruct (decide (name = "mysql")) as [->|]; [by simplify_map_eq|].
    destruct (decide (name = "tencent_cos")) as [->|]; by simplify_map_eq.
Qed.

End SyncComponent_init.

(** At the toy deployment the constructor of [MysqlModelStorage] is called
    and then the attribute is missing. *)
Lemma SyncComponent_init_raises_witness :
  let w := example.world0 example.mysql_address [] [] (false, false) in
  snd (sync_model.SyncComponent.__init__ (C := example.backends) example.registry
         "guest#9999#m1" "v1" "c" w)
  = Raise (AttributeError "'SyncComponent' object has no attribute 'pipelined_model'").
Proof.
  intros w.
  destruct (SyncComponent_init_raises (C := example.backends) example.registry
              "guest#9999#m1" "v1" "c" w) as [_ Hattr].
  destruct (Hattr example.mysql_address "mysql" sync_model.MysqlModelStorage)
    as (Hres & _).
  - vm_compute. reflexivity.
  - vm_compute. reflexivity.
  - vm_compute. reflexivity.
  - reflexivity.
  - exact Hres.
Defined.

(** ** [unpack_component]: the hash check *)

Section unpack_component_properties.

Import pathlib pipelined_component.

Context {L : Libraries}.

Lemma on_root_frame (op : node -> result node) (s : state) :
  temp (fst (on_root op s)) = temp s /\
  component_metas (fst (on_root op s)) = component_metas s.
Proof. unfold on_root. by destruct (op (model_root s)). Qed.

(** Extraction writes below the model root only. *)
Lemma extractall_frame (members : list (path * bytes)) (s : state) :
  temp (fst (extractall members s)) = temp s /\
  component_metas (fst (extractall members s)) = component_metas s.
Proof.
  revert s. induction members as [|[name content] members IH]; intros s; simpl.
  - done.
  - unfold bind. pose proof (on_root_frame (write_bytes name content) s) as [Ht Hc].
    destruct (on_root (write_bytes name content) s) as [s1 [[]|e]]; simpl in *.
    + destruct (IH s1) as [-> ->]. done.
    + done.
Qed.

(** With the right hash, or none, [unpack_component] is the extraction of the
    archive's members. *)
Lemma unpack_component_accepts (self : t) (component_name : string) (hash_ : option string)
    (s : state) (content : bytes) :
  temp s !! get_archive_path self component_name = Some content ->
  hash_ = None \/ hash_ = Some (sha256_hexdigest content) ->
  unpack_component self component_name hash_ s =
    match zip_read content with
    | Ok members => extractall members s
    | Raise e => (s, Raise e)
    end.
Proof.
  intros Harchive [->| ->];
    unfold unpack_component, read_temp, bind, get, ret, raise, lift; simpl;
    rewrite Harchive; simpl.
  - by destruct (zip_read content).
  - rewrite bool_decide_eq_false_2 by (intros Hne; by apply Hne).
    simpl. rewrite Harchive. by destruct (zip_read content).
Qed.

End unpack_component_properties.

(** ** The file system: what the operations keep *)

Section pathlib_properties.

Import pathlib.

Lemma child_set_child_eq x c c' cs :
  child x cs = Some c -> child x (set_child x c' cs) = Some c'.
Proof.
  induction cs as [|[y d] cs IH]; simpl; [done|].
  destruct (String.eqb y x) eqn:E; simpl; rewrite E; [done | exact IH].
Qed.

Lemma child_set_child_ne x y c' cs :
  x <> y -> child y (set_child x c' cs) = child y cs.
Proof.
  intros Hne. induction cs as [|[z d] cs IH]; simpl; [done|].
  destruct (String.eqb z x) eqn:E; simpl.
  - apply String.eqb_eq in E as ->.
    by rewrite (proj2 (String.eqb_neq x y) Hne).
  - by rewrite IH.
Qed.

Lemma child_app_Some y c cs l :
  child y cs = Some c -> child y (cs ++ l) = Some c.
Proof.
  induction cs as [|[z d] cs IH]; simpl; [done|].
  by destruct (String.eqb z y).
Qed.

Lemma child_app_None y cs x c :
  child y cs = None ->
  child y (cs ++ [(x, c)]) = if String.eqb x y then Some c else None.
Proof.
  induction cs as [|[z d] cs IH]; simpl; [done|].
  by destruct (String.eqb z y).
Qed.

Lemma extends_refl n : extends n n.
Proof.
  intros q. unfold is_dir. destruct (resolve q n) as [[b|cs]|] eqn:E; by rewrite ?E.
Qed.

Lemma extends_trans n1 n2 n3 : extends n1 n2 -> extends n2 n3 -> extends n1 n3.
Proof.
  intros H12 H23 q. specialize (H12 q). specialize (H23 q). unfold is_dir in *.
  destruct (resolve q n1) as [[b|cs]|]; [| |done].
  - by rewrite H12 in H23.
  - destruct (resolve q n2) as [[b|cs2]|]; done.
Qed.

Lemma extends_exists n n' q : extends n n' -> path_exists q n = true -> path_exists q n' = true.
Proof.
  intros H Hq. specialize (H q). unfold path_exists, is_dir in *.
  destruct (resolve q n) as [[b|cs]|]; [| |done].
  - by rewrite H.
  - by destruct (resolve q n') as [[]|].
Qed.

Lemma extends_get_file n n' q b : extends n n' -> get_file n q = Some b -> get_file n' q = Some b.
Proof.
  intros H Hq. specialize (H q). unfold get_file in *.
  destruct (resolve q n) as [[b0|cs]|]; [|done|done].
  by rewrite H.
Qed.

Lemma extends_set_child x c c' cs :
  child x cs = Some c -> extends c c' -> extends (Dir cs) (Dir (set_child x c' cs)).
Proof.
  intros Hx Hext [|y q]; simpl; [done|].
  destruct (decide (x = y)) as [<-|Hne].
  - rewrite Hx, (child_set_child_eq x c c' cs Hx). specialize (Hext q).
    unfold is_dir in *. simpl. by rewrite (child_set_child_eq x c c' cs Hx).
  - unfold is_dir. simpl. rewrite (child_set_child_ne x y c' cs Hne).
    destruct (child y cs) as [d|]; [|done]. apply extends_refl.
Qed.

Lemma extends_app x c cs :
  child x cs = None -> extends (Dir cs) (Dir (cs ++ [(x, c)])).
Proof.
  intros Hx [|y q]; simpl; [done|]. unfold is_dir. simpl.
  destruct (child y cs) as [d|] eqn:Hy; [|done].
  rewrite (child_app_Some y d cs _ Hy). apply extends_refl.
Qed.

Lemma mkdir_at_extends full p n n' : mkdir_at full p n = Ok n' -> extends n n'.
Proof.
  revert n n'. induction p as [|x p IH]; intros [b|cs] n'; simpl; try done.
  - intros [= <-]. apply extends_refl.
  - destruct (child x cs) as [c|] eqn:Hx.
    + destruct (mkdir_at full p c) as [c'|e] eqn:Hc; [|done].
      intros [= <-]. eapply extends_set_child; eauto.
    + intros [= <-]. by apply extends_app.
Qed.

Lemma create_at_extends full p b n n' : create_at full p b n = Ok n' -> extends n n'.
Proof.
  revert n n'. induction p as [|x p IH]; intros [b0|cs] n'; simpl; try done.
  destruct (child x cs) as [c|] eqn:Hx.
  - destruct (create_at full p b c) as [c'|e] eqn:Hc; [|done].
    intros [= <-]. eapply extends_set_child; eauto.
  - destruct p; [|done]. intros [= <-]. by apply extends_app.
Qed.

(** Exclusive creation refuses a path that exists. *)
Lemma create_at_exists full p b n :
  path_exists p n = true -> is_ok (create_at full p b n) = false.
Proof.
  revert n. induction p as [|x p IH]; intros [b0|cs]; simpl; try done.
  unfold path_exists. simpl. destruct (child x cs) as [c|]; [|done].
  intros Hc. specialize (IH c). unfold path_exists in IH. specialize (IH Hc).
  by destruct (create_at full p b c).
Qed.

End pathlib_properties.

(** ** Claim C8: the two migrations *)

Section migrations.

Import pathlib pipelined_component.

Context {L : Libraries}.

Lemma on_root_extends (op : node -> result node) (s : state) :
  (forall n n', op n = Ok n' -> extends n n') ->
  extends (model_root s) (model_root (fst (on_root op s))).
Proof.
  intros Hop. unfold on_root.
  destruct (op (model_root s)) as [n'|e] eqn:E; simpl; [by apply Hop | apply extends_refl].
Qed.

Lemma row_getattr_run_parameters (row : PipelineComponentMeta.t) :
  row_getattr row "run_parameters" = Raise (AttributeError "run_parameters").
Proof. reflexivity. Qed.

(** The loop over the rows only adds to the cache, and with a row it stops
    with an exception. *)
Lemma write_run_parameters_extends (query : list PipelineComponentMeta.t) (s : state) :
  let out := write_run_parameters query s in
  extends (model_root s) (model_root (fst out)) /\
  temp (fst out) = temp s /\ component_metas (fst out) = component_metas s /\
  (query <> [] -> is_ok (snd out) = false).
Proof.
  destruct query as [|row query].
  - simpl. split_and!; try done. apply extends_refl.
  - cbn [write_run_parameters].
    set (p := get_run_parameters_path (PipelineComponentMeta.f_component_name row)).
    unfold bind.
    pose proof (on_root_extends (mkdir (parent p)) s
                  (fun n n' => mkdir_at_extends _ _ n n')) as Hmk.
    pose proof (on_root_frame (mkdir (parent p)) s) as [Ht1 Hc1].
    destruct (on_root (mkdir (parent p)) s) as [s1 [[]|e]] eqn:E1; cbn [fst snd] in *;
      [|split_and!; done].
    pose proof (on_root_extends (open_x p []) s1
                  (fun n n' => create_at_extends _ _ _ n n')) as Hop.
    pose proof (on_root_frame (open_x p []) s1) as [Ht2 Hc2].
    destruct (on_root (open_x p []) s1) as [s2 [[]|e]] eqn:E2; cbn [fst snd] in *.
    + unfold lift. rewrite row_getattr_run_parameters. cbn [fst snd].
      split_and!; try done; [eauto using extends_trans | congruence | congruence].
    + split_and!; try done; [eauto using extends_trans | congruence | congruence].
Qed.

Lemma get_define_meta_from_db_all (self : t) (s : state) :
  get_define_meta_from_db self no_filter s =
    (s, Ok (List.filter (where_ self) (component_metas s))).
Proof.
  unfold get_define_meta_from_db, bind, get, ret. simpl. do 2 f_equal.
  apply List.filter_ext. intros r. unfold no_filter. apply andb_true_r.
Qed.

(** C8, amended.  [save_define_meta_from_file_to_db] raises "already exists"
    and leaves the state as it was when a row of the identity exists.
    [save_define_meta_from_db_to_file] raises "No define_meta data" and leaves
    the state as it was when no row exists; with rows, it never changes an
    existing file (every file keeps its content, whatever the outcome, and
    nothing outside the cache changes), and it raises when the define-meta
    file or the run-parameters file of one of the rows is already there. *)
Theorem migrations_refuse (self : t) (s : state) :
  let rows := List.filter (where_ self) (component_metas s) in
  let out := save_define_meta_from_db_to_file self s in
  (rows <> [] ->
     save_define_meta_from_file_to_db self s =
       (s, Raise (ValueError "The define_meta data already exists in database."))) /\
  (rows = [] -> out = (s, Raise (ValueError "No define_meta data in database."))) /\
  (forall p b, get_file (model_root s) p = Some b ->
               get_file (model_root (fst out)) p = Some b) /\
  temp (fst out) = temp s /\ component_metas (fst out) = component_metas s /\
  (rows <> [] -> path_exists define_meta_path (model_root s) = true ->
     is_ok (snd out) = false) /\
  (forall row, row ∈ rows ->
     path_exists (get_run_parameters_path (PipelineComponentMeta.f_component_name row))
       (model_root s) = true ->
     is_ok (snd out) = false).
Proof.
  intros rows out.
  assert (Hout : out =
            match rows with
            | [] => (s, Raise (ValueError "No define_meta data in database."))
            | _ =>
                bind (write_run_parameters rows) (fun _ =>
                bind (on_root (mkdir (parent define_meta_path))) (fun _ =>
                on_root (open_x define_meta_path (yaml_dump (rearrange_define_meta rows))))) s
            end).
  { subst out. unfold save_define_meta_from_db_to_file, bind at 1.
    rewrite get_define_meta_from_db_all. fold rows. by destruct rows. }
  assert (Hgen : extends (model_root s) (model_root (fst out)) /\
                 temp (fst out) = temp s /\ component_metas (fst out) = component_metas s /\
                 (rows <> [] -> path_exists define_meta_path (model_root s) = true ->
                  is_ok (snd out) = false) /\
                 (forall row, row ∈ rows ->
                    path_exists
                      (get_run_parameters_path (PipelineComponentMeta.f_component_name row))
                      (model_root s) = true ->
                    is_ok (snd out) = false)).
  { rewrite Hout. destruct rows as [|r0 rows'] eqn:Hrows.
    { simpl. split_and!; try done; try apply extends_refl.
      all: intros row Hrow; by apply elem_of_nil in Hrow. }
    rewrite <- Hrows. clear Hout. unfold bind.
    destruct (write_run_parameters_extends rows s) as (Hext & Ht & Hc & Hfail).
    assert (Hne : rows <> []) by (by rewrite Hrows).
    specialize (Hfail Hne).
    destruct (write_run_parameters rows s) as [s1 [[]|e]] eqn:E1; cbn [fst snd] in *;
      [discriminate Hfail|].
    split_and!; done. }
  destruct Hgen as (Hext & Ht & Hc & Hdm & Hrp).
  split_and!; try done.
  - intros Hne. unfold save_define_meta_from_file_to_db, bind, get, raise. simpl.
    fold rows. destruct rows; [done|]. reflexivity.
  - intros Hnil. rewrite Hout, Hnil. reflexivity.
  - intros p b. by apply extends_get_file.
Qed.

End migrations.

(** C8, as stated, fails: with one row in the table and a define-meta file
    already in the cache - a populated destination -
    [save_define_meta_from_db_to_file] does not fail before it writes: by the
    time it raises it has created the run-parameters file of the row. *)
Lemma migration_writes_before_failing :
  let s := pipelined_component.State toy.cache_with_define_meta ∅
             [toy.meta 1 "c" "a" ∅ ∅ None None] in
  let out := pipelined_component.save_define_meta_from_db_to_file
               (L := toy.libraries toy.no_document ∅) toy.guest s in
  pathlib.path_exists pipelined_component.define_meta_path
    (pipelined_component.model_root s) = true /\
  snd out = Raise (AttributeError "run_parameters") /\
  pathlib.get_file (pipelined_component.model_root s)
    ["run_parameters"; "c"; "run_parameters.json"] = None /\
  pathlib.get_file (pipelined_component.model_root (fst out))
    ["run_parameters"; "c"; "run_parameters.json"] = Some [].
Proof. vm_compute. repeat split. Qed.

(** The amended claim at the same state: the migration fails and the old
    define-meta file keeps its content. *)
Lemma migrations_refuse_witness :
  let s := pipelined_component.State toy.cache_with_define_meta ∅
             [toy.meta 1 "c" "a" ∅ ∅ None None] in
  let out := pipelined_component.save_define_meta_from_db_to_file
               (L := toy.libraries toy.no_document ∅) toy.guest s in
  is_ok (snd out) = false /\
  pathlib.get_file (pipelined_component.model_root (fst out))
    pipelined_component.define_meta_path = Some (toy.text "old").
Proof.
  intros s out.
  destruct (migrations_refuse (L := toy.libraries toy.no_document ∅) toy.guest s)
    as (_ & _ & Hkeep & _ & _ & Hfail & _).
  split.
  - apply Hfail; [vm_compute; discriminate | vm_compute; reflexivity].
  - apply Hkeep. vm_compute. reflexivity.
Defined.

(** ** Claim C9: [replicate_define_meta] *)

(** Membership in a list of literals. *)
Ltac in_list := repeat first [apply list_elem_of_here | apply list_elem_of_further].

Section replicate.

Import pathlib pipelined_component.

Context {L : Libraries}.

(** The dict of a row after [del row['id']] and the comprehension. *)
Lemma without_prefix_to_dict (r : PipelineComponentMeta.t) :
  without_prefix (delete "id" (to_dict r)) =
  {[ "model_id" := FStr (PipelineComponentMeta.f_model_id r);
     "model_version" := FStr (PipelineComponentMeta.f_model_version r);
     "role" := FStr (PipelineComponentMeta.f_role r);
     "party_id" := FStr (PipelineComponentMeta.f_party_id r);
     "component_name" := FStr (PipelineComponentMeta.f_component_name r);
     "component_module_name" := FStr (PipelineComponentMeta.f_component_module_name r);
     "model_alias" := FStr (PipelineComponentMeta.f_model_alias r);
     "model_proto_index" := FMap (PipelineComponentMeta.f_model_proto_index r);
     "run_parameters" := FMap (PipelineComponentMeta.f_run_parameters r);
     "archive_sha256" := of_nullable (PipelineComponentMeta.f_archive_sha256 r);
     "archive_from_ip" := of_nullable (PipelineComponentMeta.f_archive_from_ip r) ]}.
Proof. destruct r. vm_compute. reflexivity. Qed.

(** Whatever the modification, the dict of a replica has the key
    [model_id]. *)
Lemma replica_model_id (modification : gmap string field_value)
    (r : PipelineComponentMeta.t) :
  is_Some (replica modification r !! "model_id").
Proof.
  unfold replica. rewrite without_prefix_to_dict, lookup_union.
  destruct (modification !! "model_id") as [v|]; destruct r; vm_compute; eauto.
Qed.

Lemma unknown_key_Some (d : gmap string field_value) (k : string) :
  is_Some (d !! k) -> k ∉ field_names ->
  exists key, unknown_key d = Some key /\ key ∉ field_names.
Proof.
  intros [v Hk] Hnot. unfold unknown_key.
  destruct (List.find _ _) as [key|] eqn:E.
  - exists key. split; [reflexivity|]. apply List.find_some in E as [_ E].
    apply negb_true_iff, bool_decide_eq_false in E. exact E.
  - exfalso. assert (Hin : In k (List.map fst (map_to_list d))).
    { apply List.in_map_iff. exists (k, v). split; [reflexivity|].
      by apply list_elem_of_In, elem_of_map_to_list. }
    pose proof (List.find_none _ _ E k Hin) as Hf.
    apply negb_false_iff, bool_decide_eq_true in Hf. by apply Hnot.
Qed.

(** The dict of a replica has the key [model_id], which names no field: the
    insert refuses it. *)
Lemma row_of_replica (id : Z) (modification : gmap string field_value)
    (r : PipelineComponentMeta.t) :
  exists key, row_of_dict id (replica modification r) = Raise (AttributeError key) /\
              key ∉ field_names.
Proof.
  destruct (unknown_key_Some (replica modification r) "model_id") as (key & Hkey & Hnot).
  - apply replica_model_id.
  - intros Hin. apply list_elem_of_In in Hin. cbn in Hin.
    repeat (destruct Hin as [Hin|Hin]; [discriminate Hin|]). exact Hin.
  - exists key. unfold row_of_dict. by rewrite Hkey.
Qed.

Lemma rows_of_replicas (id : Z) (modification : gmap string field_value)
    (query : list PipelineComponentMeta.t) :
  query <> [] ->
  exists key, rows_of_dicts id (List.map (replica modification) query)
              = Raise (AttributeError key) /\ key ∉ field_names.
Proof.
  destruct query as [|r query]; [done|]. intros _.
  destruct (row_of_replica id modification r) as (key & Hrow & Hnot).
  exists key. cbn [List.map rows_of_dicts]. by rewrite Hrow.
Qed.

(** C9.  [replicate_define_meta] never inserts a row and never changes
    the state.  Called without [query_args] (the default, [None]) it raises
    [TypeError]; with a filter that no row of the identity matches it raises
    "Filtered define_meta data not found."; with matching rows, whatever the
    modification, the dicts it hands to the insert carry the keys of the row
    without their [f_] prefix, which name no field of the model, so the
    insert raises [AttributeError] and nothing is inserted. *)
Theorem replicate_define_meta_spec (self : t) (modification : gmap string field_value)
    (query_args : option (PipelineComponentMeta.t -> bool)) (s : state) :
  let out := replicate_define_meta self modification query_args s in
  fst out = s /\
  match query_args with
  | None => exists msg, snd out = Raise (TypeError msg)
  | Some filter_ =>
      let query := List.filter (fun r => where_ self r && filter_ r) (component_metas s) in
      (query = [] -> snd out = Raise (ValueError "Filtered define_meta data not found.")) /\
      (query <> [] ->
       exists key, snd out = Raise (AttributeError key) /\ key ∉ field_names)
  end.
Proof.
  intros out. subst out. destruct query_args as [filter_|]; [|split; [reflexivity|by eexists]].
  unfold replicate_define_meta, get_define_meta_from_db, bind, get, ret, raise. simpl.
  set (query := List.filter (fun r => where_ self r && filter_ r) (component_metas s)).
  destruct query as [|r0 query'] eqn:Hquery.
  { split; [reflexivity|]. split; [reflexivity|]. intros Hne. by destruct Hne. }
  rewrite <- Hquery. unfold bulk_insert_into_db.
  destruct (rows_of_replicas (next_id (component_metas s)) modification query)
    as (key & Hrows & Hnot); [by rewrite Hquery|].
  rewrite Hrows. split; [reflexivity|]. split; [intros Hnil; by rewrite Hnil in Hquery|].
  intros _. by exists key.
Qed.

End replicate.

(** [replicate_define_meta] with the modification of the spec's example,
    party_id := P2, and no further filter, on a table with one row of the
    identity: the insert raises and the table has the one row it had. *)
Lemma replicate_define_meta_spec_witness :
  let s := pipelined_component.State (pathlib.Dir []) ∅
             [toy.meta 1 "c" "a" ∅ ∅ (Some "abc") (Some "hostA")] in
  let modification : gmap string pipelined_component.field_value :=
    {[ "party_id" := pipelined_component.FStr "P2" ]} in
  let out := pipelined_component.replicate_define_meta toy.guest modification
               (Some pipelined_component.no_filter) s in
  (exists key, snd out = Raise (AttributeError key)) /\
  pipelined_component.component_metas (fst out) =
    [toy.meta 1 "c" "a" ∅ ∅ (Some "abc") (Some "hostA")].
Proof.
  intros s modification out.
  destruct (replicate_define_meta_spec toy.guest modification
              (Some pipelined_component.no_filter) s) as (Hstate & _ & Hraise).
  fold out in Hstate, Hraise. split.
  - destruct Hraise as (key & Hkey & _); [vm_compute; discriminate|]. by exists key.
  - by rewrite Hstate.
Defined.

(** ** Claim C7: the two representations of the define-meta *)

Section define_meta.

Import pathlib pipelined_component.

Context {L : Libraries}.

Lemma rearrange_define_meta_snoc rows r :
  rearrange_define_meta (rows ++ [r]) = rearrange_row (rearrange_define_meta rows) r.
Proof. unfold rearrange_define_meta. by rewrite fold_left_app. Qed.

Lemma rearrange_row_component_define dm r c :
  component_define (rearrange_row dm r) !! c =
    if decide (PipelineComponentMeta.f_component_name r = c)
    then Some (ComponentDefine (PipelineComponentMeta.f_component_module_name r))
    else component_define dm !! c.
Proof. unfold rearrange_row. simpl. by rewrite lookup_insert. Qed.

Lemma rearrange_row_model_proto dm r c :
  model_proto (rearrange_row dm r) !! c =
    if decide (PipelineComponentMeta.f_component_name r = c)
    then Some (<[PipelineComponentMeta.f_model_alias r :=
                   PipelineComponentMeta.f_model_proto_index r]>
                 (default ∅ (model_proto dm !! c)))
    else model_proto dm !! c.
Proof.
  unfold rearrange_row. simpl. rewrite lookup_alter.
  destruct (decide (PipelineComponentMeta.f_component_name r = c)) as [<-|Hne].
  - destruct (model_proto dm !! _) as [am|] eqn:E; simpl.
    + by rewrite E.
    + by rewrite lookup_insert_eq.
  - destruct (model_proto dm !! PipelineComponentMeta.f_component_name r); [done|].
    by rewrite lookup_insert_ne.
Qed.

(** Whatever the rearranged document holds comes from a row. *)
Lemma rearrange_sound rows :
  (forall c x, component_define (rearrange_define_meta rows) !! c = Some x ->
     exists r, r ∈ rows /\ PipelineComponentMeta.f_component_name r = c /\
               x = ComponentDefine (PipelineComponentMeta.f_component_module_name r)) /\
  (forall c am, model_proto (rearrange_define_meta rows) !! c = Some am ->
     (exists r, r ∈ rows /\ PipelineComponentMeta.f_component_name r = c) /\
     forall a idx, am !! a = Some idx ->
       exists r, r ∈ rows /\ PipelineComponentMeta.f_component_name r = c /\
                 PipelineComponentMeta.f_model_alias r = a /\
                 PipelineComponentMeta.f_model_proto_index r = idx).
Proof.
  induction rows as [|r rows [IH1 IH2]] using rev_ind.
  - split; intros c x Hx; unfold rearrange_define_meta in Hx; simpl in Hx;
      by rewrite lookup_empty in Hx.
  - rewrite rearrange_define_meta_snoc. split.
    + intros c x. rewrite rearrange_row_component_define.
      case_decide as Hc.
      * intros [= <-]. exists r. split; [|done]. apply elem_of_app. right. in_list.
      * intros Hx. destruct (IH1 c x Hx) as (r' & Hr' & ?).
        exists r'. split; [|done]. apply elem_of_app. by left.
    + intros c am. rewrite rearrange_row_model_proto.
      case_decide as Hc.
      * intros [= <-]. split.
        { exists r. split; [|done]. apply elem_of_app. right. in_list. }
        intros a idx. rewrite lookup_insert. case_decide as Ha.
        -- intros [= <-]. exists r. split; [|done]. apply elem_of_app. right. in_list.
        -- destruct (model_proto (rearrange_define_meta rows) !! c) as [am0|] eqn:E;
             simpl; [|by rewrite lookup_empty].
           intros Hidx. destruct (IH2 c am0 E) as [_ Hall].
           destruct (Hall a idx Hidx) as (r' & Hr' & ?).
           exists r'. split; [|done]. apply elem_of_app. by left.
      * intros Ham. destruct (IH2 c am Ham) as [(r' & Hr' & ?) Hall]. split.
        { exists r'. split; [|done]. apply elem_of_app. by left. }
        intros a idx Hidx. destruct (Hall a idx Hidx) as (r'' & Hr'' & ?).
        exists r''. split; [|done]. apply elem_of_app. by left.
Qed.

(** Every row is in the rearranged document. *)
Lemma rearrange_complete rows r :
  r ∈ rows ->
  is_Some (component_define (rearrange_define_meta rows)
             !! PipelineComponentMeta.f_component_name r) /\
  exists am, model_proto (rearrange_define_meta rows)
               !! PipelineComponentMeta.f_component_name r = Some am /\
             is_Some (am !! PipelineComponentMeta.f_model_alias r).
Proof.
  induction rows as [|r0 rows IH] using rev_ind.
  - intros Hr. by apply elem_of_nil in Hr.
  - rewrite rearrange_define_meta_snoc, rearrange_row_component_define,
      rearrange_row_model_proto.
    intros Hr. apply elem_of_app in Hr as [Hr|Hr].
    + destruct (IH Hr) as (Hcd & am & Ham & Ha).
      case_decide as Hc; [|eauto]. split; [done|].
      eexists. split; [done|]. rewrite Ham. simpl. rewrite lookup_insert.
      case_decide; [done | exact Ha].
    + apply list_elem_of_singleton in Hr as ->.
      rewrite !decide_True by done. split; [done|].
      eexists. split; [done|]. by rewrite lookup_insert_eq.
Qed.

Lemma row_of_dict_row_to_insert id self rp c cd a idx :
  row_of_dict id (row_to_insert self c cd a idx rp) = Ok (inserted_row self rp id c cd a idx).
Proof. destruct self, cd. vm_compute. reflexivity. Qed.

Lemma rows_to_insert_spec self doc rp comps :
  (forall c cd, (c, cd) ∈ comps -> is_Some (model_proto doc !! c)) ->
  exists dicts,
    rows_to_insert self doc rp comps = Ok dicts /\
    forall d, d ∈ dicts <->
      exists c cd am a idx,
        (c, cd) ∈ comps /\ model_proto doc !! c = Some am /\ am !! a = Some idx /\
        d = row_to_insert self c cd a idx rp.
Proof.
  induction comps as [|[c cd] comps IH]; intros Hdom; simpl.
  - exists []. split; [done|]. intros d. split.
    + intros Hd. by apply elem_of_nil in Hd.
    + intros (? & ? & ? & ? & ? & Hin & _). by apply elem_of_nil in Hin.
  - destruct (Hdom c cd) as [am Ham]; [apply list_elem_of_here|].
    destruct IH as (more & Hmore & Hin).
    { intros c' cd' Hc'. apply (Hdom c' cd'). by apply list_elem_of_further. }
    rewrite Ham, Hmore. simpl. eexists. split; [done|].
    intros d. rewrite elem_of_app, Hin. split.
    + intros [Hd|(c' & cd' & am' & a & idx & Hc' & ?)].
      * apply list_elem_of_In, List.in_map_iff in Hd as ([a idx] & <- & Hd).
        apply list_elem_of_In, elem_of_map_to_list in Hd.
        exists c, cd, am, a, idx. split; [apply list_elem_of_here | done].
      * exists c', cd', am', a, idx. split; [by apply list_elem_of_further | done].
    + intros (c' & cd' & am' & a & idx & Hc' & Ham' & Hidx & ->).
      apply elem_of_cons in Hc' as [[= -> ->]|Hc'].
      * left. rewrite Ham in Ham'. injection Ham' as <-.
        apply list_elem_of_In, List.in_map_iff. exists (a, idx). split; [done|].
        by apply list_elem_of_In, elem_of_map_to_list.
      * right. exists c', cd', am', a, idx. done.
Qed.

Lemma rows_of_dicts_inserted self rp (id : Z) (dicts : list (gmap string field_value)) :
  (forall d, d ∈ dicts -> exists c cd a idx, d = row_to_insert self c cd a idx rp) ->
  exists rows,
    rows_of_dicts id dicts = Ok rows /\
    (forall r, r ∈ rows ->
       exists id' c cd a idx, row_to_insert self c cd a idx rp ∈ dicts /\
                              r = inserted_row self rp id' c cd a idx) /\
    (forall c cd a idx, row_to_insert self c cd a idx rp ∈ dicts ->
       exists id', inserted_row self rp id' c cd a idx ∈ rows).
Proof.
  revert id. induction dicts as [|d dicts IH]; intros id Hall; simpl.
  - exists []. split; [done|]. split.
    + intros r Hr. by apply elem_of_nil in Hr.
    + intros c cd a idx Hin. by apply elem_of_nil in Hin.
  - destruct (Hall d) as (c & cd & a & idx & ->); [apply list_elem_of_here|].
    destruct (IH (id + 1)%Z) as (rows & Hrows & Hsound & Hcomplete).
    { intros d' Hd'. apply Hall. by apply list_elem_of_further. }
    unfold rbind. rewrite row_of_dict_row_to_insert, Hrows. eexists. split; [done|]. split.
    + intros r Hr. apply elem_of_cons in Hr as [->|Hr].
      * exists id, c, cd, a, idx. split; [apply list_elem_of_here | done].
      * destruct (Hsound r Hr) as (id' & c' & cd' & a' & idx' & Hin & ->).
        exists id', c', cd', a', idx'. split; [by apply list_elem_of_further | done].
    + intros c' cd' a' idx' Hin. apply elem_of_cons in Hin as [Heq|Hin].
      * exists id.
        assert (Ok (inserted_row self rp id c' cd' a' idx')
                = Ok (inserted_row self rp id c cd a idx)) as Hsame.
        { rewrite <- (row_of_dict_row_to_insert id self rp c' cd' a' idx').
          rewrite <- (row_of_dict_row_to_insert id self rp c cd a idx).
          by rewrite Heq. }
        assert (inserted_row self rp id c' cd' a' idx' = inserted_row self rp id c cd a idx)
          as -> by congruence.
        apply list_elem_of_here.
      * destruct (Hcomplete c' cd' a' idx' Hin) as [id' Hid'].
        exists id'. by apply list_elem_of_further.
Qed.

Lemma where_inserted_row self rp id c cd a idx :
  where_ self (inserted_row self rp id c cd a idx) = true.
Proof. unfold where_, inserted_row. simpl. by rewrite !bool_decide_eq_true_2. Qed.

Lemma read_run_parameters_state names acc (s : state) :
  fst (read_run_parameters names acc s) = s.
Proof.
  revert acc. induction names as [|name names IH]; intros acc; simpl; [done|].
  unfold bind, read_root, lift.
  destruct (read_bytes _ _); [|done]. destruct (json_loads _); [|done]. apply IH.
Qed.

Lemma get_run_parameters_from_files_state self (s : state) :
  fst (get_run_parameters_from_files self s) = s.
Proof.
  unfold get_run_parameters_from_files, bind, get, read_root, ret. simpl.
  destruct (negb _); [done|]. destruct (iterdir _ _); [|done].
  apply read_run_parameters_state.
Qed.

(** The rows inserted from a document rearrange to the document, when every
    component of it has an alias. *)
Lemma rearrange_inserted self rp doc rows :
  every_component_has_an_alias doc ->
  (forall r, r ∈ rows ->
     exists id c cd am a idx,
       component_define doc !! c = Some cd /\ model_proto doc !! c = Some am /\
       am !! a = Some idx /\ r = inserted_row self rp id c cd a idx) ->
  (forall c cd am a idx,
     component_define doc !! c = Some cd -> model_proto doc !! c = Some am ->
     am !! a = Some idx -> exists id, inserted_row self rp id c cd a idx ∈ rows) ->
  rearrange_define_meta rows = doc.
Proof.
  intros [Hdom Halias] Hsound Hcomplete.
  destruct (rearrange_sound rows) as [Scd Smp].
  assert (Hrow : forall c, is_Some (model_proto doc !! c) \/ is_Some (component_define doc !! c) ->
            exists r, r ∈ rows /\ PipelineComponentMeta.f_component_name r = c).
  { intros c Hc.
    assert (is_Some (component_define doc !! c) /\ is_Some (model_proto doc !! c))
      as [[cd Hcd] [am Ham]].
    { rewrite <- !elem_of_dom, Hdom, <- Hdom. destruct Hc as [Hc|Hc].
      - apply elem_of_dom in Hc. rewrite <- Hdom in Hc. tauto.
      - apply elem_of_dom in Hc. tauto. }
    destruct (map_choose am (Halias c am Ham)) as (a & idx & Hidx).
    destruct (Hcomplete c cd am a idx Hcd Ham Hidx) as [id Hid].
    eexists. split; [exact Hid | done]. }
  destruct doc as [cd mp]. simpl in *.
  destruct (rearrange_define_meta rows) as [cd' mp'] eqn:Hre. simpl in *. f_equal.
  - apply map_eq. intros c. destruct (cd' !! c) as [x|] eqn:E.
    + destruct (Scd c x E) as (r & Hr & Hname & ->).
      destruct (Hsound r Hr) as (id & c0 & cd0 & am & a & idx & Hcd0 & _ & _ & ->).
      simpl in *. subst c0. rewrite Hcd0. by destruct cd0.
    + destruct (cd !! c) as [x|] eqn:E'; [|done]. exfalso.
      destruct (Hrow c) as (r & Hr & Hname); [right; by rewrite E'|].
      destruct (rearrange_complete rows r Hr) as [Hsome _].
      rewrite Hre, Hname in Hsome. simpl in Hsome. rewrite E in Hsome. by destruct Hsome.
  - apply map_eq. intros c. destruct (mp' !! c) as [am'|] eqn:E.
    + destruct (Smp c am' E) as [(r & Hr & Hname) Hin].
      destruct (Hsound r Hr) as (id & c0 & cd0 & am & a0 & idx0 & Hcd0 & Ham & _ & ->).
      simpl in Hname. subst c0. rewrite Ham. f_equal.
      apply map_eq. intros a. destruct (am' !! a) as [idx|] eqn:Ea.
      * destruct (Hin a idx Ea) as (r' & Hr' & Hn' & Ha' & Hi').
        destruct (Hsound r' Hr') as (? & ? & ? & am2 & ? & ? & _ & Ham2 & Hidx2 & ->).
        simpl in *. subst. rewrite Ham in Ham2. by injection Ham2 as <-.
      * destruct (am !! a) as [idx|] eqn:Ea'; [|done]. exfalso.
        destruct (Hcomplete c cd0 am a idx Hcd0 Ham Ea') as [id' Hid'].
        destruct (rearrange_complete rows _ Hid') as (_ & am'' & Ham'' & Hsome).
        rewrite Hre in Ham''. simpl in *. rewrite E in Ham''. injection Ham'' as <-.
        rewrite Ea in Hsome. by destruct Hsome.
    + destruct (mp !! c) as [am|] eqn:E'; [|done]. exfalso.
      destruct (Hrow c) as (r & Hr & Hname); [left; by rewrite E'|].
      destruct (rearrange_complete rows r Hr) as (_ & am'' & Ham'' & _).
      rewrite Hre, Hname in Ham''. simpl in Ham''. by rewrite E in Ham''.
Qed.

Lemma get_define_meta_dispatch (self : t) (s : state) :
  get_define_meta self s =
    match List.filter (where_ self) (component_metas s) with
    | [] => get_define_meta_from_file self s
    | query => (s, Ok (rearrange_define_meta query))
    end.
Proof.
  unfold get_define_meta, bind at 1. rewrite get_define_meta_from_db_all.
  destruct (List.filter (where_ self) (component_metas s)); reflexivity.
Qed.

(** C7, amended.  [get_define_meta] returns the view rearranged from the
    rows of the identity when there is at least one, and what
    [get_define_meta_from_file] parses otherwise.  Importing a document with
    [save_define_meta_from_file_to_db] into a table without rows of the
    identity succeeds, when the run parameters can be read, the document
    lists the same components in [component_define] and [model_proto] and
    every component has at least one alias; the rows of the identity are then
    the rows inserted, their rearranged view is the document, and
    [get_define_meta] returns the document. *)
Theorem define_meta_round_trip (self : t) (s : state) :
  let rows := List.filter (where_ self) (component_metas s) in
  (rows <> [] -> get_define_meta self s = (s, Ok (rearrange_define_meta rows))) /\
  (rows = [] -> get_define_meta self s = get_define_meta_from_file self s) /\
  (forall doc rp,
     rows = [] ->
     get_define_meta_from_file self s = (s, Ok doc) ->
     snd (get_run_parameters_from_files self s) = Ok rp ->
     every_component_has_an_alias doc ->
     exists new,
       let s' := set_component_metas (fun table => table ++ new) s in
       save_define_meta_from_file_to_db self s = (s', Ok tt) /\
       List.filter (where_ self) (component_metas s') = new /\
       rearrange_define_meta new = doc /\
       get_define_meta self s' = (s', Ok doc)).
Proof.
  intros rows. pose proof (get_define_meta_dispatch self) as Hget.
  split_and!.
  - intros Hne. rewrite Hget. fold rows. by destruct rows.
  - intros Hnil. rewrite Hget. fold rows. by rewrite Hnil.
  - intros doc rp Hnil Hfile Hrp Hdoc.
    destruct (rows_to_insert_spec self doc rp (map_to_list (component_define doc)))
      as (dicts & Hdicts & Hin).
    { intros c cd Hc. apply elem_of_map_to_list in Hc.
      apply elem_of_dom. destruct Hdoc as [<- _]. apply elem_of_dom. by eexists. }
    destruct (rows_of_dicts_inserted self rp (next_id (component_metas s)) dicts)
      as (new & Hnew & Hsound & Hcomplete).
    { intros d Hd. apply Hin in Hd as (c & cd & am & a & idx & _ & _ & _ & ->). eauto. }
    exists new.
    assert (Hfilter : List.filter (where_ self) (component_metas s ++ new) = new).
    { rewrite List.filter_app. fold rows. rewrite Hnil. simpl.
      apply List.forallb_filter_id, forallb_forall. intros r Hr.
      apply list_elem_of_In, Hsound in Hr as (? & ? & ? & ? & ? & _ & ->).
      apply where_inserted_row. }
    assert (Hview : rearrange_define_meta new = doc).
    { apply (rearrange_inserted self rp doc new Hdoc).
      - intros r Hr. destruct (Hsound r Hr) as (id & c & cd & a & idx & Hd & ->).
        apply Hin in Hd as (c' & cd' & am & a' & idx' & Hc & Ham & Hidx & Heq).
        assert (Ok (inserted_row self rp id c cd a idx)
                = Ok (inserted_row self rp id c' cd' a' idx')) as Hsame.
        { rewrite <- (row_of_dict_row_to_insert id self rp c cd a idx).
          rewrite <- (row_of_dict_row_to_insert id self rp c' cd' a' idx').
          by rewrite Heq. }
        exists id, c', cd', am, a', idx'. apply elem_of_map_to_list in Hc.
        split_and!; try done. congruence.
      - intros c cd am a idx Hcd Ham Hidx. apply Hcomplete, Hin.
        exists c, cd, am, a, idx. split_and!; try done. by apply elem_of_map_to_list. }
    cbn zeta. split_and!; try done.
    + unfold save_define_meta_from_file_to_db, bind at 1. unfold get at 1. fold rows.
      rewrite Hnil. simpl. unfold bind at 1. rewrite Hfile.
      unfold bind at 1.
      pose proof (get_run_parameters_from_files_state self s) as Hstate.
      destruct (get_run_parameters_from_files self s) as [s1 r1]. simpl in *. subst s1 r1.
      unfold bind, lift. rewrite Hdicts. unfold bulk_insert_into_db. by rewrite Hnew.
    + rewrite Hget. simpl. rewrite Hfilter. destruct new as [|r new'] eqn:Hn.
      * unfold get_define_meta_from_file, bind, read_root, lift in *. simpl in *.
        destruct (read_bytes define_meta_path (model_root s)); [|done].
        injection Hfile as Hfile. by rewrite Hfile.
      * by rewrite <- Hview.
Qed.

End define_meta.

(** C7, as stated, fails: a document in which the component d has no alias
    is imported into an empty table without error, and what is read back from
    the database - by [get_define_meta] too - has lost d. *)
Lemma define_meta_round_trip_fails :
  let L := toy.libraries toy.document_without_alias ∅ in
  let s := pipelined_component.State toy.cache_with_define_meta ∅ [] in
  let out := pipelined_component.save_define_meta_from_file_to_db toy.guest s in
  let s' := fst out in
  snd (pipelined_component.get_define_meta_from_file toy.guest s)
    = Ok toy.document_without_alias /\
  snd out = Ok tt /\
  pipelined_component.rearrange_define_meta
    (List.filter (pipelined_component.where_ toy.guest)
       (pipelined_component.component_metas s')) = toy.document /\
  snd (pipelined_component.get_define_meta toy.guest s') = Ok toy.document /\
  toy.document <> toy.document_without_alias.
Proof.
  split_and!; try (vm_compute; reflexivity).
  intros Heq.
  apply (f_equal (fun d => pipelined_component.component_define d !! "d")) in Heq.
  vm_compute in Heq. discriminate Heq.
Qed.

(** The amended claim on a document whose only component has an alias. *)
Lemma define_meta_round_trip_witness :
  let L := toy.libraries toy.document ∅ in
  let s := pipelined_component.State toy.cache_with_define_meta ∅ [] in
  exists s',
    pipelined_component.save_define_meta_from_file_to_db toy.guest s = (s', Ok tt) /\
    pipelined_component.get_define_meta toy.guest s' = (s', Ok toy.document).
Proof.
  intros L s.
  destruct (define_meta_round_trip (L := L) toy.guest s) as (_ & _ & Htrip).
  destruct (Htrip toy.document ∅) as (new & Hsave & _ & _ & Hget).
  - vm_compute. reflexivity.
  - vm_compute. reflexivity.
  - vm_compute. reflexivity.
  - split.
    + vm_compute. reflexivity.
    + intros c aliases Hc Hempty. subst aliases.
      unfold toy.document in Hc. simpl in Hc.
      apply lookup_singleton_Some in Hc as [_ Hc].
      apply (f_equal (fun m => m !! "a")) in Hc. vm_compute in Hc. discriminate Hc.
  - eexists. split; [exact Hsave | exact Hget].
Defined.

(** ** The file system: writing and walking *)

Section pathlib_walk.

Import pathlib.

Lemma get_file_new_file p b q :
  get_file (new_file p b) q = if decide (q = p) then Some b else None.
Proof.
  revert q. induction p as [|x p IH]; intros [|y q]; unfold get_file in *;
    case_decide as Hd; try done; cbn [new_file resolve child].
  - destruct (String.eqb_spec x y) as [->|Hne]; [|congruence].
    rewrite IH, decide_True; [done | congruence].
  - destruct (String.eqb_spec x y) as [->|Hne]; [|done].
    rewrite IH, decide_False; [done | congruence].
Qed.

(** Writing a file sets its content and no other file's. *)
Lemma write_at_get_file full p b n n' :
  write_at full p b n = Ok n' ->
  get_file n' p = Some b /\ forall q, q <> p -> get_file n' q = get_file n q.
Proof.
  revert n n'. induction p as [|x p IH]; intros [b0|cs] n'; simpl; try done.
  - intros [= <-]. split; [done|]. by intros [|y q].
  - destruct (child x cs) as [c|] eqn:Hx.
    + destruct (write_at full p b c) as [c'|e] eqn:Hc; [|done].
      intros [= <-]. destruct (IH c c' Hc) as [Hp Hother]. split.
      * unfold get_file in *. simpl. by rewrite (child_set_child_eq x c c' cs Hx).
      * intros [|y q] Hq; [done|]. unfold get_file in *. simpl.
        destruct (decide (x = y)) as [<-|Hne].
        -- rewrite Hx, (child_set_child_eq x c c' cs Hx). apply Hother. congruence.
        -- by rewrite (child_set_child_ne x y c' cs Hne).
    + intros [= <-]. split.
      * unfold get_file. simpl. rewrite (child_app_None x cs x _ Hx), String.eqb_refl.
        pose proof (get_file_new_file p b p) as Hnew. unfold get_file in Hnew.
        by rewrite Hnew, decide_True.
      * intros [|y q] Hq; [done|]. unfold get_file. simpl.
        destruct (child y cs) as [d|] eqn:Hy.
        -- by rewrite (child_app_Some y d cs _ Hy).
        -- rewrite (child_app_None y cs x _ Hy).
           destruct (String.eqb_spec x y) as [->|Hne]; [|done].
           pose proof (get_file_new_file p b q) as Hnew. unfold get_file in Hnew.
           rewrite Hnew, decide_False; [done | congruence].
Qed.

Lemma extends_child x cs c scs sc :
  extends (Dir cs) (Dir scs) -> child x cs = Some c -> child x scs = Some sc ->
  extends c sc.
Proof.
  intros Hext Hc Hsc q. specialize (Hext (x :: q)). unfold is_dir in *. simpl in Hext.
  by rewrite Hc, Hsc in Hext.
Qed.

Lemma extends_new_file p b src :
  get_file src p = Some b -> extends (new_file p b) src.
Proof.
  revert src. induction p as [|x p IH]; intros src; unfold get_file; simpl.
  - destruct src as [b0|]; [|done]. intros [= ->] [|y q]; by simpl.
  - destruct src as [b0|scs]; [done|].
    destruct (child x scs) as [sc|] eqn:Hx; [|done]. intros Hsc.
    intros [|y q]; simpl; [done|]. unfold is_dir. simpl.
    destruct (String.eqb_spec x y) as [<-|Hne]; [|done].
    rewrite Hx. apply IH. exact Hsc.
Qed.

(** A file of [src] can be written into a tree that has only files and
    directories of [src]; the tree still has only such. *)
Lemma write_at_extends full p b dst src :
  extends dst src -> get_file src p = Some b ->
  exists dst', write_at full p b dst = Ok dst' /\ extends dst' src.
Proof.
  revert dst src. induction p as [|x p IH]; intros dst src Hext; unfold get_file; simpl.
  - destruct src as [b0|]; [|done]. intros [= ->].
    pose proof (Hext []) as H0. unfold is_dir in H0. simpl in H0.
    destruct dst as [b1|]; [|done]. exists (File b). split; [done|]. apply extends_refl.
  - destruct src as [b0|scs]; [done|].
    destruct (child x scs) as [sc|] eqn:Hsx; [|done]. intros Hsc.
    pose proof (Hext []) as H0. unfold is_dir in H0. simpl in H0.
    destruct dst as [b1|cs]; [done|].
    destruct (child x cs) as [c|] eqn:Hx.
    + destruct (IH c sc (extends_child x cs c scs sc Hext Hx Hsx) Hsc) as (c' & Hw & Hext').
      rewrite Hw. eexists. split; [done|].
      intros [|y q]; simpl; [done|]. unfold is_dir. simpl.
      destruct (decide (x = y)) as [<-|Hne].
      * rewrite (child_set_child_eq x c c' cs Hx), Hsx. apply Hext'.
      * rewrite (child_set_child_ne x y c' cs Hne).
        specialize (Hext (y :: q)). unfold is_dir in Hext. by simpl in Hext.
    + eexists. split; [done|].
      intros [|y q]; simpl; [done|]. unfold is_dir. simpl.
      destruct (child y cs) as [d|] eqn:Hy.
      * rewrite (child_app_Some y d cs _ Hy).
        specialize (Hext (y :: q)). unfold is_dir in Hext. simpl in Hext. by rewrite Hy in Hext.
      * rewrite (child_app_None y cs x _ Hy).
        destruct (String.eqb_spec x y) as [<-|Hne]; [|done].
        rewrite Hsx. by apply extends_new_file.
Qed.

(** Induction on a tree, with the hypothesis for every entry of a directory. *)
Lemma node_induction (P : node -> Prop) :
  (forall b, P (File b)) ->
  (forall cs, (forall x c, In (x, c) cs -> P c) -> P (Dir cs)) ->
  forall n, P n.
Proof.
  intros HF HD. fix IH 1. intros [b|cs]; [apply HF|]. apply HD.
  induction cs as [|[y d] cs IHcs]; intros x c Hin.
  - destruct Hin.
  - destruct Hin as [Heq|Hin].
    + injection Heq as _ <-. apply IH.
    + exact (IHcs x c Hin).
Qed.

Lemma resolve_app p q n :
  resolve (p ++ q) n = match resolve p n with Some m => resolve q m | None => None end.
Proof.
  revert n. induction p as [|x p IH]; intros n; simpl; [done|].
  destruct n as [b|cs]; [done|]. destruct (child x cs); [apply IH | done].
Qed.

Lemma child_In x c cs : child x cs = Some c -> In (x, c) cs.
Proof.
  induction cs as [|[y d] cs IH]; simpl; [done|].
  destruct (String.eqb_spec y x) as [->|Hne].
  - intros [= ->]. by left.
  - intros Hc. right. by apply IH.
Qed.

Lemma child_NoDup x c cs : NoDup (List.map fst cs) -> In (x, c) cs -> child x cs = Some c.
Proof.
  induction cs as [|[y d] cs IH]; simpl; [done|].
  intros Hnd [Heq|Hin].
  - injection Heq as -> ->. by rewrite String.eqb_refl.
  - apply NoDup_cons in Hnd as [Hy Hnd].
    destruct (String.eqb_spec y x) as [->|Hne]; [|by apply IH].
    exfalso. apply Hy, list_elem_of_In, List.in_map_iff. by exists (x, c).
Qed.

Lemma wf_Dir cs :
  wf (Dir cs) = true -> NoDup (List.map fst cs) /\ forall x c, In (x, c) cs -> wf c = true.
Proof.
  simpl. intros [Hnd Hall]%andb_prop. split; [by apply bool_decide_eq_true in Hnd|].
  intros x c Hin. rewrite forallb_forall in Hall. exact (Hall (x, c) Hin).
Qed.

Lemma wf_resolve p n m : wf n = true -> resolve p n = Some m -> wf m = true.
Proof.
  revert n. induction p as [|x p IH]; intros n Hwf; simpl.
  - by intros [= <-].
  - destruct n as [b|cs]; [done|]. destruct (child x cs) as [c|] eqn:Hx; [|done].
    apply IH. destruct (wf_Dir cs Hwf) as [_ Hall]. apply (Hall x). by apply child_In.
Qed.

(** The walk lists every file below the node ... *)
Lemma walk_complete rel n q b :
  get_file n q = Some b -> In (rel ++ q, b) (walk rel n).
Proof.
  revert rel n. induction q as [|x q IH]; intros rel n; unfold get_file; simpl.
  - destruct n as [b0|]; [|done]. intros [= ->]. rewrite app_nil_r. by left.
  - destruct n as [b0|cs]; [done|]. destruct (child x cs) as [c|] eqn:Hx; [|done].
    intros Hq. simpl. apply List.in_flat_map. exists (x, c). split; [by apply child_In|].
    specialize (IH (rel ++ [x]) c). rewrite <- app_assoc in IH. simpl in IH. by apply IH.
Qed.

(** ... and nothing else, in a tree whose directories have no name twice. *)
Lemma walk_sound n : forall rel p b,
  wf n = true -> In (p, b) (walk rel n) ->
  exists q, p = rel ++ q /\ get_file n q = Some b.
Proof.
  induction n as [b0|cs IH] using node_induction; intros rel p b Hwf Hin.
  - simpl in Hin. destruct Hin as [[= <- <-]|[]]. exists []. by rewrite app_nil_r.
  - simpl in Hin. apply List.in_flat_map in Hin as ([x c] & Hc & Hin).
    destruct (wf_Dir cs Hwf) as [Hnd Hall].
    destruct (IH x c Hc (rel ++ [x]) p b (Hall x c Hc) Hin) as (q & -> & Hq).
    exists (x :: q). split; [by rewrite <- app_assoc|].
    unfold get_file in *. simpl. by rewrite (child_NoDup x c cs Hnd Hc).
Qed.

End pathlib_walk.

(** ** Claim C6: packing and unpacking a component *)

Section pack_unpack.

Import pathlib pipelined_component.

Context {L : Libraries}.

(** Extraction of members that are files of [src], into a tree that has only
    files and directories of [src]: it succeeds, every member is then a file
    of the tree, and no other path changes. *)
Lemma extractall_spec (src : node) (members : list (path * bytes)) (s : state) :
  extends (model_root s) src ->
  (forall p b, In (p, b) members -> get_file src p = Some b) ->
  exists dst',
    extractall members s = (set_model_root dst' s, Ok tt) /\
    extends dst' src /\
    (forall p b, get_file (model_root s) p = Some b -> get_file dst' p = Some b) /\
    (forall p b, In (p, b) members -> get_file dst' p = Some b) /\
    (forall p, p ∉ List.map fst members -> get_file dst' p = get_file (model_root s) p).
Proof.
  revert s. induction members as [|[p0 b0] members IH]; intros s Hext Hsrc.
  - exists (model_root s). simpl. split_and!; try done. by destruct s.
  - destruct (write_at_extends p0 p0 b0 (model_root s) src Hext) as (dst1 & Hw & Hext1).
    { apply Hsrc. by left. }
    destruct (write_at_get_file p0 p0 b0 _ _ Hw) as [Hp0 Hother].
    destruct (IH (set_model_root dst1 s)) as (dst' & Hrun & Hext' & Hkeep & Hmem & Hrest).
    { exact Hext1. }
    { intros p b Hin. apply Hsrc. by right. }
    exists dst'. simpl in *. split_and!.
    + unfold bind, on_root, write_bytes. rewrite Hw. exact Hrun.
    + exact Hext'.
    + intros p b Hp. apply Hkeep. destruct (decide (p = p0)) as [->|Hne].
      * rewrite Hp0.
        pose proof (extends_get_file _ _ _ _ Hext Hp) as H1.
        pose proof (Hsrc p0 b0 (or_introl eq_refl)) as H2. congruence.
      * by rewrite Hother.
    + intros p b [[= -> ->]|Hin]; [by apply Hkeep | by apply Hmem].
    + intros p Hp. apply not_elem_of_cons in Hp as [Hne Hp].
      rewrite (Hrest p Hp). by apply Hother.
Qed.

Lemma get_file_empty p : get_file (Dir []) p = None.
Proof. by destruct p. Qed.

Lemma extends_empty src : is_dir [] src = true -> extends (Dir []) src.
Proof. intros Hdir [|y q]; by simpl. Qed.

Lemma is_dir_resolve d n : is_dir d n = true -> exists cs, resolve d n = Some (Dir cs).
Proof. unfold is_dir. destruct (resolve d n) as [[b|cs]|]; try done. eauto. Qed.

Lemma get_file_below d q n cs :
  resolve d n = Some (Dir cs) -> get_file n (d ++ q) = get_file (Dir cs) q.
Proof. intros Hd. unfold get_file. by rewrite resolve_app, Hd. Qed.

(** C6, amended.  In a cache whose directories have no name twice and in
    which the component has its variables/data and its checkpoint directory,
    [pack_component] writes the archive, whose members are exactly the files
    below these two directories, each under its path relative to the model
    root and with its content, and returns the name of the archive with the
    SHA-256 of its bytes.  [unpack_component] on this archive, with that hash
    or with none, into an empty model root succeeds, and afterwards the files
    of the model root are exactly those files, at the same paths and with the
    same contents.  (What is read back from an archive is assumed to be what
    was written to it.) *)
Theorem pack_unpack_round_trip (self : t) (component_name : string) (s : state) :
  zip_roundtrip ->
  wf (model_root s) = true ->
  (forall d, d ∈ component_dirs component_name -> is_dir d (model_root s) = true) ->
  let filename := get_archive_path self component_name in
  exists members,
    let archive := zip_write members in
    pack_component self component_name s =
      (set_temp (fun files => <[filename := archive]> files) s,
       Ok (filename, sha256_hexdigest archive)) /\
    (forall p b, In (p, b) members <->
       of_component component_name p /\ get_file (model_root s) p = Some b) /\
    forall hash_ files table,
      hash_ = None \/ hash_ = Some (sha256_hexdigest archive) ->
      files !! filename = Some archive ->
      exists root',
        unpack_component self component_name hash_ (State (Dir []) files table) =
          (State root' files table, Ok tt) /\
        (forall p, of_component component_name p ->
           get_file root' p = get_file (model_root s) p) /\
        (forall p, ~ of_component component_name p -> get_file root' p = None).
Proof.
  intros Hzip Hwf Hdirs filename.
  set (vd := variables_data_path ++ [component_name]).
  set (ck := checkpoint_path ++ [component_name]).
  destruct (is_dir_resolve vd (model_root s)) as [cs1 Hvd]; [apply Hdirs; in_list|].
  destruct (is_dir_resolve ck (model_root s)) as [cs2 Hck];
    [apply Hdirs; unfold component_dirs; in_list|].
  set (members := walk vd (Dir cs1) ++ walk ck (Dir cs2)).
  assert (Hmembers : forall p b, In (p, b) members <->
            of_component component_name p /\ get_file (model_root s) p = Some b).
  { intros p b. unfold members. rewrite List.in_app_iff. split.
    - intros [Hin|Hin].
      + apply walk_sound in Hin as (q & -> & Hq); [|by eapply wf_resolve].
        split; [exists vd, q; split; [in_list | done]|].
        by rewrite (get_file_below vd q _ cs1 Hvd).
      + apply walk_sound in Hin as (q & -> & Hq); [|by eapply wf_resolve].
        split; [exists ck, q; split; [unfold component_dirs; in_list | done]|].
        by rewrite (get_file_below ck q _ cs2 Hck).
    - intros [(d & q & Hd & ->) Hb]. unfold component_dirs in Hd.
      apply elem_of_cons in Hd as [->|Hd].
      + left. apply walk_complete. by rewrite <- (get_file_below _ q _ cs1 Hvd).
      + apply list_elem_of_singleton in Hd as ->.
        right. apply walk_complete. by rewrite <- (get_file_below _ q _ cs2 Hck). }
  exists members. cbn zeta. split_and!.
  - unfold pack_component, walk_component, iterdir. fold vd ck filename.
    rewrite Hvd, Hck. simpl. by rewrite lookup_insert_eq.
  - exact Hmembers.
  - intros hash_ files table Hhash Harchive.
    rewrite (unpack_component_accepts self component_name hash_
               (State (Dir []) files table) (zip_write members) Harchive Hhash).
    rewrite Hzip.
    destruct (extractall_spec (model_root s) members (State (Dir []) files table))
      as (root' & Hrun & _ & _ & Hmem & Hrest).
    { apply extends_empty. unfold is_dir. simpl.
      destruct (model_root s) as [b|cs]; [|done]. by destruct vd. }
    { intros p b Hin. by apply Hmembers. }
    exists root'. split; [exact Hrun|]. split.
    + intros p Hp. destruct (get_file (model_root s) p) as [b|] eqn:Hb.
      * apply Hmem, Hmembers. done.
      * simpl in Hrest. rewrite Hrest; [apply get_file_empty|].
        intros Hin. apply list_elem_of_In, List.in_map_iff in Hin as ([p' b] & <- & Hin).
        apply Hmembers in Hin as [_ Hin]. simpl in *. congruence.
    + intros p Hp. simpl in Hrest. rewrite Hrest; [apply get_file_empty|].
      intros Hin. apply list_elem_of_In, List.in_map_iff in Hin as ([p' b] & <- & Hin).
      apply Hmembers in Hin as [Hin _]. simpl in *. done.
Qed.

End pack_unpack.

(** ** The stand-in archive format reads back what it writes *)

Section toy_archive.

Import pathlib toy.

Lemma dec_nat_enc n rest : dec_nat (enc_nat n ++ rest) = Some (n, rest).
Proof.
  induction n as [|n IH]; [done|].
  unfold enc_nat in *. simpl. by rewrite IH.
Qed.

Lemma dec_bytes_enc b rest : dec_bytes (enc_bytes b ++ rest) = Some (b, rest).
Proof.
  unfold dec_bytes, enc_bytes. rewrite <- app_assoc, dec_nat_enc.
  rewrite length_app.
  destruct (Nat.leb_spec (length b) (length b + length rest)) as [_|Hlt]; [|lia].
  rewrite firstn_app, firstn_all, Nat.sub_diag. simpl. rewrite app_nil_r.
  rewrite skipn_app, skipn_all, Nat.sub_diag. done.
Qed.

Lemma dec_str_enc s rest : dec_str (enc_str s ++ rest) = Some (s, rest).
Proof.
  unfold dec_str, enc_str. by rewrite dec_bytes_enc, string_of_list_byte_of_string.
Qed.

Lemma dec_list_enc {A} (enc : A -> bytes) (dec : bytes -> option (A * bytes)) :
  (forall a rest, dec (enc a ++ rest) = Some (a, rest)) ->
  forall l rest, dec_list dec (enc_list enc l ++ rest) = Some (l, rest).
Proof.
  intros Hdec l rest. unfold dec_list, enc_list. rewrite <- app_assoc, dec_nat_enc.
  induction l as [|a l IH]; simpl; [done|].
  by rewrite <- app_assoc, Hdec, IH.
Qed.

Lemma dec_member_enc m rest : dec_member (enc_member m ++ rest) = Some (m, rest).
Proof.
  destruct m as [p b]. unfold dec_member, enc_member. simpl.
  by rewrite <- app_assoc, (dec_list_enc enc_str dec_str dec_str_enc), dec_bytes_enc.
Qed.

Lemma archive_read_write members : archive_read (archive_write members) = Ok members.
Proof.
  unfold archive_read, archive_write.
  rewrite <- (app_nil_r (enc_list enc_member members)).
  by rewrite (dec_list_enc enc_member dec_member dec_member_enc).
Qed.

Lemma libraries_zip_roundtrip doc params :
  pipelined_component.zip_roundtrip (H := libraries doc params).
Proof. intros members. apply archive_read_write. Qed.

End toy_archive.

(** Packing [toy.cache] and unpacking into an empty model root gives back the
    file variables/data/feature_engineering/a/model.pb with its content. *)
Lemma pack_unpack_round_trip_witness :
  let L := toy.libraries toy.no_document ∅ in
  let s := pipelined_component.State toy.cache ∅ [] in
  exists root',
    pipelined_component.unpack_component toy.guest "feature_engineering" None
      (pipelined_component.State (pathlib.Dir []) packed_files [])
    = (pipelined_component.State root' packed_files [], Ok tt) /\
    pathlib.get_file root' ["variables"; "data"; "feature_engineering"; "a"; "model.pb"]
    = Some (toy.text "m1").
Proof.
  intros L s.
  destruct (pack_unpack_round_trip (L := L) toy.guest "feature_engineering" s)
    as (members & Hpack & _ & Hunpack).
  - apply libraries_zip_roundtrip.
  - vm_compute. reflexivity.
  - intros d Hd. unfold component_dirs in Hd.
    apply elem_of_cons in Hd as [->|Hd]; [vm_compute; reflexivity|].
    apply list_elem_of_singleton in Hd as ->. vm_compute. reflexivity.
  - destruct (Hunpack None packed_files []) as (root' & Hrun & Hin & _).
    + by left.
    + unfold packed_files. fold L. fold s. rewrite Hpack. simpl.
      apply lookup_insert_eq.
    + exists root'. split; [exact Hrun|]. rewrite Hin.
      * vm_compute. reflexivity.
      * exists (pipelined_component.variables_data_path ++ ["feature_engineering"]),
          ["a"; "model.pb"].
        split; [unfold component_dirs; in_list | reflexivity].
Defined.

(** C6, as stated, fails: the component feature_engineering of
    [toy.cache_without_checkpoint] has a file tree under variables/data and
    no directory under checkpoint; [pack_component] walks both directories
    with [iterdir] and raises [FileNotFoundError], so it returns neither an
    archive path nor a hash. *)
Lemma pack_unpack_round_trip_fails :
  let s := pipelined_component.State toy.cache_without_checkpoint ∅ [] in
  pathlib.get_file (pipelined_component.model_root s)
    ["variables"; "data"; "feature_engineering"; "a"; "model.pb"] = Some (toy.text "m1") /\
  pathlib.path_exists ["checkpoint"; "feature_engineering"]
    (pipelined_component.model_root s) = false /\
  snd (pipelined_component.pack_component (L := toy.libraries toy.no_document ∅)
         toy.guest "feature_engineering" s)
  = Raise (FileNotFoundError ["checkpoint"; "feature_engineering"]).
Proof. vm_compute. repeat split. Qed.

(** * Further properties *)

(** ** [SyncModel]: construction, [db_exits], and sequences of transfers *)

Section SyncModel_further.

Import sync_model SyncModel.

Context {R : Type} {C : Collaborators R}.
Variable HOST : string.

(** X1.  [SyncModel.__init__] with a registered backend: the instance holds the
    backend class of [model_storage_map], constructed without arguments, and
    as its store address a dict of its own - a new object with the address
    fields, not the registry's dict, which keeps its [storage] key; the lock
    is named after the party model id and the version. *)
Theorem SyncModel_init_spec (reg : loc) (party_model_id model_version : string)
    (w : world R) (d : dict) (name : string) (cls : storage_class) (pm : PipelinedModel) :
  objects w !! reg = Some d ->
  d !! "storage" = Some (VStr name) ->
  model_storage_map !! name = Some cls ->
  new_PipelinedModel party_model_id model_version = Ok pm ->
  let l' := fresh (dom (objects w)) in
  let self := {| pipelined_model := pm; model_storage := cls;
                 model_storage_parameters := ModelParams party_model_id model_version l';
                 lock := "sync_model_" +:+ party_model_id +:+ "_" +:+ model_version |} in
  let out := __init__ reg party_model_id model_version w in
  l' <> reg /\
  objects (fst out) = <[l' := delete "storage" d]> (objects w) /\
  objects (fst out) !! reg = Some d /\
  calls (fst out) = calls w ++ [Construct cls ∅] /\
  models (fst out) = models w /\ outside (fst out) = outside w /\
  snd out = match storage_init cls ∅ with Ok _ => Ok self | Raise e => Raise e end.
Proof.
  intros Hreg Ht Hcls Hpm l' self out.
  assert (Hfresh : objects w !! l' = None) by apply not_elem_of_dom, is_fresh.
  assert (Hne : l' <> reg) by congruence.
  subst out. unfold __init__, bind, lift. rewrite Hpm.
  rewrite (get_storage_result reg model_storage_map w d (VStr name) Hreg Ht).
  simpl. rewrite Hcls. unfold construct, log, bind, modify, lift, ret. simpl.
  fold l'.
  destruct (storage_init cls ∅) as [[]|e]; simpl;
    (split_and!; try done;
     [apply insert_insert_eq | by rewrite !lookup_insert_ne]).
Qed.

Lemma db_exits_run (self : t) (w : world R) :
  db_exits self w = (w, Ok (existsb (is_model self) (models w))).
Proof.
  unfold db_exits, get_model, bind, get, ret, raise. simpl.
  induction (models w) as [|m ms IH]; simpl; [done|].
  destruct (is_model self m); simpl; [done|].
  by destruct (List.find (is_model self) ms).
Qed.

(** [upload], step by step. *)
Lemma upload_run (self : t) (force_update : bool) (w : world R) :
  let cls := model_storage self in
  let p := model_storage_parameters self in
  upload HOST self force_update w =
    if storage_exists cls p (outside w) && negb force_update
    then (set_calls (fun cs => cs ++ [Exists cls p]) w, Ok None)
    else
      match List.find (is_model self) (models w) with
      | None =>
          (set_calls (fun cs => cs ++ [Exists cls p; Acquire (lock self);
                                       Release (lock self)]) w,
           Raise DoesNotExist)
      | Some m =>
          let cs := calls w ++ [Exists cls p; Acquire (lock self);
                                Store cls p force_update; Release (lock self)] in
          match storage_store cls p force_update (outside w) with
          | (r', Ok h) =>
              let m' := with_archive HOST m h in
              (World (objects w) cs
                 (List.map (fun r => if same_identity m' r then m' else r) (models w))
                 (component_metas w) r',
               Ok (Some m'))
          | (r', Raise e) =>
              (World (objects w) cs (models w) (component_metas w) r', Raise e)
          end
      end.
Proof.
  intros cls p. subst cls p.
  unfold upload, with_lock, try_finally, remote_exits, get_model, store, save, log,
    bind, ret, raise, get, modify, set_calls, set_models, set_outside; simpl.
  destruct (storage_exists _ _ _ && negb force_update); [done|]. simpl.
  destruct (List.find (is_model self) (models w)) as [m|]; simpl.
  - destruct (storage_store _ _ _ _) as [r' [h|e]]; simpl; by rewrite <- !app_assoc.
  - by rewrite <- !app_assoc.
Qed.

(** [download], step by step. *)
Lemma download_run (host : string) (self : t) (force_update : bool) (w : world R) :
  let cls := model_storage self in
  let p := model_storage_parameters self in
  download host self force_update w =
    if pipelined_model_exists (pipelined_model self) (outside w) && negb force_update
    then (w, Ok None)
    else
      match List.find (is_model self) (models w) with
      | None =>
          (set_calls (fun cs => cs ++ [Acquire (lock self); Release (lock self)]) w,
           Raise DoesNotExist)
      | Some m =>
          if force_update || negb (bool_decide (MLModel.f_archive_from_ip m = Some host))
          then
            let cs := calls w ++ [Acquire (lock self);
                                  Restore cls p force_update (MLModel.f_archive_sha256 m);
                                  Release (lock self)] in
            match storage_restore cls p force_update (MLModel.f_archive_sha256 m)
                    (outside w) with
            | (r', Ok _) =>
                (World (objects w) cs (models w) (component_metas w) r', Ok (Some m))
            | (r', Raise e) =>
                (World (objects w) cs (models w) (component_metas w) r', Raise e)
            end
          else
            (set_calls (fun cs => cs ++ [Acquire (lock self); Release (lock self)]) w,
             Ok (Some m))
      end.
Proof.
  intros cls p. subst cls p.
  unfold download, with_lock, try_finally, local_exits, get_model, restore, log,
    bind, ret, raise, get, modify, set_calls, set_models, set_outside; simpl.
  destruct (pipelined_model_exists _ _ && negb force_update); [done|]. simpl.
  destruct (List.find (is_model self) (models w)) as [m|]; simpl.
  - destruct (force_update || negb _); simpl.
    + destruct (storage_restore _ _ _ _ _) as [r' [[]|e]]; simpl; by rewrite <- !app_assoc.
    + by rewrite <- !app_assoc.
  - by rewrite <- !app_assoc.
Qed.

(** What a successful [upload] leaves behind. *)
Lemma upload_returns (self : t) (force_update : bool) (w w1 : world R) (m1 : MLModel.t) :
  upload HOST self force_update w = (w1, Ok (Some m1)) ->
  exists m h r',
    List.find (is_model self) (models w) = Some m /\
    storage_store (model_storage self) (model_storage_parameters self) force_update
      (outside w) = (r', Ok h) /\
    m1 = with_archive HOST m h /\ outside w1 = r' /\
    List.find (is_model self) (models w1) = Some m1.
Proof.
  rewrite upload_run. cbn zeta.
  destruct (storage_exists _ _ _ && negb force_update); [done|].
  destruct (List.find (is_model self) (models w)) as [m|] eqn:Hfind; [|done].
  destruct (storage_store _ _ _ _) as [r' [h|e]] eqn:Hstore; [|done].
  intros [= <- <-]. exists m, h, r'. split_and!; try done.
  simpl. by apply saved_model_found.
Qed.

(** X3.  On a backend on which what has been stored exists, an [upload] that
    succeeded makes the next [upload] without [force_update] a no-op: it
    checks the remote copy, stores nothing, changes no record and returns
    nothing. *)
Theorem upload_twice (self : t) (force_update : bool) (w w1 : world R) (m1 : MLModel.t) :
  store_then_exists ->
  upload HOST self force_update w = (w1, Ok (Some m1)) ->
  upload HOST self false w1 =
    (set_calls (fun cs => cs ++ [Exists (model_storage self) (model_storage_parameters self)])
       w1, Ok None) /\
  count_calls is_store (fst (upload HOST self false w1)) = count_calls is_store w1.
Proof.
  intros Hbackend Hup.
  destruct (upload_returns self force_update w w1 m1 Hup) as (m & h & r' & _ & Hstore & _ & Hout & _).
  assert (Hskip : upload HOST self false w1 =
            (set_calls (fun cs => cs ++ [Exists (model_storage self)
                                           (model_storage_parameters self)]) w1, Ok None)).
  { rewrite upload_run. cbn zeta. rewrite Hout.
    by rewrite (Hbackend _ _ _ _ _ _ Hstore). }
  split; [exact Hskip|]. rewrite Hskip. unfold count_calls. simpl.
  rewrite List.filter_app, length_app. simpl. lia.
Qed.

(** X4.  After a successful [upload] on [HOST] the record names [HOST] as origin
    and carries the stored hash.  A [download] on another host without a
    local copy then restores with exactly that hash; on [HOST] itself it
    restores nothing and returns the record. *)
Theorem upload_then_download (self : t) (force_update : bool) (w w1 : world R)
    (m1 : MLModel.t) :
  upload HOST self force_update w = (w1, Ok (Some m1)) ->
  pipelined_model_exists (pipelined_model self) (outside w1) = false ->
  let cls := model_storage self in
  let p := model_storage_parameters self in
  (exists h, MLModel.f_archive_sha256 m1 = Some h) /\
  MLModel.f_archive_from_ip m1 = Some HOST /\
  (forall host' : string, host' <> HOST ->
     calls (fst (download host' self false w1)) =
       calls w1 ++ [Acquire (lock self);
                    Restore cls p false (MLModel.f_archive_sha256 m1);
                    Release (lock self)]) /\
  download HOST self false w1 =
    (set_calls (fun cs => cs ++ [Acquire (lock self); Release (lock self)]) w1,
     Ok (Some m1)).
Proof.
  intros Hup Hlocal cls p.
  destruct (upload_returns self force_update w w1 m1 Hup)
    as (m & h & r' & _ & _ & -> & _ & Hfind).
  split_and!.
  - by exists h.
  - done.
  - intros host' Hne. rewrite download_run. cbn zeta. rewrite Hlocal, Hfind. simpl.
    rewrite bool_decide_eq_false_2 by congruence. simpl.
    by destruct (storage_restore _ _ _ _ _) as [r'' [[]|e]].
  - rewrite download_run. cbn zeta. rewrite Hlocal, Hfind. simpl.
    by rewrite bool_decide_eq_true_2.
Qed.

End SyncModel_further.

(** ** [SyncComponent]: the archive hash of a component and its transfers *)

Section SyncComponent_further.

Import sync_model SyncComponent.

Context {R : Type} {C : Collaborators R}.
Variable HOST : string.

Lemma where_with_archive q r h : where_ q (with_archive HOST r h) = where_ q r.
Proof. reflexivity. Qed.

Lemma filter_map_update {A} (p : A -> bool) (g : A -> A) (l : list A) :
  (forall a, p (g a) = p a) ->
  List.filter p (List.map (fun a => if p a then g a else a) l) = List.map g (List.filter p l).
Proof.
  intros Hg. induction l as [|a l IH]; simpl; [done|].
  destruct (p a) eqn:Ha; simpl.
  - by rewrite Hg, Ha, IH.
  - by rewrite Ha, IH.
Qed.

Lemma get_archive_hash_invalid (self : t) (w : world R) :
  length (group_by (List.filter (where_ (query_args self)) (component_metas w))) <> 1 ->
  get_archive_hash self w = (w, Raise (invalid_define_meta (component_name self))).
Proof.
  intros Hlen. unfold get_archive_hash, bind, get, raise. simpl.
  by destruct (Nat.eqb_spec (length (group_by (List.filter (where_ (query_args self))
                                                  (component_metas w)))) 1).
Qed.

Lemma get_archive_hash_single (self : t) (w : world R) (r : PipelineComponentMeta.t) :
  group_by (List.filter (where_ (query_args self)) (component_metas w)) = [r] ->
  get_archive_hash self w = (w, Ok (PipelineComponentMeta.f_archive_sha256 r)).
Proof.
  intros Hgroups. unfold get_archive_hash, bind, get, raise, ret. simpl.
  by rewrite Hgroups.
Qed.

Lemma update_archive_hash_rows (self : t) (hash_ : string) (w : world R) :
  List.filter (where_ (query_args self))
    (component_metas (fst (update_archive_hash HOST self hash_ w)))
  = List.map (fun r => with_archive HOST r hash_)
      (List.filter (where_ (query_args self)) (component_metas w)).
Proof.
  unfold update_archive_hash, modify. simpl.
  apply (filter_map_update (where_ (query_args self)) (fun r => with_archive HOST r hash_)).
  intros r. apply where_with_archive.
Qed.

Lemma update_archive_hash_then_get (self : t) (hash_ : string) (w : world R) :
  List.filter (where_ (query_args self)) (component_metas w) <> [] ->
  get_archive_hash self (fst (update_archive_hash HOST self hash_ w)) =
    (fst (update_archive_hash HOST self hash_ w), Ok (Some hash_)).
Proof.
  intros Hne.
  set (rows := List.filter (where_ (query_args self)) (component_metas w)) in *.
  destruct (group_by_single (List.map (fun r => with_archive HOST r hash_) rows)
              (Some hash_, Some HOST)) as (r & Hr & Hkey).
  - by destruct rows.
  - intros r Hr. apply list_elem_of_In, List.in_map_iff in Hr as (r0 & <- & _). done.
  - rewrite (get_archive_hash_single self _ r).
    + unfold group_key in Hkey. by injection Hkey as -> _.
    + by rewrite update_archive_hash_rows.
Qed.

(** X5.  [update_archive_hash] writes the hash and [HOST] into every row of the
    component and into no other row; when the component has a row, its
    metadata is consistent afterwards and [get_archive_hash] returns the hash
    written - also when the rows disagreed before. *)
Theorem update_archive_hash_spec (self : t) (hash_ : string) (w : world R) :
  let rows := List.filter (where_ (query_args self)) (component_metas w) in
  let out := update_archive_hash HOST self hash_ w in
  snd out = Ok tt /\
  length (component_metas (fst out)) = length (component_metas w) /\
  (forall r, r ∈ component_metas w -> where_ (query_args self) r = false ->
     r ∈ component_metas (fst out)) /\
  List.filter (where_ (query_args self)) (component_metas (fst out)) =
    List.map (fun r => with_archive HOST r hash_) rows /\
  calls (fst out) = calls w /\ outside (fst out) = outside w /\
  (rows <> [] -> get_archive_hash self (fst out) = (fst out, Ok (Some hash_))).
Proof.
  intros rows out. subst out.
  pose proof (update_archive_hash_rows self hash_ w) as Hfilter.
  pose proof (update_archive_hash_then_get self hash_ w) as Hget.
  split; [reflexivity|]. split; [unfold update_archive_hash, modify; simpl; by rewrite length_map|].
  split.
  { intros r Hr Hwhere. unfold update_archive_hash, modify. simpl.
    apply list_elem_of_In, List.in_map_iff. exists r.
    rewrite Hwhere. split; [done | by apply list_elem_of_In]. }
  split; [exact Hfilter|]. split; [reflexivity|]. split; [reflexivity|]. exact Hget.
Qed.

Lemma with_lock_result {A} (key : string) (body : exec (world R) A) (w w' : world R)
    (r : result A) :
  body (set_calls (fun cs => cs ++ [Acquire key]) w) = (w', r) ->
  with_lock key body w = (set_calls (fun cs => cs ++ [Release key]) w', r).
Proof.
  intros Hbody. unfold with_lock, try_finally, log, bind, modify. by rewrite Hbody.
Qed.

Lemma get_archive_hash_frame (self : t) (w1 w2 : world R) (r : result (option string)) :
  component_metas w1 = component_metas w2 ->
  get_archive_hash self w1 = (w1, r) -> get_archive_hash self w2 = (w2, r).
Proof.
  unfold get_archive_hash, bind, get, ret, raise. simpl. intros ->.
  destruct (negb _); [by intros [= <-]|].
  destruct (group_by _); by intros [= <-].
Qed.

(** X6.  [SyncComponent.upload] fails fast: when the rows of the component do not
    form exactly one (hash, host) group it raises under the lock without
    calling the backend.  Otherwise the backend's [upload] is called once,
    under the lock; when it returns a hash, that hash and [HOST] are written
    to the rows of the component and [get_archive_hash] returns it
    afterwards; when it fails, the failure is raised and no row changes. *)
Theorem SyncComponent_upload_spec (self : t) (w : world R) :
  let cls := component_storage self in
  let p := component_storage_parameters self in
  let groups := group_by (List.filter (where_ (query_args self)) (component_metas w)) in
  let out := upload HOST self w in
  (length groups <> 1 ->
     out = (set_calls (fun cs => cs ++ [Acquire (lock self); Release (lock self)]) w,
            Raise (invalid_define_meta (component_name self)))) /\
  (forall r' res,
     length groups = 1 ->
     component_upload cls p (outside w) = (r', res) ->
     calls (fst out) =
       calls w ++ [Acquire (lock self); ComponentUpload cls p; Release (lock self)] /\
     outside (fst out) = r' /\
     match res with
     | Ok hash_ =>
         snd out = Ok tt /\
         component_metas (fst out) =
           List.map (fun r => if where_ (query_args self) r
                              then with_archive HOST r hash_ else r) (component_metas w) /\
         get_archive_hash self (fst out) = (fst out, Ok (Some hash_))
     | Raise e => snd out = Raise e /\ component_metas (fst out) = component_metas w
     end).
Proof.
  intros cls p groups out. subst cls p out. split.
  - intros Hlen. unfold upload.
    erewrite with_lock_result.
    2:{ unfold bind at 1. rewrite (get_archive_hash_invalid self (set_calls _ w) Hlen).
        reflexivity. }
    unfold set_calls. simpl. by rewrite <- !app_assoc.
  - intros r' res Hlen Hup.
    destruct groups as [|r [|? ?]] eqn:Hgroups; try done.
    assert (Hne : List.filter (where_ (query_args self)) (component_metas w) <> []).
    { intros Hnil. unfold groups in Hgroups. by rewrite Hnil in Hgroups. }
    unfold upload. destruct res as [hash_|e]; (erewrite with_lock_result;
      [|unfold bind at 1; rewrite (get_archive_hash_single self (set_calls _ w) r Hgroups);
        unfold log, bind, modify, update_archive_hash; simpl; rewrite Hup; reflexivity]);
      simpl; rewrite <- !app_assoc; simpl.
    + split_and!; try done.
      pose proof (update_archive_hash_then_get self hash_ w Hne) as Hget.
      eapply get_archive_hash_frame; [|exact Hget]. reflexivity.
    + done.
Qed.

(** X7.  [SyncComponent.download] never changes a row.  It raises under the lock
    without calling the backend unless the rows of the component form
    exactly one (hash, host) group, and then calls the backend's [download]
    once with the hash of that group. *)
Theorem SyncComponent_download_spec (self : t) (w : world R) :
  let cls := component_storage self in
  let p := component_storage_parameters self in
  let groups := group_by (List.filter (where_ (query_args self)) (component_metas w)) in
  let out := download self w in
  component_metas (fst out) = component_metas w /\
  (length groups <> 1 ->
     out = (set_calls (fun cs => cs ++ [Acquire (lock self); Release (lock self)]) w,
            Raise (invalid_define_meta (component_name self)))) /\
  (forall r r' res,
     groups = [r] ->
     component_download cls p (PipelineComponentMeta.f_archive_sha256 r) (outside w)
       = (r', res) ->
     calls (fst out) =
       calls w ++ [Acquire (lock self);
                   ComponentDownload cls p (PipelineComponentMeta.f_archive_sha256 r);
                   Release (lock self)] /\
     outside (fst out) = r' /\ snd out = res).
Proof.
  intros cls p groups out. subst cls p out.
  assert (Hinvalid : length groups <> 1 ->
            download self w =
              (set_calls (fun cs => cs ++ [Acquire (lock self); Release (lock self)]) w,
               Raise (invalid_define_meta (component_name self)))).
  { intros Hlen. unfold download. erewrite with_lock_result.
    2:{ unfold bind at 1. rewrite (get_archive_hash_invalid self (set_calls _ w) Hlen).
        reflexivity. }
    unfold set_calls. simpl. by rewrite <- !app_assoc. }
  assert (Hvalid : forall r r' res, groups = [r] ->
            component_download (component_storage self) (component_storage_parameters self)
              (PipelineComponentMeta.f_archive_sha256 r) (outside w) = (r', res) ->
            download self w =
              (World (objects w)
                 (calls w ++ [Acquire (lock self);
                    ComponentDownload (component_storage self)
                      (component_storage_parameters self)
                      (PipelineComponentMeta.f_archive_sha256 r);
                    Release (lock self)])
                 (models w) (component_metas w) r', res)).
  { intros r r' res Hr Hdown. unfold download. erewrite with_lock_result.
    2:{ unfold bind at 1. rewrite (get_archive_hash_single self (set_calls _ w) r Hr).
        unfold log, bind, modify. simpl. rewrite Hdown. reflexivity. }
    unfold set_calls, set_outside. simpl. by rewrite <- !app_assoc. }
  split_and!.
  - destruct groups as [|r [|? ?]] eqn:Hg.
    + by rewrite Hinvalid.
    + destruct (component_download (component_storage self)
                  (component_storage_parameters self)
                  (PipelineComponentMeta.f_archive_sha256 r) (outside w)) as [r' res] eqn:Hd.
      by rewrite (Hvalid r r' res eq_refl Hd).
    + rewrite Hinvalid; [done | simpl; lia].
  - exact Hinvalid.
  - intros r r' res Hr Hdown. by rewrite (Hvalid r r' res Hr Hdown).
Qed.

End SyncComponent_further.
(** The constructor at the toy deployment. *)
Lemma SyncModel_init_spec_witness :
  let w := example.world0 example.mysql_address [] [] (false, false) in
  snd (sync_model.SyncModel.__init__ (C := example.backends) example.registry
         "guest#9999#m1" "v1" w) = Ok example.guest_sync.
Proof.
  intros w.
  destruct (SyncModel_init_spec (C := example.backends) example.registry
              "guest#9999#m1" "v1" w example.mysql_address "mysql"
              sync_model.MysqlModelStorage
              (sync_model.SyncModel.pipelined_model example.guest_sync))
    as (_ & _ & _ & _ & _ & _ & Hres).
  - vm_compute. reflexivity.
  - vm_compute. reflexivity.
  - vm_compute. reflexivity.
  - vm_compute. reflexivity.
  - rewrite Hres. vm_compute. reflexivity.
Defined.

Lemma backends_store_then_exists : store_then_exists (C := example.backends).
Proof. intros cls p f r r' h [= <- _]. reflexivity. Qed.

(** Two uploads in a row at the toy deployment: the second stores nothing. *)
Lemma upload_twice_witness :
  let w := example.world0 example.mysql_address [example.guest_model None None] []
             (false, false) in
  let w1 := fst (sync_model.SyncModel.upload (C := example.backends) "hostA"
                   example.guest_sync false w) in
  snd (sync_model.SyncModel.upload (C := example.backends) "hostA"
         example.guest_sync false w1) = Ok None.
Proof.
  intros w w1.
  destruct (upload_twice (C := example.backends) "hostA" example.guest_sync false w w1
              (example.guest_model (Some example.digest) (Some "hostA")))
    as [Heq _].
  - apply backends_store_then_exists.
  - vm_compute. reflexivity.
  - rewrite Heq. reflexivity.
Defined.

(** An upload on hostA followed by a download on hostB. *)
Lemma upload_then_download_witness :
  let w := example.world0 example.mysql_address [example.guest_model None None] []
             (false, false) in
  let w1 := fst (sync_model.SyncModel.upload (C := example.backends) "hostA"
                   example.guest_sync false w) in
  sync_model.calls (fst (sync_model.SyncModel.download (C := example.backends) "hostB"
                           example.guest_sync false w1)) =
  sync_model.calls w1 ++
    [sync_model.Acquire "sync_model_guest#9999#m1_v1";
     sync_model.Restore sync_model.MysqlModelStorage
       (sync_model.ModelParams "guest#9999#m1" "v1" 2%positive) false
       (Some example.digest);
     sync_model.Release "sync_model_guest#9999#m1_v1"].
Proof.
  intros w w1.
  destruct (upload_then_download (C := example.backends) "hostA" example.guest_sync
              false w w1 (example.guest_model (Some example.digest) (Some "hostA")))
    as (_ & _ & Hother & _).
  - vm_compute. reflexivity.
  - vm_compute. reflexivity.
  - apply (Hother "hostB"). discriminate.
Defined.

(** Two rows of the component that disagree are made consistent. *)
Lemma update_archive_hash_spec_witness :
  let rows := [example.guest_meta 1 "a" ∅ (Some "abc") (Some "hostA");
               example.guest_meta 2 "b" ∅ (Some "def") (Some "hostB")] in
  let w := example.world0 example.mysql_address [] rows (false, false) in
  let w' := fst (sync_model.SyncComponent.update_archive_hash (R := bool * bool) "hostC"
                   example.guest_component "0123" w) in
  sync_model.SyncComponent.get_archive_hash example.guest_component w' = (w', Ok (Some "0123")).
Proof.
  intros rows w w'.
  destruct (update_archive_hash_spec (R := bool * bool) "hostC" example.guest_component
              "0123" w) as (_ & _ & _ & _ & _ & _ & Hget).
  apply Hget. vm_compute. discriminate.
Defined.

(** The upload of a component with consistent rows. *)
Lemma SyncComponent_upload_spec_witness :
  let rows := [example.guest_meta 1 "a" ∅ None None] in
  let w := example.world0 example.mysql_address [] rows (false, false) in
  let out := sync_model.SyncComponent.upload (C := example.backends) "hostA"
               example.guest_component w in
  snd out = Ok tt /\
  sync_model.SyncComponent.get_archive_hash example.guest_component (fst out)
    = (fst out, Ok (Some example.digest)).
Proof.
  intros rows w out.
  destruct (SyncComponent_upload_spec (C := example.backends) "hostA"
              example.guest_component w) as [_ Hup].
  destruct (Hup (true, false) (Ok example.digest)) as (_ & _ & Hres & _ & Hget).
  - vm_compute. reflexivity.
  - vm_compute. reflexivity.
  - split; [exact Hres | exact Hget].
Defined.

(** The download of a component whose rows disagree raises. *)
Lemma SyncComponent_download_spec_witness :
  let rows := [example.guest_meta 1 "a" ∅ (Some "abc") (Some "hostA");
               example.guest_meta 2 "b" ∅ (Some "def") (Some "hostA")] in
  let w := example.world0 example.mysql_address [] rows (false, false) in
  snd (sync_model.SyncComponent.download (C := example.backends)
         example.guest_component w)
  = Raise (ValueError "The define_meta data of c in database is invalid.").
Proof.
  intros rows w.
  destruct (SyncComponent_download_spec (C := example.backends)
              example.guest_component w) as (_ & Hinvalid & _).
  rewrite Hinvalid; [reflexivity|]. vm_compute. lia.
Defined.

(** ** [PipelinedComponent]: construction *)

Section PipelinedComponent_init.

Import pipelined_component.

Lemma str_split_no_sep sep n s : has_char sep s = false -> str_split sep n s = [s].
Proof.
  revert n. induction s as [|c s IH]; intros n; simpl; [by destruct n|].
  intros [Hc Hs]%orb_false_elim. destruct n as [|n]; rewrite ?Hc, (IH _ Hs); done.
Qed.

Lemma str_split_sep sep n a b :
  has_char sep a = false ->
  str_split sep (S n) (a +:+ String sep EmptyString +:+ b) = a :: str_split sep n b.
Proof.
  induction a as [|c a IH]; simpl.
  - intros _. by rewrite Ascii.eqb_refl.
  - intros [Hc Ha]%orb_false_elim. by rewrite Hc, (IH Ha).
Qed.

(** X8.  With no [#] in the role and in the party id, the party model id that
    [__init__] composes from role, party id and model id is split back into
    these three by [__init__], whatever the model id: the two ways of
    constructing a [PipelinedComponent] give the same object.  A party model
    id without [#], or with a single one, raises. *)
Theorem PipelinedComponent_init_round_trip (role_ party_id_ model_id_ model_version_ : string) :
  has_char "#" role_ = false ->
  has_char "#" party_id_ = false ->
  (exists self,
     __init__ role_ party_id_ model_id_ None model_version_ = Ok self /\
     party_model_id self = role_ +:+ "#" +:+ party_id_ +:+ "#" +:+ model_id_ /\
     forall r p m, __init__ r p m (Some (party_model_id self)) model_version_ = Ok self) /\
  (forall r p m, is_ok (__init__ r p m (Some role_) model_version_) = false) /\
  (forall r p m,
     is_ok (__init__ r p m (Some (role_ +:+ "#" +:+ party_id_)) model_version_) = false).
Proof.
  intros Hrole Hparty. split_and!.
  - eexists. split; [reflexivity|]. split; [reflexivity|]. intros r p m.
    unfold __init__. cbn [party_model_id].
    rewrite (str_split_sep "#" 1 role_ _ Hrole).
    rewrite (str_split_sep "#" 0 party_id_ _ Hparty).
    assert (str_split "#" 0 model_id_ = [model_id_]) as ->; [|done].
    clear. induction model_id_ as [|c s IH]; simpl; [done|]. by rewrite IH.
  - intros r p m. unfold __init__. by rewrite (str_split_no_sep _ _ _ Hrole).
  - intros r p m. unfold __init__.
    rewrite (str_split_sep "#" 1 role_ _ Hrole).
    by rewrite (str_split_no_sep _ _ _ Hparty).
Qed.

End PipelinedComponent_init.

Lemma PipelinedComponent_init_round_trip_witness :
  pipelined_component.__init__ "" "" "" (Some "guest#9999#m1#x") "v1"
  = pipelined_component.__init__ "guest" "9999" "m1#x" None "v1".
Proof.
  destruct (PipelinedComponent_init_round_trip "guest" "9999" "m1#x" "v1")
    as [(self & Hparts & Hid & Hsplit) _].
  - reflexivity.
  - reflexivity.
  - rewrite Hparts. rewrite <- (Hsplit "" "" ""). by rewrite Hid.
Defined.

(** ** [save_define_meta] and what is read afterwards *)

Section PipelinedComponent_save.

Import pathlib pipelined_component.

Context {L : Libraries}.

Lemma rearrange_row_insert (dm : define_meta_t) (r : PipelineComponentMeta.t) :
  let c := PipelineComponentMeta.f_component_name r in
  rearrange_row dm r =
    DefineMeta
      (<[c := ComponentDefine (PipelineComponentMeta.f_component_module_name r)]>
         (component_define dm))
      (<[c := <[PipelineComponentMeta.f_model_alias r :=
                  PipelineComponentMeta.f_model_proto_index r]>
                (default ∅ (model_proto dm !! c))]> (model_proto dm)).
Proof.
  intros c.
  assert (Hmp : model_proto (rearrange_row dm r) =
                <[c := <[PipelineComponentMeta.f_model_alias r :=
                           PipelineComponentMeta.f_model_proto_index r]>
                         (default ∅ (model_proto dm !! c))]> (model_proto dm)).
  { apply map_eq. intros k. rewrite rearrange_row_model_proto. fold c.
    destruct (decide (c = k)) as [<-|Hne].
    - by rewrite lookup_insert_eq.
    - by rewrite lookup_insert_ne. }
  rewrite <- Hmp. reflexivity.
Qed.

Lemma run_parameters_snoc (rows : list PipelineComponentMeta.t) (r : PipelineComponentMeta.t)
    (acc : gmap string (gmap string string)) :
  fold_left (fun acc row =>
               <[PipelineComponentMeta.f_component_name row :=
                   PipelineComponentMeta.f_run_parameters row]> acc) (rows ++ [r]) acc =
  <[PipelineComponentMeta.f_component_name r := PipelineComponentMeta.f_run_parameters r]>
    (fold_left (fun acc row =>
                  <[PipelineComponentMeta.f_component_name row :=
                      PipelineComponentMeta.f_run_parameters row]> acc) rows acc).
Proof. by rewrite fold_left_app. Qed.

Lemma get_run_parameters_dispatch (self : t) (s : state) :
  get_run_parameters self s =
    match List.filter (where_ self) (component_metas s) with
    | [] => get_run_parameters_from_files self s
    | query =>
        (s, Ok (fold_left (fun acc row =>
                             <[PipelineComponentMeta.f_component_name row :=
                                 PipelineComponentMeta.f_run_parameters row]> acc) query ∅))
    end.
Proof.
  unfold get_run_parameters, bind. rewrite get_define_meta_from_db_all.
  destruct (List.filter (where_ self) (component_metas s)); reflexivity.
Qed.

Lemma read_run_parameters_root names acc (s s' : state) :
  model_root s' = model_root s ->
  snd (read_run_parameters names acc s') = snd (read_run_parameters names acc s).
Proof.
  intros Hroot. revert acc. induction names as [|name names IH]; intros acc; [reflexivity|].
  cbn [read_run_parameters]. unfold bind, read_root, lift. rewrite Hroot.
  destruct (read_bytes _ (model_root s)) as [text|e]; [|reflexivity].
  destruct (json_loads text) as [value|e]; [|reflexivity].
  apply IH.
Qed.

Lemma get_run_parameters_from_files_root (self other : t) (s s' : state) :
  model_root s' = model_root s ->
  get_run_parameters_from_files other s' = (s', snd (get_run_parameters_from_files self s)).
Proof.
  intros Hroot.
  rewrite (surjective_pairing (get_run_parameters_from_files other s')).
  rewrite get_run_parameters_from_files_state. f_equal.
  unfold get_run_parameters_from_files, bind, get, read_root. cbn beta iota. rewrite !Hroot.
  destruct (is_dir run_parameters_path (model_root s)); [|reflexivity].
  cbn beta iota delta [negb]. rewrite ?Hroot.
  destruct (iterdir run_parameters_path (model_root s)); [|reflexivity].
  by apply read_run_parameters_root.
Qed.

Lemma where_same_identity (self other : t) (r : PipelineComponentMeta.t) :
  where_ self r = true -> where_ other r = true ->
  (model_id other, model_version other, role other, party_id other) =
  (model_id self, model_version self, role self, party_id self).
Proof.
  unfold where_. rewrite !andb_true_iff, !bool_decide_eq_true. intros. intuition congruence.
Qed.

(** X10.  [save_define_meta] for a component and alias of which the identity
    has no row yet (the table holds one row for an identity, component and
    alias): it adds one row and touches no file.  From then on
    [get_define_meta] answers from the table, whatever the define-meta file
    holds: the document is the one of the rows the identity had before, with
    the module name of the component replaced and the proto index of the
    alias added, and [get_run_parameters] gives the component the run
    parameters just saved.  What another identity reads is as before. *)
Theorem save_define_meta_spec (self : t)
    (component_name component_module_name model_alias : string)
    (model_proto_index run_parameters : gmap string string) (s : state) :
  let rows := List.filter (where_ self) (component_metas s) in
  let old := rearrange_define_meta rows in
  (forall r, r ∈ rows ->
     PipelineComponentMeta.f_component_name r = component_name ->
     PipelineComponentMeta.f_model_alias r <> model_alias) ->
  exists s',
    save_define_meta self component_name component_module_name model_alias
      model_proto_index run_parameters s = (s', Ok tt) /\
    model_root s' = model_root s /\ temp s' = temp s /\
    length (component_metas s') = S (length (component_metas s)) /\
    (exists doc,
       get_define_meta self s' = (s', Ok doc) /\
       component_define doc =
         <[component_name := ComponentDefine component_module_name]> (component_define old) /\
       model_proto doc =
         <[component_name :=
             <[model_alias := model_proto_index]>
               (default ∅ (model_proto old !! component_name))]> (model_proto old)) /\
    (exists rps,
       get_run_parameters self s' = (s', Ok rps) /\
       rps !! component_name = Some run_parameters /\
       forall c, c <> component_name ->
         rps !! c = match rows with
                    | [] => None
                    | _ => match snd (get_run_parameters self s) with
                           | Ok before => before !! c
                           | Raise _ => None
                           end
                    end) /\
    (forall other,
       (model_id other, model_version other, role other, party_id other) <>
       (model_id self, model_version self, role self, party_id self) ->
       get_define_meta other s' = (s', snd (get_define_meta other s)) /\
       get_run_parameters other s' = (s', snd (get_run_parameters other s))).
Proof.
  intros rows old _.
  set (row := PipelineComponentMeta.Build (next_id (component_metas s)) (model_id self)
                (model_version self) (role self) (party_id self) component_name
                component_module_name model_alias model_proto_index run_parameters None None).
  set (s' := set_component_metas (fun table => table ++ [row]) s).
  assert (Hrow : where_ self row = true).
  { unfold where_, row. cbn. by rewrite !bool_decide_eq_true_2. }
  assert (Hrows' : List.filter (where_ self) (component_metas s') = rows ++ [row]).
  { unfold s'. cbn. rewrite List.filter_app. cbn. by rewrite Hrow. }
  exists s'. split; [reflexivity|]. split; [reflexivity|]. split; [reflexivity|].
  split; [unfold s'; cbn; rewrite length_app; cbn; lia|].
  split; [|split].
  - exists (rearrange_row old row). split.
    + rewrite get_define_meta_dispatch, Hrows'. unfold old.
      rewrite <- rearrange_define_meta_snoc.
      destruct (rows ++ [row]) eqn:E; [by destruct rows|reflexivity].
    + by rewrite rearrange_row_insert.
  - eexists. split.
    + rewrite get_run_parameters_dispatch, Hrows'.
      destruct (rows ++ [row]) eqn:E; [by destruct rows|]. rewrite <- E.
      rewrite run_parameters_snoc. reflexivity.
    + simpl (PipelineComponentMeta.f_component_name row).
      simpl (PipelineComponentMeta.f_run_parameters row).
      split; [by rewrite lookup_insert_eq|].
      intros c Hc. rewrite lookup_insert_ne by done.
      rewrite get_run_parameters_dispatch. fold rows.
      destruct rows; reflexivity.
  - intros other Hother.
    assert (Hfilter : List.filter (where_ other) (component_metas s') =
                      List.filter (where_ other) (component_metas s)).
    { unfold s'. cbn. rewrite List.filter_app. cbn.
      destruct (where_ other row) eqn:E; [|by rewrite app_nil_r].
      destruct Hother. by eapply where_same_identity. }
    split.
    + rewrite !get_define_meta_dispatch, Hfilter.
      destruct (List.filter (where_ other) (component_metas s)); [|reflexivity].
      unfold get_define_meta_from_file, bind, read_root, lift. cbn.
      destruct (read_bytes define_meta_path (model_root s)); reflexivity.
    + rewrite !get_run_parameters_dispatch, Hfilter.
      destruct (List.filter (where_ other) (component_metas s)); [|reflexivity].
      by apply get_run_parameters_from_files_root.
Qed.

End PipelinedComponent_save.

(** A second alias b saved for the component c of guest#9999#m1: the document
    read afterwards lists both aliases. *)
Lemma save_define_meta_spec_witness :
  let L := toy.libraries toy.no_document ∅ in
  let s := pipelined_component.State (pathlib.Dir []) ∅
             [toy.meta 1 "c" "a" toy.index_a ∅ None None] in
  exists s' doc aliases,
    pipelined_component.save_define_meta toy.guest "c" "HeteroLR" "b" ∅ ∅ s = (s', Ok tt) /\
    pipelined_component.get_define_meta toy.guest s' = (s', Ok doc) /\
    pipelined_component.model_proto doc !! "c" = Some aliases /\
    aliases !! "a" = Some toy.index_a /\ aliases !! "b" = Some ∅.
Proof.
  intros L s.
  destruct (save_define_meta_spec (L := L) toy.guest "c" "HeteroLR" "b" ∅ ∅ s)
    as (s' & Hsave & _ & _ & _ & (doc & Hget & _ & Hproto) & _).
  - intros r Hr. apply list_elem_of_In in Hr. vm_compute in Hr.
    destruct Hr as [<-|[]]. intros _. discriminate.
  - exists s', doc. eexists. split; [exact Hsave|]. split; [exact Hget|].
    rewrite Hproto. split; [apply lookup_insert_eq|]. split; vm_compute; reflexivity.
Defined.


(** ** [rearrange_define_meta]: later rows win *)

Section rearrange.

Import pathlib pipelined_component.

Context {L : Libraries}.

Lemma last_where_snoc p rows r :
  last_where p (rows ++ [r]) = if p r then Some r else last_where p rows.
Proof.
  unfold last_where. rewrite List.filter_app. cbn.
  destruct (p r); [apply last_snoc|by rewrite app_nil_r].
Qed.

Lemma rearrange_define_meta_well_formed rows :
  every_component_has_an_alias (rearrange_define_meta rows).
Proof.
  destruct (rearrange_sound rows) as [Hcd Hmp]. split.
  - apply set_eq. intros c. rewrite !elem_of_dom. split.
    + intros [x Hx]. destruct (Hcd c x Hx) as (r & Hr & <- & _).
      destruct (rearrange_complete rows r Hr) as [_ (am & -> & _)]. by eexists.
    + intros [am Ham]. destruct (Hmp c am Ham) as [(r & Hr & <-) _].
      by destruct (rearrange_complete rows r Hr) as [? _].
  - intros c am Ham ->. destruct (Hmp c ∅ Ham) as [(r & Hr & <-) _].
    destruct (rearrange_complete rows r Hr) as [_ (am & Ham' & [idx Hidx])].
    rewrite Ham in Ham'. injection Ham' as <-. by rewrite lookup_empty in Hidx.
Qed.

(** X11.  The document [rearrange_define_meta] builds from rows: a component has
    the module name of its last row, an alias of a component has the proto
    index of the last row of that component and alias, nothing else is listed,
    and every component listed has an alias. *)
Theorem rearrange_define_meta_spec (rows : list PipelineComponentMeta.t) :
  let doc := rearrange_define_meta rows in
  every_component_has_an_alias doc /\
  (forall c,
     component_define doc !! c =
       (fun r => ComponentDefine (PipelineComponentMeta.f_component_module_name r)) <$>
       last_where (fun r => bool_decide (PipelineComponentMeta.f_component_name r = c)) rows) /\
  (forall c a,
     model_proto doc !! c ≫= (fun aliases => aliases !! a) =
       PipelineComponentMeta.f_model_proto_index <$>
       last_where (fun r => bool_decide (PipelineComponentMeta.f_component_name r = c) &&
                            bool_decide (PipelineComponentMeta.f_model_alias r = a)) rows).
Proof.
  intros doc. split; [apply rearrange_define_meta_well_formed|]. subst doc.
  induction rows as [|r rows [IHcd IHmp]] using rev_ind.
  - split; intros; cbn; by rewrite lookup_empty.
  - rewrite rearrange_define_meta_snoc. split.
    + intros c. rewrite rearrange_row_component_define, last_where_snoc.
      destruct (decide (PipelineComponentMeta.f_component_name r = c)) as [Hc|Hc].
      * by rewrite bool_decide_eq_true_2.
      * rewrite bool_decide_eq_false_2 by done. apply IHcd.
    + intros c a. rewrite rearrange_row_model_proto, last_where_snoc.
      destruct (decide (PipelineComponentMeta.f_component_name r = c)) as [Hc|Hc].
      * rewrite (bool_decide_eq_true_2 _ Hc). cbn [andb option_bind mbind].
        destruct (decide (PipelineComponentMeta.f_model_alias r = a)) as [Ha|Ha].
        -- rewrite (bool_decide_eq_true_2 _ Ha). cbn. rewrite <- Ha. by rewrite lookup_insert_eq.
        -- rewrite (bool_decide_eq_false_2 _ Ha). cbn. rewrite lookup_insert_ne by done.
           rewrite <- IHmp. by destruct (model_proto (rearrange_define_meta rows) !! c).
      * rewrite (bool_decide_eq_false_2 _ Hc). cbn [andb]. apply IHmp.
Qed.

End rearrange.

(** ** [pack_component]: what it writes *)

Section PipelinedComponent_pack.

Import pathlib pipelined_component.

Context {L : Libraries}.






End PipelinedComponent_pack.

(** ** [unpack_component]: what it extracts *)

Section PipelinedComponent_unpack.

Import pathlib pipelined_component.

Context {L : Libraries}.

Lemma last_member_cons p q b members :
  last_member p ((q, b) :: members) =
    match last_member p members with
    | Some b' => Some b'
    | None => if bool_decide (q = p) then Some b else None
    end.
Proof.
  unfold last_member. cbn [List.filter fst].
  destruct (bool_decide (q = p)).
  - rewrite last_cons. by destruct (last _).
  - by destruct (last _).
Qed.

Lemma last_member_None p members : p ∉ List.map fst members -> last_member p members = None.
Proof.
  induction members as [|[q b] members IH]; [reflexivity|].
  cbn [List.map fst]. intros Hp. apply not_elem_of_cons in Hp as [Hne Hp].
  rewrite last_member_cons, (IH Hp). by rewrite bool_decide_eq_false_2.
Qed.

Lemma extractall_files (members : list (path * bytes)) (s : state) :
  let out := extractall members s in
  (forall p, p ∉ List.map fst members ->
     get_file (model_root (fst out)) p = get_file (model_root s) p) /\
  (snd out = Ok tt ->
   forall p, get_file (model_root (fst out)) p =
             match last_member p members with
             | Some b => Some b
             | None => get_file (model_root s) p
             end).
Proof.
  revert s. induction members as [|[q b] members IH]; intros s; cbn zeta.
  - split; [done|]. intros _ p. reflexivity.
  - cbn [extractall]. unfold bind, on_root, write_bytes.
    destruct (write_at q q b (model_root s)) as [n1|e] eqn:Hw.
    + destruct (write_at_get_file q q b _ _ Hw) as [Hq Hother].
      destruct (IH (set_model_root n1 s)) as [IH1 IH2]. cbn [model_root set_model_root] in *.
      split.
      * intros p Hp. cbn [List.map fst] in Hp. apply not_elem_of_cons in Hp as [Hne Hp].
        rewrite (IH1 p Hp). by apply Hother.
      * intros Hok p. rewrite (IH2 Hok p), last_member_cons.
        destruct (last_member p members); [reflexivity|].
        destruct (decide (q = p)) as [<-|Hne].
        -- by rewrite bool_decide_eq_true_2.
        -- rewrite bool_decide_eq_false_2 by done. apply Hother. congruence.
    + cbn [fst snd]. split; [done|discriminate].
Qed.

(** X13.  What [unpack_component] extracts, given the right hash or none and an
    archive that can be read.  In every case, also when the extraction
    raises on the way, the archives and the table are as before and so is
    every file the archive does not name.  When it returns, every path the
    archive names is a file with the content of the last member of that name:
    a file that was there is overwritten. *)
Theorem unpack_component_extracts (self : t) (component_name : string)
    (hash_ : option string) (s : state) (content : bytes) (members : list (path * bytes)) :
  temp s !! get_archive_path self component_name = Some content ->
  zip_read content = Ok members ->
  hash_ = None \/ hash_ = Some (sha256_hexdigest content) ->
  let out := unpack_component self component_name hash_ s in
  temp (fst out) = temp s /\
  component_metas (fst out) = component_metas s /\
  (forall p, p ∉ List.map fst members ->
     get_file (model_root (fst out)) p = get_file (model_root s) p) /\
  (snd out = Ok tt ->
   forall p, get_file (model_root (fst out)) p =
             match last_member p members with
             | Some b => Some b
             | None => get_file (model_root s) p
             end).
Proof.
  intros Harchive Hread Hhash out. subst out.
  rewrite (unpack_component_accepts self component_name hash_ s content Harchive Hhash), Hread.
  destruct (extractall_frame members s) as [Ht Hc].
  destruct (extractall_files members s) as [Hrest Hnamed].
  done.
Qed.

(** A missing archive: [unpack_component] raises [FileNotFoundError] and
    nothing changes, with a hash and without. *)
Lemma unpack_component_missing (self : t) (component_name : string)
    (hash_ : option string) (s : state) :
  temp s !! get_archive_path self component_name = None ->
  unpack_component self component_name hash_ s =
    (s, Raise (FileNotFoundError [get_archive_path self component_name])).
Proof.
  intros Hmissing.
  destruct hash_; unfold unpack_component, read_temp, bind, get, ret, raise, lift; simpl;
    rewrite Hmissing; reflexivity.
Qed.

End PipelinedComponent_unpack.

(** Unpacking the archive of feature_engineering over a cache in which
    variables/data/feature_engineering/a/model.pb has other content: the file
    is overwritten with the content from the archive. *)
Lemma unpack_component_extracts_witness :
  let L := toy.libraries toy.no_document ∅ in
  let stale :=
    pathlib.Dir [("variables",
       pathlib.Dir [("data",
          pathlib.Dir [("feature_engineering",
             pathlib.Dir [("a", pathlib.Dir [("model.pb", pathlib.File (toy.text "old"))])])])])] in
  let s := pipelined_component.State stale packed_files [] in
  let out := pipelined_component.unpack_component toy.guest "feature_engineering" None s in
  snd out = Ok tt /\
  pathlib.get_file (pipelined_component.model_root (fst out))
    ["variables"; "data"; "feature_engineering"; "a"; "model.pb"] = Some (toy.text "m1").
Proof.
  intros L stale s out.
  assert (Hok : snd out = Ok tt) by (vm_compute; reflexivity).
  split; [exact Hok|].
  destruct (unpack_component_extracts (L := L) toy.guest "feature_engineering" None s
              packed_archive
              (pathlib.walk [] toy.cache)) as (_ & _ & _ & Hnamed).
  - vm_compute. reflexivity.
  - vm_compute. reflexivity.
  - by left.
  - fold out in Hnamed. rewrite (Hnamed Hok). vm_compute. reflexivity.
Defined.

(** ** Packing and unpacking in place *)

Section pack_unpack_in_place.

Import pathlib pipelined_component.

Context {L : Libraries}.

Lemma set_child_same x c cs : child x cs = Some c -> set_child x c cs = cs.
Proof.
  induction cs as [|[y d] cs IH]; [done|]. cbn [child set_child].
  destruct (String.eqb y x); [by intros [= ->]|]. intros H. by rewrite (IH H).
Qed.

Lemma write_at_same full p b n : get_file n p = Some b -> write_at full p b n = Ok n.
Proof.
  unfold get_file. revert n. induction p as [|x p IH]; intros n.
  - cbn. by destruct n as [b'|cs]; intros [= ->].
  - cbn [resolve write_at]. destruct n as [b'|cs]; [done|].
    destruct (child x cs) as [c|] eqn:Hc; [|done].
    intros H. rewrite (IH c H). by rewrite (set_child_same x c cs Hc).
Qed.

Lemma extractall_same (members : list (path * bytes)) (s : state) :
  (forall p b, In (p, b) members -> get_file (model_root s) p = Some b) ->
  extractall members s = (s, Ok tt).
Proof.
  induction members as [|[p b] members IH]; intros Hsrc; [reflexivity|].
  cbn [extractall]. unfold bind, on_root, write_bytes.
  rewrite (write_at_same p p b (model_root s)) by (apply Hsrc; by left).
  replace (set_model_root (model_root s) s) with s by (by destruct s).
  apply IH. intros p' b' Hin. apply Hsrc. by right.
Qed.

Lemma pack_component_members (self : t) (component_name : string) (s : state) :
  wf (model_root s) = true ->
  (forall d, d ∈ component_dirs component_name -> is_dir d (model_root s) = true) ->
  exists members,
    pack_component self component_name s =
      (set_temp (fun files => <[get_archive_path self component_name := zip_write members]>
                                files) s,
       Ok (get_archive_path self component_name, sha256_hexdigest (zip_write members))) /\
    forall p b, In (p, b) members -> get_file (model_root s) p = Some b.
Proof.
  intros Hwf Hdirs.
  set (vd := variables_data_path ++ [component_name]).
  set (ck := checkpoint_path ++ [component_name]).
  destruct (is_dir_resolve vd (model_root s)) as [cs1 Hvd]; [apply Hdirs; in_list|].
  destruct (is_dir_resolve ck (model_root s)) as [cs2 Hck];
    [apply Hdirs; unfold component_dirs; in_list|].
  exists (walk vd (Dir cs1) ++ walk ck (Dir cs2)). split.
  - unfold pack_component, walk_component, iterdir. fold vd ck.
    rewrite Hvd, Hck. simpl. by rewrite lookup_insert_eq.
  - intros p b. rewrite List.in_app_iff. intros [Hin|Hin].
    + apply walk_sound in Hin as (q & -> & Hq); [|by eapply wf_resolve].
      by rewrite (get_file_below vd q _ cs1 Hvd).
    + apply walk_sound in Hin as (q & -> & Hq); [|by eapply wf_resolve].
      by rewrite (get_file_below ck q _ cs2 Hck).
Qed.

(** X14.  Packing a component and unpacking the archive into the cache it was
    packed from changes nothing: with the hash [pack_component] returned, or
    without a hash, [unpack_component] returns and the state is the one
    [pack_component] left, files, archives and table. *)
Theorem pack_then_unpack_in_place (self : t) (component_name : string) (s : state) :
  zip_roundtrip ->
  wf (model_root s) = true ->
  (forall d, d ∈ component_dirs component_name -> is_dir d (model_root s) = true) ->
  exists s1 hash_,
    pack_component self component_name s =
      (s1, Ok (get_archive_path self component_name, hash_)) /\
    model_root s1 = model_root s /\
    unpack_component self component_name (Some hash_) s1 = (s1, Ok tt) /\
    unpack_component self component_name None s1 = (s1, Ok tt).
Proof.
  intros Hzip Hwf Hdirs.
  destruct (pack_component_members self component_name s Hwf Hdirs) as (members & Hpack & Hin).
  eexists _, _. split; [exact Hpack|]. split; [reflexivity|].
  assert (Harchive :
    temp (set_temp (fun files =>
                      <[get_archive_path self component_name := zip_write members]> files) s)
      !! get_archive_path self component_name = Some (zip_write members)).
  { cbn. apply lookup_insert_eq. }
  split.
  - rewrite (unpack_component_accepts self component_name _ _ _ Harchive) by (by right).
    rewrite Hzip. by apply extractall_same.
  - rewrite (unpack_component_accepts self component_name _ _ _ Harchive) by (by left).
    rewrite Hzip. by apply extractall_same.
Qed.

End pack_unpack_in_place.

(** Packing feature_engineering in [toy.cache] and unpacking it there. *)
Lemma pack_then_unpack_in_place_witness :
  let L := toy.libraries toy.no_document ∅ in
  let s := pipelined_component.State toy.cache ∅ [] in
  exists s1 hash_,
    pipelined_component.pack_component toy.guest "feature_engineering" s =
      (s1, Ok ("guest#9999#m1_v1_feature_engineering.zip", hash_)) /\
    pipelined_component.unpack_component toy.guest "feature_engineering" (Some hash_) s1
    = (s1, Ok tt).
Proof.
  intros L s.
  destruct (pack_then_unpack_in_place (L := L) toy.guest "feature_engineering" s)
    as (s1 & hash_ & Hpack & _ & Hunpack & _).
  - apply libraries_zip_roundtrip.
  - vm_compute. reflexivity.
  - intros d Hd. unfold component_dirs in Hd.
    apply elem_of_cons in Hd as [->|Hd]; [vm_compute; reflexivity|].
    apply list_elem_of_singleton in Hd as ->. vm_compute. reflexivity.
  - exists s1, hash_. split; [exact Hpack | exact Hunpack].
Defined.

(** ** The members of an archive, and an archive that is missing or unreadable *)

Section pack_members.

Import pathlib pipelined_component.

Context {L : Libraries}.

Lemma walk_prefix n : forall rel p b, In (p, b) (walk rel n) -> exists q, p = rel ++ q.
Proof.
  induction n as [b0|cs IH] using node_induction; intros rel p b Hin.
  - cbn in Hin. destruct Hin as [[= <- <-]|[]]. exists []. by rewrite app_nil_r.
  - cbn [walk] in Hin. apply in_flat_map in Hin as ([x c] & Hc & Hin).
    destruct (IH x c Hc _ _ _ Hin) as [q ->]. exists (x :: q). by rewrite <- app_assoc.
Qed.

Lemma walk_NoDup n : forall rel, wf n = true -> NoDup (List.map fst (walk rel n)).
Proof.
  induction n as [b0|cs IH] using node_induction; intros rel Hwf.
  - cbn. apply NoDup_singleton.
  - apply wf_Dir in Hwf as [Hnd Hwf]. cbn [walk].
    induction cs as [|[x c] cs IHcs]; [apply NoDup_nil_2|].
    cbn [flat_map List.map fst] in *. rewrite List.map_app.
    apply NoDup_cons in Hnd as [Hx Hnd].
    apply NoDup_app. split; [|split].
    + apply (IH x c); [by left|]. apply (Hwf x c). by left.
    + intros p Hp1 Hp2.
      apply list_elem_of_In, List.in_map_iff in Hp1 as ([p1 b1] & <- & Hp1).
      apply list_elem_of_In, List.in_map_iff in Hp2 as ([p2 b2] & Heq & Hp2).
      cbn [fst] in Heq. subst p2.
      apply walk_prefix in Hp1 as [q1 Hq1].
      apply in_flat_map in Hp2 as ([y d] & Hd & Hp2).
      apply walk_prefix in Hp2 as [q2 Hq2].
      rewrite Hq1, <- !app_assoc in Hq2. apply app_inv_head in Hq2.
      injection Hq2 as -> _. apply Hx.
      apply list_elem_of_In, List.in_map_iff. by exists (y, d).
    + apply IHcs.
      * intros y d Hd. apply (IH y d). by right.
      * exact Hnd.
      * intros y d Hd. apply (Hwf y d). by right.
Qed.

Lemma last_member_NoDup p b (members : list (path * bytes)) :
  NoDup (List.map fst members) ->
  last_member p members = Some b <-> In (p, b) members.
Proof.
  induction members as [|[q c] members IH]; intros Hnd.
  - split; [discriminate|intros []].
  - cbn [List.map fst] in Hnd. apply NoDup_cons in Hnd as [Hq Hnd].
    rewrite last_member_cons. cbn [In]. specialize (IH Hnd).
    destruct (decide (q = p)) as [->|Hne].
    + rewrite (last_member_None p members Hq), bool_decide_eq_true_2 by done.
      split.
      * intros [= ->]. by left.
      * intros [[= ->]|Hin]; [done|]. destruct Hq.
        apply list_elem_of_In, List.in_map_iff. by exists (p, b).
    + rewrite bool_decide_eq_false_2 by done.
      destruct (last_member p members) as [b'|].
      * rewrite IH. split; [by right|]. intros [[= ? ?]|Hin]; [done|exact Hin].
      * split; [discriminate|]. intros [[= ? ?]|Hin]; [done|]. by apply IH.
Qed.

(** X18.  The archive [pack_component] writes for a component with both
    directories, in a cache without duplicate entries: no member is named
    twice, and the members are the files below the two directories of the
    component, under their paths relative to the model root and with their
    content.  Unpacking it never overwrites one member with another. *)
Theorem pack_component_archive (self : t) (component_name : string) (s : state) :
  wf (model_root s) = true ->
  (forall d, d ∈ component_dirs component_name -> is_dir d (model_root s) = true) ->
  exists members,
    temp (fst (pack_component self component_name s))
      !! get_archive_path self component_name = Some (zip_write members) /\
    snd (pack_component self component_name s) =
      Ok (get_archive_path self component_name, sha256_hexdigest (zip_write members)) /\
    NoDup (List.map fst members) /\
    (forall p b, last_member p members = Some b <->
       of_component component_name p /\ get_file (model_root s) p = Some b).
Proof.
  intros Hwf Hdirs.
  set (vd := variables_data_path ++ [component_name]).
  set (ck := checkpoint_path ++ [component_name]).
  destruct (is_dir_resolve vd (model_root s)) as [cs1 Hvd]; [apply Hdirs; in_list|].
  destruct (is_dir_resolve ck (model_root s)) as [cs2 Hck];
    [apply Hdirs; unfold component_dirs; in_list|].
  set (members := walk vd (Dir cs1) ++ walk ck (Dir cs2)).
  assert (Hnd : NoDup (List.map fst members)).
  { unfold members. rewrite List.map_app. apply NoDup_app. split; [|split].
    - apply walk_NoDup. by eapply wf_resolve.
    - intros p Hp1 Hp2.
      apply list_elem_of_In, List.in_map_iff in Hp1 as ([p1 b1] & <- & Hp1).
      apply list_elem_of_In, List.in_map_iff in Hp2 as ([p2 b2] & Heq & Hp2).
      cbn [fst] in Heq. subst p2.
      apply walk_prefix in Hp1 as [q1 Hq1]. apply walk_prefix in Hp2 as [q2 Hq2].
      rewrite Hq1 in Hq2. unfold vd, ck in Hq2. cbn in Hq2. discriminate Hq2.
    - apply walk_NoDup. by eapply wf_resolve. }
  assert (Hpack : pack_component self component_name s =
            (set_temp (fun files =>
                         <[get_archive_path self component_name := zip_write members]> files) s,
             Ok (get_archive_path self component_name,
                 sha256_hexdigest (zip_write members)))).
  { unfold pack_component, walk_component, iterdir. fold vd ck.
    rewrite Hvd, Hck. simpl. by rewrite lookup_insert_eq. }
  exists members. rewrite Hpack. split; [|split; [|split; [exact Hnd|]]].
  - cbn. apply lookup_insert_eq.
  - reflexivity.
  - intros p b. rewrite (last_member_NoDup p b members Hnd).
    unfold members. rewrite List.in_app_iff. split.
    + intros [Hin|Hin].
      * apply walk_sound in Hin as (q & -> & Hq); [|by eapply wf_resolve].
        split; [exists vd, q; split; [in_list | done]|].
        by rewrite (get_file_below vd q _ cs1 Hvd).
      * apply walk_sound in Hin as (q & -> & Hq); [|by eapply wf_resolve].
        split; [exists ck, q; split; [unfold component_dirs; in_list | done]|].
        by rewrite (get_file_below ck q _ cs2 Hck).
    + intros [(d & q & Hd & ->) Hb]. unfold component_dirs in Hd.
      apply elem_of_cons in Hd as [->|Hd].
      * left. apply walk_complete. by rewrite <- (get_file_below _ q _ cs1 Hvd).
      * apply list_elem_of_singleton in Hd as ->.
        right. apply walk_complete. by rewrite <- (get_file_below _ q _ cs2 Hck).
Qed.

(** X19.  Before anything is extracted: without the archive [unpack_component]
    raises [FileNotFoundError], and with an archive that cannot be read it
    raises; in both cases nothing has changed. *)
Theorem unpack_component_raises (self : t) (component_name : string)
    (hash_ : option string) (s : state) :
  let filename := get_archive_path self component_name in
  (temp s !! filename = None ->
   unpack_component self component_name hash_ s = (s, Raise (FileNotFoundError [filename]))) /\
  (forall content e,
     temp s !! filename = Some content -> zip_read content = Raise e ->
     fst (unpack_component self component_name hash_ s) = s /\
     is_ok (snd (unpack_component self component_name hash_ s)) = false /\
     (hash_ = None \/ hash_ = Some (sha256_hexdigest content) ->
      snd (unpack_component self component_name hash_ s) = Raise e)).
Proof.
  intros filename. split; [apply unpack_component_missing|].
  intros content e Harchive Hread.
  destruct hash_ as [h|].
  - destruct (decide (h = sha256_hexdigest content)) as [->|Hne].
    + rewrite (unpack_component_accepts self component_name _ s content Harchive)
        by (by right).
      rewrite Hread. split; [reflexivity|]. split; [reflexivity|]. reflexivity.
    + assert (Hbad : unpack_component self component_name (Some h) s =
                     (s, Raise (hash_mismatch filename h (sha256_hexdigest content)))).
      { unfold unpack_component, read_temp, bind, get, ret, raise; simpl.
        fold filename. rewrite Harchive. simpl.
        by rewrite (bool_decide_eq_true_2 _ Hne). }
      rewrite Hbad. split; [reflexivity|]. split; [reflexivity|].
      intros [[=]|[= Heq]]. by destruct Hne.
  - rewrite (unpack_component_accepts self component_name _ s content Harchive)
      by (by left).
    rewrite Hread. split; [reflexivity|]. split; [reflexivity|]. reflexivity.
Qed.

End pack_members.

(** The archive of feature_engineering packed from [toy.cache] holds the
    file a/model.pb of the component, and no file of another directory. *)
Lemma pack_component_archive_witness :
  let L := toy.libraries toy.no_document ∅ in
  let s := pipelined_component.State toy.cache ∅ [] in
  exists members,
    snd (pipelined_component.pack_component toy.guest "feature_engineering" s) =
      Ok ("guest#9999#m1_v1_feature_engineering.zip",
          toy.checksum (toy.archive_write members)) /\
    last_member ["variables"; "data"; "feature_engineering"; "a"; "model.pb"] members
      = Some (toy.text "m1") /\
    NoDup (List.map fst members).
Proof.
  intros L s.
  destruct (pack_component_archive (L := L) toy.guest "feature_engineering" s)
    as (members & _ & Hpack & Hnd & Hmem).
  - vm_compute. reflexivity.
  - intros d Hd. unfold component_dirs in Hd.
    apply elem_of_cons in Hd as [->|Hd]; [vm_compute; reflexivity|].
    apply list_elem_of_singleton in Hd as ->. vm_compute. reflexivity.
  - exists members. split; [exact Hpack|]. split; [|exact Hnd].
    apply Hmem. split; [|vm_compute; reflexivity].
    exists (pipelined_component.variables_data_path ++ ["feature_engineering"]),
      ["a"; "model.pb"].
    split; [unfold component_dirs; in_list | reflexivity].
Defined.

(** ** [db_exits] and the transfers *)

Section SyncModel_db.

Import sync_model SyncModel.

Context {R : Type} {C : Collaborators R}.
Variable HOST : string.

Lemma is_model_same_identity (other : t) (m r : MLModel.t) :
  same_identity m r = true -> is_model other m = is_model other r.
Proof.
  unfold same_identity, is_model. rewrite !andb_true_iff, !bool_decide_eq_true.
  intros [[[-> ->] ->] ->]. reflexivity.
Qed.

Lemma existsb_save (other : t) (m : MLModel.t) (l : list MLModel.t) :
  existsb (is_model other) (List.map (fun r => if same_identity m r then m else r) l) =
  existsb (is_model other) l.
Proof.
  induction l as [|r l IH]; [reflexivity|]. cbn [List.map existsb]. rewrite IH. f_equal.
  destruct (same_identity m r) eqn:E; [by apply is_model_same_identity|reflexivity].
Qed.

(** X2.  [db_exits] never raises and changes nothing: it answers whether a record
    of the identity is in the table.  [upload] and [download] keep its answer
    for every identity, whatever their outcome: they neither add nor remove a
    record. *)
Theorem db_exits_stable (self other : t) (force_update : bool) (w : world R) :
  db_exits other w = (w, Ok (existsb (is_model other) (models w))) /\
  snd (db_exits other (fst (upload HOST self force_update w))) = snd (db_exits other w) /\
  snd (db_exits other (fst (download HOST self force_update w))) = snd (db_exits other w).
Proof.
  split; [apply db_exits_run|]. rewrite !db_exits_run. cbn [snd]. split.
  - f_equal. rewrite (upload_run HOST self force_update w). cbn zeta.
    destruct (storage_exists _ _ _ && negb force_update); [reflexivity|].
    destruct (List.find (is_model self) (models w)) as [m|]; [|reflexivity].
    destruct (storage_store _ _ _ _) as [r' [h|e]]; [|reflexivity].
    cbn [fst models]. apply existsb_save.
  - f_equal. rewrite (download_run HOST self force_update w). cbn zeta.
    destruct (pipelined_model_exists _ _ && negb force_update); [reflexivity|].
    destruct (List.find (is_model self) (models w)) as [m|]; [|reflexivity].
    destruct (force_update || _); [|reflexivity].
    by destruct (storage_restore _ _ _ _ _) as [r' [u|e]].
Qed.

End SyncModel_db.

(** ** [save_define_meta_from_db_to_file] stops at the first row *)

Section export.

Import pathlib pipelined_component.

Context {L : Libraries}.








End export.


(** ** [PipelinedComponent.exists] *)

Section PipelinedComponent_exists.

Import pathlib pipelined_component.

Context {O : Surroundings}.

Lemma get_define_meta_from_db_run (self : t) (query_args : PipelineComponentMeta.t -> bool)
    (s : state) :
  get_define_meta_from_db self query_args s =
    (s, Ok (List.filter (fun r => where_ self r && query_args r) (component_metas s))).
Proof. reflexivity. Qed.

(** Without [..] a path is located where [resolve] finds it. *)
Lemma locate_resolve (p : path) : forall up n,
  forallb (fun part => negb (String.eqb part "..")) p = true ->
  locate up n p = match resolve p n with Some m => Found m | None => NotFound end.
Proof.
  induction p as [|x p IH]; intros up n Hp; [reflexivity|].
  cbn [forallb] in Hp. apply andb_prop in Hp as [Hx Hp]. apply negb_true_iff in Hx.
  cbn [locate resolve]. destruct n as [b|cs]; [reflexivity|]. rewrite Hx.
  destruct (child x cs) as [c|]; [by apply IH|reflexivity].
Qed.

Lemma is_file_at_inside (base : path) (c a m : string) (root : node) :
  forallb (fun part => negb (String.eqb part "..")) base = true ->
  stays_inside c = true -> stays_inside a = true -> stays_inside m = true ->
  is_file_at (joinpath (joinpath (joinpath (Inside base) c) a) m) root =
  is_file (base ++ pure_parts c ++ pure_parts a ++ pure_parts m) root.
Proof.
  unfold stays_inside. rewrite !andb_true_iff, !negb_true_iff.
  intros Hbase [Hc Hc'] [Ha Ha'] [Hm Hm'].
  unfold joinpath. rewrite Hc, Ha, Hm. unfold is_file_at, is_file.
  rewrite <- !app_assoc. rewrite locate_resolve.
  - by destruct (resolve _ root) as [[|]|].
  - rewrite !forallb_app, Hbase, Hc', Ha', Hm'. reflexivity.
Qed.

(** X9.  [exists] raises when the table has no row of the component and
    changes nothing.  With rows it answers whether, for every row and every
    model name of the proto index of the row, the path
    variables/data / component / alias / model name is a regular file, the
    three names joined as [/] joins them.  For names that are not absolute
    and have no part [..], that path is the one below variables/data with
    the parts of the three names: a name with a slash is looked up in a
    subdirectory. *)
Theorem exists_spec (self : t) (component_name : string) (s : state) :
  let rows :=
    List.filter (fun r => where_ self r &&
                          bool_decide (PipelineComponentMeta.f_component_name r = component_name))
      (component_metas s) in
  let file alias model_name :=
    joinpath (joinpath (joinpath (Inside variables_data_path) component_name) alias)
      model_name in
  fst (exists_ self component_name s) = s /\
  (rows = [] ->
     snd (exists_ self component_name s) =
       Raise (ValueError ("The define_meta data of " +:+ component_name +:+
                          " not found in database."))) /\
  (rows <> [] ->
     exists b, snd (exists_ self component_name s) = Ok b /\
       (b = true <->
        forall row model_name buffer_name,
          row ∈ rows ->
          PipelineComponentMeta.f_model_proto_index row !! model_name = Some buffer_name ->
          is_file_at (file (PipelineComponentMeta.f_model_alias row) model_name)
            (model_root s) = true)) /\
  (forall alias model_name,
     stays_inside component_name = true -> stays_inside alias = true ->
     stays_inside model_name = true ->
     is_file_at (file alias model_name) (model_root s) =
     is_file (variables_data_path ++ pure_parts component_name ++ pure_parts alias ++
              pure_parts model_name) (model_root s)).
Proof.
  intros rows file.
  assert (Hinside : forall alias model_name,
            stays_inside component_name = true -> stays_inside alias = true ->
            stays_inside model_name = true ->
            is_file_at (file alias model_name) (model_root s) =
            is_file (variables_data_path ++ pure_parts component_name ++ pure_parts alias ++
                     pure_parts model_name) (model_root s)).
  { intros alias model_name Hc Ha Hm. by apply is_file_at_inside. }
  unfold exists_, bind. rewrite get_define_meta_from_db_run.
  fold rows. cbn [fst snd].
  assert (Hname : forall row, row ∈ rows ->
            PipelineComponentMeta.f_component_name row = component_name).
  { intros row Hrow. apply list_elem_of_In, filter_In in Hrow as [_ Hrow].
    apply andb_prop in Hrow as [_ Hrow]. by apply bool_decide_eq_true in Hrow. }
  destruct rows as [|r0 rows'] eqn:Hrows.
  - split; [reflexivity|]. split; [reflexivity|]. split; [|exact Hinside].
    intros Hne. by destruct Hne.
  - split; [reflexivity|]. split; [intros Hnil; discriminate|]. split; [|exact Hinside].
    intros _. eexists. split; [reflexivity|].
    rewrite forallb_forall. split.
    + intros Hall row model_name buffer_name Hrow Hidx.
      specialize (Hall row (proj1 (list_elem_of_In _ _) Hrow)).
      rewrite forallb_forall in Hall.
      specialize (Hall (model_name, buffer_name)). cbn beta iota in Hall.
      rewrite (Hname row Hrow) in Hall. apply Hall.
      apply list_elem_of_In. by apply elem_of_map_to_list.
    + intros Hall row Hrow. apply forallb_forall. intros [model_name buffer_name] Hin.
      apply list_elem_of_In in Hrow, Hin. apply elem_of_map_to_list in Hin.
      rewrite (Hname row Hrow). by eapply Hall.
Qed.

End PipelinedComponent_exists.

(** A model name with a slash: the file is looked up in the subdirectory. *)
Lemma exists_spec_witness :
  let O : pathlib.Surroundings := {| pathlib.is_file_beyond := fun _ => false |} in
  let root :=
    pathlib.Dir [("variables",
       pathlib.Dir [("data",
          pathlib.Dir [("c",
             pathlib.Dir [("a",
                pathlib.Dir [("sub",
                   pathlib.Dir [("model.pb", pathlib.File (toy.text "m1"))])])])])])] in
  let s := pipelined_component.State root ∅
             [toy.meta 1 "c" "a" {[ "sub/model.pb" := "Param" ]} ∅ None None] in
  pipelined_component.exists_ toy.guest "c" s = (s, Ok true).
Proof.
  intros O root s.
  destruct (exists_spec (O := O) toy.guest "c" s)
    as (Hstate & _ & Hrows & Hinside).
  destruct Hrows as (b & Hb & Hiff); [vm_compute; discriminate|].
  rewrite (surjective_pairing (pipelined_component.exists_ toy.guest "c" s)), Hstate, Hb.
  f_equal. f_equal. apply Hiff. intros row model_name buffer_name Hrow Hidx.
  apply list_elem_of_In, filter_In in Hrow as [Hrow _].
  subst s. cbn [pipelined_component.component_metas In] in Hrow. destruct Hrow as [<-|[]].
  cbn [PipelineComponentMeta.f_model_alias PipelineComponentMeta.f_model_proto_index toy.meta]
    in *.
  apply lookup_singleton_Some in Hidx as [<- _].
  rewrite Hinside by (vm_compute; reflexivity). vm_compute. reflexivity.
Defined.

(** ** Claim C5: [unpack_component] checks the hash before it extracts *)

Section unpack_component_claim.

Import pathlib pipelined_component.

Context {L : Libraries}.

(** C5.  With the archive of the component in place, [unpack_component]
    given a hash that is not the SHA-256 of the archive's bytes raises the
    hash-mismatch error and leaves the whole state as it was: nothing is
    extracted, the archive stays.  Only with the right hash, or none, can the
    model root change, and the archive itself is never touched.  With the
    right hash, or none, the members of the archive are extracted into the
    model root: whatever the outcome, a file the archive does not name is as
    before; when the call returns, every path the archive names is a file
    with the content of the (last) member of that name; and the call does
    return when the members are files of a tree that the model root is a
    part of - as an empty model root is of any tree. *)
Theorem unpack_component_spec (self : t) (component_name : string)
    (s : state) (content : bytes) :
  let filename := get_archive_path self component_name in
  let sha256 := sha256_hexdigest content in
  let extract :=
    match zip_read content with
    | Ok members => extractall members s
    | Raise e => (s, Raise e)
    end in
  temp s !! filename = Some content ->
  (forall hash_, hash_ <> sha256 ->
     unpack_component self component_name (Some hash_) s =
       (s, Raise (hash_mismatch filename hash_ sha256))) /\
  unpack_component self component_name (Some sha256) s = extract /\
  unpack_component self component_name None s = extract /\
  (forall hash_,
     model_root (fst (unpack_component self component_name hash_ s)) <> model_root s ->
     hash_ = None \/ hash_ = Some sha256) /\
  (forall hash_,
     temp (fst (unpack_component self component_name hash_ s)) !! filename = Some content) /\
  (forall hash_ members,
     hash_ = None \/ hash_ = Some sha256 ->
     zip_read content = Ok members ->
     let out := unpack_component self component_name hash_ s in
     (forall p, p ∉ List.map fst members ->
        get_file (model_root (fst out)) p = get_file (model_root s) p) /\
     (snd out = Ok tt ->
      forall p, get_file (model_root (fst out)) p =
                match last_member p members with
                | Some b => Some b
                | None => get_file (model_root s) p
                end) /\
     (forall src,
        extends (model_root s) src ->
        (forall p b, In (p, b) members -> get_file src p = Some b) ->
        snd out = Ok tt)).
Proof.
  intros filename sha256 extract Harchive.
  assert (Hbad : forall hash_, hash_ <> sha256 ->
            unpack_component self component_name (Some hash_) s =
              (s, Raise (hash_mismatch filename hash_ sha256))).
  { intros hash_ Hne. unfold unpack_component, read_temp, bind, get, ret, raise; simpl.
    fold filename. rewrite Harchive. simpl. fold sha256.
    by rewrite (bool_decide_eq_true_2 _ Hne). }
  assert (Haccept : forall hash_, hash_ = None \/ hash_ = Some sha256 ->
            unpack_component self component_name hash_ s = extract).
  { intros hash_ Hhash.
    by apply (unpack_component_accepts self component_name _ s content Harchive). }
  assert (Htemp : temp (fst extract) = temp s).
  { subst extract. destruct (zip_read content); [apply extractall_frame | done]. }
  split; [exact Hbad|]. split; [apply Haccept; by right|]. split; [apply Haccept; by left|].
  split; [|split].
  - intros [hash_|] Hchanged; [|by left]. right.
    destruct (decide (hash_ = sha256)) as [->|Hne]; [done|].
    rewrite (Hbad hash_ Hne) in Hchanged. done.
  - intros [hash_|]; [|by rewrite (Haccept None), Htemp; [|left]].
    destruct (decide (hash_ = sha256)) as [->|Hne].
    + by rewrite (Haccept (Some sha256)), Htemp; [|right].
    + by rewrite (Hbad hash_ Hne).
  - intros hash_ members Hhash Hread out. subst out.
    rewrite (Haccept hash_ Hhash). subst extract. rewrite Hread.
    destruct (extractall_files members s) as [Hrest Hnamed].
    split; [exact Hrest|]. split; [exact Hnamed|].
    intros src Hext Hsrc.
    destruct (extractall_spec src members s Hext Hsrc) as (dst' & Hrun & _).
    by rewrite Hrun.
Qed.

End unpack_component_claim.

(** The archive of feature_engineering packed from [toy.cache], in the
    temporary directory of a host with an empty model root:
    [unpack_component] with the hash deadbeef raises and leaves the state;
    with the hash of the archive it returns and the file a/model.pb of the
    component is in the model root, with its content. *)
Lemma unpack_component_spec_witness :
  let L := toy.libraries toy.no_document ∅ in
  let s := pipelined_component.State (pathlib.Dir []) packed_files [] in
  let out := pipelined_component.unpack_component toy.guest "feature_engineering"
               (Some (toy.checksum packed_archive)) s in
  pipelined_component.unpack_component toy.guest "feature_engineering" (Some "deadbeef") s
  = (s, Raise (pipelined_component.hash_mismatch
                 "guest#9999#m1_v1_feature_engineering.zip" "deadbeef"
                 (toy.checksum packed_archive))) /\
  snd out = Ok tt /\
  pathlib.get_file (pipelined_component.model_root (fst out))
    ["variables"; "data"; "feature_engineering"; "a"; "model.pb"] = Some (toy.text "m1").
Proof.
  intros L s out.
  destruct (unpack_component_spec (L := L) toy.guest "feature_engineering" s packed_archive)
    as (Hbad & _ & _ & _ & _ & Hextract).
  - vm_compute. reflexivity.
  - destruct (Hextract (Some (toy.checksum packed_archive)) (pathlib.walk [] toy.cache))
      as (_ & Hnamed & Hreturns); [by right|vm_compute; reflexivity|].
    fold out in Hnamed, Hreturns.
    assert (Hok : snd out = Ok tt).
    { apply (Hreturns toy.cache).
      - apply extends_empty. reflexivity.
      - intros p b Hin. cbn in Hin.
        repeat (destruct Hin as [[= <- <-]|Hin]; [vm_compute; reflexivity|]).
        destruct Hin. }
    split; [|split; [exact Hok|]].
    + apply Hbad. intros Heq. vm_compute in Heq. discriminate Heq.
    + rewrite (Hnamed Hok). vm_compute. reflexivity.
Defined.
